(** * NumberLink solver: a shallow embedding of [numberlink_solver_v1.cc]

    The C++ class [NumberLink] is rendered as a record holding the same
    members; every member function becomes a function on that record in an
    error (option) monad, where [None] stands for behaviour the C++ standard
    leaves undefined (an index outside a vector, reading an input token that
    is not there) or for an exception leaving the function (a vector
    constructed with a negative size).

    - [CellKey] and [CellPosition] are [short]: values are integers of [Z]
      narrowed with [to_short]; [CellNumber] is [char], narrowed with
      [to_char] (signed, as on the x86 targets the program was written for);
      [unsigned int] arithmetic of [GetHash] is reduced with [to_uint].
    - A [vector<T>] is a [list T]; [v[i]] is [vget v i] and [v[i] = a] is
      [vset v i a], both [None] outside [0 .. size-1].
    - [stack<pair<CellKey, CellKey>>] is a list whose head is the top.
    - [map<Hash, double>] is a [gmap (Z * Z) Z].  Solution counts are sums
      of [1.0]; they are kept as exact integers, which is what the doubles
      hold as long as a count stays below 2^53.
    - [Print] writes a diagram to the standard output; the model records the
      data the diagram is drawn from, and [Print_text] gives the lines that
      are written for such a record.
    - A C string is a [string], the characters before the terminating zero;
      [argv] is a list of them. *)

From Stdlib Require Import ZArith List Lia Bool Ascii.
From stdpp Require Import base option list gmap strings.

Open Scope Z_scope.

(** ** Machine integers *)

Definition wrap_signed (bits : Z) (n : Z) : Z :=
  (n + 2 ^ (bits - 1)) mod 2 ^ bits - 2 ^ (bits - 1).

Definition to_short (n : Z) : Z := wrap_signed 16 n.
Definition to_char (n : Z) : Z := wrap_signed 8 n.
Definition to_uint (n : Z) : Z := n mod 2 ^ 32.

Definition int_min : Z := - 2 ^ 31.
Definition int_max : Z := 2 ^ 31 - 1.
Definition in_int (n : Z) : bool := (int_min <=? n) && (n <=? int_max).

(** An [int] result; signed overflow is undefined. *)
Definition int_of (n : Z) : option Z := if in_int n then Some n else None.

(** ** Vectors *)

Definition vget {A : Type} (v : list A) (i : Z) : option A :=
  if 0 <=? i then v !! Z.to_nat i else None.

Definition vset {A : Type} (v : list A) (i : Z) (a : A) : option (list A) :=
  if (0 <=? i) && (i <? Z.of_nat (length v))
  then Some (<[Z.to_nat i := a]> v) else None.

(** ** The class *)

Definition Hash : Type := Z * Z.

(** What [Print] reads besides the immutable board: the two link tables and
    the mates. *)
Record Diagram := mkDiagram {
  diagram_connected_x : list bool;
  diagram_connected_y : list bool;
  diagram_mates : list Z
}.

Record NumberLink := mkNumberLink {
  width_ : Z;
  height_ : Z;
  size_ : Z;
  mate_stack_ : list (Z * Z);
  cell_x_ : list Z;
  cell_y_ : list Z;
  table_ : list Z;
  keys_ : list Z;
  mates_ : list Z;
  start_ : list Z;
  connected_x_ : list bool;
  connected_y_ : list bool;
  memo_ : list (gmap Hash Z);
  solved_ : bool;
  stdout_ : list Diagram
}.

Definition set_mate_stack (s : list (Z * Z)) (nl : NumberLink) : NumberLink :=
  mkNumberLink (width_ nl) (height_ nl) (size_ nl) s (cell_x_ nl) (cell_y_ nl)
    (table_ nl) (keys_ nl) (mates_ nl) (start_ nl) (connected_x_ nl)
    (connected_y_ nl) (memo_ nl) (solved_ nl) (stdout_ nl).

Definition set_cell_x (v : list Z) (nl : NumberLink) : NumberLink :=
  mkNumberLink (width_ nl) (height_ nl) (size_ nl) (mate_stack_ nl) v (cell_y_ nl)
    (table_ nl) (keys_ nl) (mates_ nl) (start_ nl) (connected_x_ nl)
    (connected_y_ nl) (memo_ nl) (solved_ nl) (stdout_ nl).

Definition set_cell_y (v : list Z) (nl : NumberLink) : NumberLink :=
  mkNumberLink (width_ nl) (height_ nl) (size_ nl) (mate_stack_ nl) (cell_x_ nl) v
    (table_ nl) (keys_ nl) (mates_ nl) (start_ nl) (connected_x_ nl)
    (connected_y_ nl) (memo_ nl) (solved_ nl) (stdout_ nl).

Definition set_table (v : list Z) (nl : NumberLink) : NumberLink :=
  mkNumberLink (width_ nl) (height_ nl) (size_ nl) (mate_stack_ nl) (cell_x_ nl)
    (cell_y_ nl) v (keys_ nl) (mates_ nl) (start_ nl) (connected_x_ nl)
    (connected_y_ nl) (memo_ nl) (solved_ nl) (stdout_ nl).

Definition set_keys (v : list Z) (nl : NumberLink) : NumberLink :=
  mkNumberLink (width_ nl) (height_ nl) (size_ nl) (mate_stack_ nl) (cell_x_ nl)
    (cell_y_ nl) (table_ nl) v (mates_ nl) (start_ nl) (connected_x_ nl)
    (connected_y_ nl) (memo_ nl) (solved_ nl) (stdout_ nl).

Definition set_mates (v : list Z) (nl : NumberLink) : NumberLink :=
  mkNumberLink (width_ nl) (height_ nl) (size_ nl) (mate_stack_ nl) (cell_x_ nl)
    (cell_y_ nl) (table_ nl) (keys_ nl) v (start_ nl) (connected_x_ nl)
    (connected_y_ nl) (memo_ nl) (solved_ nl) (stdout_ nl).

Definition set_start (v : list Z) (nl : NumberLink) : NumberLink :=
  mkNumberLink (width_ nl) (height_ nl) (size_ nl) (mate_stack_ nl) (cell_x_ nl)
    (cell_y_ nl) (table_ nl) (keys_ nl) (mates_ nl) v (connected_x_ nl)
    (connected_y_ nl) (memo_ nl) (solved_ nl) (stdout_ nl).

Definition set_connected_x (v : list bool) (nl : NumberLink) : NumberLink :=
  mkNumberLink (width_ nl) (height_ nl) (size_ nl) (mate_stack_ nl) (cell_x_ nl)
    (cell_y_ nl) (table_ nl) (keys_ nl) (mates_ nl) (start_ nl) v
    (connected_y_ nl) (memo_ nl) (solved_ nl) (stdout_ nl).

Definition set_connected_y (v : list bool) (nl : NumberLink) : NumberLink :=
  mkNumberLink (width_ nl) (height_ nl) (size_ nl) (mate_stack_ nl) (cell_x_ nl)
    (cell_y_ nl) (table_ nl) (keys_ nl) (mates_ nl) (start_ nl) (connected_x_ nl)
    v (memo_ nl) (solved_ nl) (stdout_ nl).

Definition set_memo (v : list (gmap Hash Z)) (nl : NumberLink) : NumberLink :=
  mkNumberLink (width_ nl) (height_ nl) (size_ nl) (mate_stack_ nl) (cell_x_ nl)
    (cell_y_ nl) (table_ nl) (keys_ nl) (mates_ nl) (start_ nl) (connected_x_ nl)
    (connected_y_ nl) v (solved_ nl) (stdout_ nl).

Definition set_solved (b : bool) (nl : NumberLink) : NumberLink :=
  mkNumberLink (width_ nl) (height_ nl) (size_ nl) (mate_stack_ nl) (cell_x_ nl)
    (cell_y_ nl) (table_ nl) (keys_ nl) (mates_ nl) (start_ nl) (connected_x_ nl)
    (connected_y_ nl) (memo_ nl) b (stdout_ nl).

Definition set_stdout (o : list Diagram) (nl : NumberLink) : NumberLink :=
  mkNumberLink (width_ nl) (height_ nl) (size_ nl) (mate_stack_ nl) (cell_x_ nl)
    (cell_y_ nl) (table_ nl) (keys_ nl) (mates_ nl) (start_ nl) (connected_x_ nl)
    (connected_y_ nl) (memo_ nl) (solved_ nl) o.

(** ** Connectivity state: [ChangeMates], [RevertMates], [UniteMates] *)

(** [ChangeMates]: log the old value, then overwrite, unless nothing changes.
    Returns the stack size on entry. *)
Definition ChangeMates (cell_key cell_value : Z) (nl : NumberLink)
  : option (nat * NumberLink) :=
  let last_stack_size := length (mate_stack_ nl) in
  last_value ← vget (mates_ nl) cell_key;
  if last_value =? cell_value then Some (last_stack_size, nl)
  else
    mates' ← vset (mates_ nl) cell_key cell_value;
    Some (last_stack_size,
          set_mates mates' (set_mate_stack ((cell_key, last_value) :: mate_stack_ nl) nl)).

(** The loop of [RevertMates]: while the stack is taller than [stack_size],
    write the top entry back and pop it. *)
Fixpoint revert_loop (stack_size : nat) (stack : list (Z * Z)) (mates : list Z)
  : option (list Z * list (Z * Z)) :=
  match stack with
  | [] => Some (mates, [])
  | top :: rest =>
      if (stack_size <? length stack)%nat
      then mates' ← vset mates (fst top) (snd top); revert_loop stack_size rest mates'
      else Some (mates, stack)
  end.

Definition RevertMates (stack_size : nat) (nl : NumberLink) : option NumberLink :=
  '(mates', stack') ← revert_loop stack_size (mate_stack_ nl) (mates_ nl);
  Some (set_mates mates' (set_mate_stack stack' nl)).

Definition UniteMates (cell_key1 cell_key2 : Z) (nl : NumberLink)
  : option (bool * NumberLink) :=
  end1 ← vget (mates_ nl) cell_key1;
  end2 ← vget (mates_ nl) cell_key2;
  if (end1 =? -1) || (end2 =? -1) then Some (false, nl)
  else if (cell_key1 =? end2) && (cell_key2 =? end1) then Some (false, nl)
  else
    '(_, nl1) ← ChangeMates cell_key1 (-1) nl;
    '(_, nl2) ← ChangeMates cell_key2 (-1) nl1;
    '(_, nl3) ← ChangeMates end1 end2 nl2;
    '(_, nl4) ← ChangeMates end2 end1 nl3;
    m1 ← vget (mates_ nl4) cell_key1;
    branch1 ← (if m1 =? -1
               then t1 ← vget (table_ nl4) cell_key1; Some (0 <? t1)
               else Some false);
    if branch1 : bool then Some (false, nl4)
    else
      m2 ← vget (mates_ nl4) cell_key2;
      branch2 ← (if m2 =? -1
                 then t2 ← vget (table_ nl4) cell_key2; Some (0 <? t2)
                 else Some false);
      if branch2 : bool then Some (false, nl4)
      else
        te1 ← vget (table_ nl4) end1;
        differ ← (if 0 <? te1
                  then te2 ← vget (table_ nl4) end2;
                       Some ((0 <? te2) && negb (te1 =? te2))
                  else Some false);
        if differ : bool then Some (false, nl4) else Some (true, nl4).

(** ** Construction and [Initialize] *)

(** The constructor: [size_((CellKey)width * height)], then one vector per
    member.  A negative [size_] makes the vector constructors throw. *)
Definition new_NumberLink (width height : Z) : option NumberLink :=
  product ← int_of (to_short width * height);
  let size := to_short product in
  if size <? 0 then None
  else
    let n := Z.to_nat size in
    Some (mkNumberLink width height size []
            (replicate n 0) (replicate n 0) (replicate n 0) (replicate n 0)
            (replicate n 0) (replicate (S n) 0)
            (replicate n false) (replicate n false) (replicate n ∅) false []).

(** [for (i = lo; i < lo + n; i++) body]. *)
Fixpoint for_loop {State : Type} (n : nat) (i : Z)
    (body : Z → State → option State) (s : State) : option State :=
  match n with
  | O => Some s
  | S n' => s' ← body i s; for_loop n' (i + 1) body s'
  end.

Definition init_mates_body (cell_key : Z) (nl : NumberLink) : option NumberLink :=
  mates' ← vset (mates_ nl) cell_key cell_key;
  Some (set_mates mates' nl).

(** One turn of the [do ... while] body: step down-left along the diagonal,
    or jump to the top of the next one. *)
Definition diagonal_step (x y : Z) : Z * Z :=
  let x1 := x - 1 in
  let y1 := y + 1 in
  if x1 <? 0 then (y1, 0) else (x1, y1).

Definition out_of_board (width height x y : Z) : bool :=
  (x <? 0) || (width <=? x) || (y <? 0) || (height <=? y).

(** The [do ... while]: [None] when the fuel runs out. *)
Fixpoint next_cell (fuel : nat) (width height x y : Z) : option (Z * Z) :=
  match fuel with
  | O => None
  | S fuel' =>
      let '(x', y') := diagonal_step x y in
      if out_of_board width height x' y'
      then next_cell fuel' width height x' y'
      else Some (x', y')
  end.

Definition next_cell_fuel (width height : Z) : nat :=
  Z.to_nat ((width + height) * (width + height)).

(** The [while (true)] loop that hands out the keys. *)
Fixpoint key_loop (fuel : nat) (x y cell_key : Z) (nl : NumberLink)
  : option NumberLink :=
  match fuel with
  | O => None
  | S fuel' =>
      let position := to_short (to_short y * width_ nl + x) in
      cx ← vset (cell_x_ nl) cell_key x;
      cy ← vset (cell_y_ nl) cell_key y;
      ks ← vset (keys_ nl) position cell_key;
      let nl' := set_keys ks (set_cell_y cy (set_cell_x cx nl)) in
      let cell_key' := to_short (cell_key + 1) in
      if cell_key' =? size_ nl then Some nl'
      else
        '(x', y') ← next_cell (next_cell_fuel (width_ nl) (height_ nl))
                              (width_ nl) (height_ nl) x y;
        key_loop fuel' x' y' cell_key' nl'
  end.

Definition GetCellKey (x y : Z) (nl : NumberLink) : option Z :=
  vget (keys_ nl) (to_short y * width_ nl + x).

Definition look_back (x y : Z) (nl : NumberLink) : option Z :=
  if 0 <? y then GetCellKey x (y - 1) nl
  else if 0 <? x then GetCellKey (x - 1) y nl
  else Some 0.

Definition init_start_body (i : Z) (nl : NumberLink) : option NumberLink :=
  x ← vget (cell_x_ nl) i;
  y ← vget (cell_y_ nl) i;
  v ← look_back x y nl;
  st ← vset (start_ nl) i v;
  Some (set_start st nl).

Definition Initialize (nl : NumberLink) : option NumberLink :=
  nl1 ← for_loop (Z.to_nat (size_ nl)) 0 init_mates_body nl;
  nl2 ← key_loop (Z.to_nat (size_ nl1)) 0 0 0 nl1;
  nl3 ← for_loop (Z.to_nat (size_ nl2)) 0 init_start_body nl2;
  st ← vset (start_ nl3) (size_ nl3) (size_ nl3);
  Some (set_start st nl3).

(** [Cell(x, y) = value]: the [int] is narrowed to [CellNumber]. *)
Definition Cell_assign (x y value : Z) (nl : NumberLink) : option NumberLink :=
  k ← GetCellKey x y nl;
  t ← vset (table_ nl) k (to_char value);
  Some (set_table t nl).

(** ** [GetHash] *)

Definition xorshift_step (s : Z * Z * Z * Z) (key : Z) : Z * Z * Z * Z :=
  let '(x, y, z, w) := s in
  let t := Z.lxor x (to_uint (Z.shiftl x 11)) in
  (y, z, w,
   Z.lxor (Z.lxor w (Z.shiftr w 19))
          (to_uint (Z.lxor t (Z.shiftr t 8) + to_uint key))).

Definition xorshift_seed : Z * Z * Z * Z :=
  (123456789, 362436069, 521288629, 88675123).

Definition GetHash (cell_keys : list Z) : Hash :=
  let '(x, y, z, w) := fold_left xorshift_step cell_keys xorshift_seed in
  (wrap_signed 64 (Z.lor (Z.shiftl x 32) y),
   wrap_signed 64 (Z.lor (Z.shiftl z 32) w)).

(** ** [Print], [Solve], [Connect] *)

Definition Print (nl : NumberLink) : NumberLink :=
  set_stdout
    (stdout_ nl ++ [mkDiagram (connected_x_ nl) (connected_y_ nl) (mates_ nl)]) nl.

(** [vector<CellKey>(v.begin() + lo, v.begin() + hi)]. *)
Definition slice (v : list Z) (lo hi : Z) : option (list Z) :=
  if (0 <=? lo) && (lo <=? hi) && (hi <=? Z.of_nat (length v))
  then Some (take (Z.to_nat (hi - lo)) (drop (Z.to_nat lo) v))
  else None.

(** The test made on one newly fixed cell: [true] when [Solve] returns 0.0. *)
Definition hidden_fails (t m hidden : Z) : bool :=
  if t =? 0 then negb (m =? -1) && negb (m =? hidden)
  else m =? hidden.

(** The loop over the newly fixed cells, [n] cells from [hidden] on. *)
Fixpoint hidden_loop (n : nat) (hidden : Z) (nl : NumberLink) : option bool :=
  match n with
  | O => Some false
  | S n' =>
      t ← vget (table_ nl) hidden;
      m ← vget (mates_ nl) hidden;
      if hidden_fails t m hidden then Some true
      else hidden_loop n' (hidden + 1) nl
  end.

Definition newly_fixed_fail (cell_key : Z) (nl : NumberLink) : option bool :=
  if 0 <? cell_key then
    lo ← vget (start_ nl) (cell_key - 1);
    hi ← vget (start_ nl) cell_key;
    hidden_loop (Z.to_nat (hi - lo)) lo nl
  else Some false.

Definition mark_connected_y (cell_key : Z) (b : bool) (nl : NumberLink)
  : option NumberLink :=
  v ← vset (connected_y_ nl) cell_key b; Some (set_connected_y v nl).

Definition mark_connected_x (cell_key : Z) (b : bool) (nl : NumberLink)
  : option NumberLink :=
  v ← vset (connected_x_ nl) cell_key b; Some (set_connected_x v nl).

(** The block [Connect] holds twice: join the cell with the upper cell and,
    if that is allowed, count what follows with the link drawn. *)
Definition Connect_upper (Solve_rec : Z → NumberLink → option (Z * NumberLink))
    (cell_key up_cell_key : Z) (nl : NumberLink) : option (Z * NumberLink) :=
  '(ok, nl) ← UniteMates cell_key up_cell_key nl;
  if ok : bool then
    nl ← mark_connected_y cell_key true nl;
    '(c, nl) ← Solve_rec (to_short (cell_key + 1)) nl;
    nl ← mark_connected_y cell_key false nl;
    Some (c, nl)
  else Some (0, nl).

(** [Connect], with the recursive call to [Solve] passed in. *)
Definition Connect (Solve_rec : Z → NumberLink → option (Z * NumberLink))
    (cell_key : Z) (nl : NumberLink) : option (Z * NumberLink) :=
  x ← vget (cell_x_ nl) cell_key;
  y ← vget (cell_y_ nl) cell_key;
  left_cell_key ← (if 0 <? x then GetCellKey (x - 1) y nl else Some (-1));
  up_cell_key ← (if 0 <? y then GetCellKey x (y - 1) nl else Some (-1));
  let revert_point := length (mate_stack_ nl) in
  (* Connect the cell with nothing *)
  '(c0, nl) ← Solve_rec (to_short (cell_key + 1)) nl;
  (* Connect the cell with the upper cell *)
  '(c1, nl) ←
    (if 0 <=? up_cell_key then
       '(c, nl) ← Connect_upper Solve_rec cell_key up_cell_key nl;
       nl ← RevertMates revert_point nl;
       Some (c, nl)
     else Some (0, nl));
  (* Connect the cell with the left cell *)
  '(c2, nl) ←
    (if 0 <=? left_cell_key then
       '(ok, nl) ← UniteMates cell_key left_cell_key nl;
       '(c, nl) ←
         (if ok : bool then
            nl ← mark_connected_x cell_key true nl;
            '(c, nl) ← Solve_rec (to_short (cell_key + 1)) nl;
            (* Connect the cell with the upper and the left cells *)
            '(c', nl) ←
              (if 0 <=? up_cell_key
               then Connect_upper Solve_rec cell_key up_cell_key nl
               else Some (0, nl));
            nl ← mark_connected_x cell_key false nl;
            Some (c + c', nl)
          else Some (0, nl));
       nl ← RevertMates revert_point nl;
       Some (c, nl)
     else Some (0, nl));
  Some (c0 + c1 + c2, nl).

(** The slice of [mates_] whose hash is the memo key at [cell_key]. *)
Definition mate_tuple (cell_key : Z) (nl : NumberLink) : option (list Z) :=
  lo ← vget (start_ nl) cell_key;
  slice (mates_ nl) lo cell_key.

Definition memo_store (cell_key : Z) (h : Hash) (c : Z) (nl : NumberLink)
  : option NumberLink :=
  m ← vget (memo_ nl) cell_key;
  mm ← vset (memo_ nl) cell_key (<[h := c]> m);
  Some (set_memo mm nl).

(** What [Solve] does once the newly fixed cells have passed: the last index
    counts one solution, any other index goes through the memo. *)
Definition Solve_tail (Solve_rec : Z → NumberLink → option (Z * NumberLink))
    (cell_key : Z) (nl : NumberLink) : option (Z * NumberLink) :=
  if cell_key =? size_ nl then
    Some (1, if solved_ nl then nl else set_solved true (Print nl))
  else
    tuple ← mate_tuple cell_key nl;
    let mate_hash := GetHash tuple in
    m ← vget (memo_ nl) cell_key;
    match m !! mate_hash with
    | Some c => Some (c, nl)
    | None =>
        '(c, nl') ← Connect Solve_rec cell_key nl;
        nl'' ← memo_store cell_key mate_hash c nl';
        Some (c, nl'')
    end.

(** [Solve]; the fuel bounds the depth of the recursion, which the code
    bounds by [size_ - cell_key + 1]. *)
Fixpoint Solve (fuel : nat) (cell_key : Z) (nl : NumberLink)
  : option (Z * NumberLink) :=
  match fuel with
  | O => None
  | S fuel' =>
      let nl := if cell_key =? 0 then set_solved false nl else nl in
      dead ← newly_fixed_fail cell_key nl;
      if dead : bool then Some (0, nl)
      else Solve_tail (Solve fuel') cell_key nl
  end.

(** ** One dataset of [main] *)

(** [scanf("%d", &value); nl.Cell(x, y) = value;] over the rows. *)
Definition read_cell (y x : Z) (s : list Z * NumberLink)
  : option (list Z * NumberLink) :=
  match fst s with
  | [] => None
  | value :: rest => nl ← Cell_assign x y value (snd s); Some (rest, nl)
  end.

Definition read_row (y : Z) (s : list Z * NumberLink)
  : option (list Z * NumberLink) :=
  for_loop (Z.to_nat (width_ (snd s))) 0 (read_cell y) s.

Definition read_table (input : list Z) (nl : NumberLink)
  : option (list Z * NumberLink) :=
  for_loop (Z.to_nat (height_ nl)) 0 read_row (input, nl).

Inductive dataset_result :=
| InputEnds
| Solved (solution_count : Z) (nl : NumberLink) (rest : list Z).

Definition Solve_fuel (nl : NumberLink) : nat := S (Z.to_nat (size_ nl)).

(** The body of the [while] of [main] once [width] and [height] are read:
    the guard [width && height], then one board. *)
Definition dataset (width height : Z) (input : list Z) : option dataset_result :=
  if (width =? 0) || (height =? 0) then Some InputEnds
  else
    nl ← new_NumberLink width height;
    nl ← Initialize nl;
    '(rest, nl) ← read_table input nl;
    '(c, nl) ← Solve (Solve_fuel nl) 0 nl;
    Some (Solved c nl rest).

(** ** Vocabulary of the properties *)

(** The label written in a cell, 0 where there is no such cell. *)
Definition label (nl : NumberLink) (cell_key : Z) : Z :=
  default 0 (vget (table_ nl) cell_key).
Arguments label : simpl never.

(** The "other key" relation is symmetric: whatever a cell that is not
    closed points at points back at it. *)
Definition symmetric (mates : list Z) : Prop :=
  ∀ c v, vget mates c = Some v → v ≠ -1 → vget mates v = Some c.

Definition symmetricb (mates : list Z) : bool :=
  forallb (λ c : nat,
     match mates !! c with
     | Some v =>
         (v =? -1) ||
         match vget mates v with
         | Some c' => c' =? Z.of_nat c
         | None => false
         end
     | None => true
     end) (seq 0 (length mates)).

(** A run of [UniteMates] calls whose results are ignored. *)
Fixpoint unite_all (ops : list (Z * Z)) (nl : NumberLink) : option NumberLink :=
  match ops with
  | [] => Some nl
  | (a, b) :: rest => '(_, nl') ← UniteMates a b nl; unite_all rest nl'
  end.

(** Replaying log entries, top first, on an array. *)
Definition undo (pushed : list (Z * Z)) (mates : list Z) : list Z :=
  foldl (λ m e, <[Z.to_nat (fst e) := snd e]> m) mates pushed.

(** [nl'] is [nl] after some logged writes to the mates: the log of [nl']
    is the log of [nl] with [pushed] on top, the writes are undone by
    replaying [pushed], and no other member differs. *)
Definition logged_from (nl nl' : NumberLink) (pushed : list (Z * Z)) : Prop :=
  mate_stack_ nl' = pushed ++ mate_stack_ nl ∧
  undo pushed (mates_ nl') = mates_ nl ∧
  length (mates_ nl') = length (mates_ nl) ∧
  Forall (λ e, 0 <= fst e < Z.of_nat (length (mates_ nl))) pushed ∧
  nl' = set_mates (mates_ nl') (set_mate_stack (mate_stack_ nl') nl).

(** The mates after the four writes of a [UniteMates] call that gets past
    its two early returns. *)
Definition united_mates (a b end1 end2 : Z) (mates : list Z) : list Z :=
  <[Z.to_nat end2 := end1]>
    (<[Z.to_nat end1 := end2]>
       (<[Z.to_nat b := -1]> (<[Z.to_nat a := -1]> mates))).

(** The three constraints checked after the writes. *)
Definition unite_verdict (a b end1 end2 : Z) (nl : NumberLink) : bool :=
  negb ((default 0 (vget (mates_ nl) a) =? -1) && (0 <? label nl a)) &&
  negb ((default 0 (vget (mates_ nl) b) =? -1) && (0 <? label nl b)) &&
  negb ((0 <? label nl end1) && (0 <? label nl end2) &&
        negb (label nl end1 =? label nl end2)).

(** A state to try the connectivity lemmas on: the 3x1 board [1 0 1] after
    [Initialize] and the reading of the row, with the first two cells joined. *)
Definition row_1_0_1 : NumberLink :=
  mkNumberLink 3 1 3 [] [0; 1; 2] [0; 0; 0] [1; 0; 1] [0; 1; 2] [0; 1; 2]
    [0; 0; 1; 3] [false; false; false] [false; false; false] [∅; ∅; ∅] false [].

Definition row_1_0_1_joined : NumberLink :=
  set_mate_stack [(0, -1); (1, -1); (0, 0); (1, 1)]
    (set_mates [1; 0; 2] row_1_0_1).



(** A newly fixed cell that makes [Solve] give up: blank with exactly one
    line end, or numbered with no line. *)
Definition retire_violation (nl : NumberLink) (h : Z) : Prop :=
  ∃ t m, vget (table_ nl) h = Some t ∧ vget (mates_ nl) h = Some m ∧
         ((t = 0 ∧ m ≠ h ∧ m ≠ -1) ∨ (t ≠ 0 ∧ m = h)).

(** The slice the memo key would be taken from if it began at the look-back
    key of the previous index. *)
Definition predecessor_tuple (cell_key : Z) (nl : NumberLink) : option (list Z) :=
  lo ← vget (start_ nl) (cell_key - 1);
  slice (mates_ nl) lo cell_key.

(** The blank 2x2 board after [Initialize]. *)
Definition blank_2x2 : NumberLink :=
  mkNumberLink 2 2 4 [] [0; 1; 0; 1] [0; 0; 1; 1] [0; 0; 0; 0] [0; 1; 2; 3]
    [0; 1; 2; 3] [0; 0; 0; 1; 4] [false; false; false; false]
    [false; false; false; false] [∅; ∅; ∅; ∅] false [].

(** The cell (x, y) lies on the board. *)
Definition on_board (width height x y : Z) : Prop :=
  0 <= x < width ∧ 0 <= y < height.

(** The order of the diagonals: an earlier diagonal, or the same diagonal
    and a larger x. *)
Definition diag_lt (x1 y1 x2 y2 : Z) : Prop :=
  x1 + y1 < x2 + y2 ∨ (x1 + y1 = x2 + y2 ∧ x2 < x1).

(** Twice the rank of (x, y) when the whole quadrant is walked diagonal by
    diagonal; it measures how far [next_cell] has to go. *)
Definition diag_rank2 (x y : Z) : Z := (x + y) * (x + y + 1) + 2 * y.

(** The cell with key [j] is (x, y). *)
Definition cell_at (cx cy : list Z) (j x y : Z) : Prop :=
  vget cx j = Some x ∧ vget cy j = Some y.

(** The keys below [i] are handed out: each belongs to a cell of the board,
    the table of keys maps the cell back to it, and the cells come in the
    order of the diagonals. *)
Record keyed (width height : Z) (cx cy ks : list Z) (i : Z) : Prop := {
  keyed_cells : ∀ j, 0 <= j < i →
    ∃ x y, cell_at cx cy j x y ∧ on_board width height x y ∧
           vget ks (y * width + x) = Some j;
  keyed_mono : ∀ j j' x y x' y', 0 <= j < j' → j' < i →
    cell_at cx cy j x y → cell_at cx cy j' x' y' → diag_lt x y x' y'
}.

(** What [Initialize] establishes about the members that never change
    afterwards, for a board of [width] by [height] cells that fits the key
    type. *)
Record indexed (width height : Z) (nl : NumberLink) : Prop := {
  ix_width : width_ nl = width;
  ix_height : height_ nl = height;
  ix_size : size_ nl = width * height;
  ix_width_pos : 0 < width;
  ix_height_pos : 0 < height;
  ix_fits : width * height <= 32767;
  ix_len_x : length (cell_x_ nl) = Z.to_nat (width * height);
  ix_len_y : length (cell_y_ nl) = Z.to_nat (width * height);
  ix_len_keys : length (keys_ nl) = Z.to_nat (width * height);
  ix_len_start : length (start_ nl) = S (Z.to_nat (width * height));
  ix_keyed : keyed width height (cell_x_ nl) (cell_y_ nl) (keys_ nl)
                   (width * height);
  ix_all : ∀ u v, on_board width height u v →
     ∃ j, 0 <= j < width * height ∧ cell_at (cell_x_ nl) (cell_y_ nl) j u v;
  ix_start : ∀ k x y, 0 <= k < width * height →
     cell_at (cell_x_ nl) (cell_y_ nl) k x y →
     vget (start_ nl) k = look_back x y nl;
  ix_start_end : vget (start_ nl) (width * height) = Some (width * height)
}.

(** The members the search works on, as [Initialize] leaves them. *)
Record fresh (nl : NumberLink) : Prop := {
  fresh_mates : ∀ c, 0 <= c < size_ nl → vget (mates_ nl) c = Some c;
  fresh_len_mates : length (mates_ nl) = Z.to_nat (size_ nl);
  fresh_stack : mate_stack_ nl = [];
  fresh_len_table : length (table_ nl) = Z.to_nat (size_ nl);
  fresh_len_cx : length (connected_x_ nl) = Z.to_nat (size_ nl);
  fresh_len_cy : length (connected_y_ nl) = Z.to_nat (size_ nl);
  fresh_memo : memo_ nl = replicate (Z.to_nat (size_ nl)) ∅
}.

(** The states the search can be in, with the checkpoints it may still roll
    back to: the state after the board is read; a checkpoint taken (the
    height of the undo log is remembered); a [UniteMates] call on two keys of
    the board, whatever it returns; a [RevertMates] to a remembered height,
    which forgets the heights above it. *)
Inductive reachable : list nat → NumberLink → Prop :=
| reach_start width height nl0 nl1 input rest nl :
    new_NumberLink width height = Some nl0 →
    Initialize nl0 = Some nl1 →
    read_table input nl1 = Some (rest, nl) →
    reachable [] nl
| reach_checkpoint marks nl :
    reachable marks nl →
    reachable (length (mate_stack_ nl) :: marks) nl
| reach_connect marks nl a b r nl' :
    reachable marks nl →
    0 <= a < size_ nl → 0 <= b < size_ nl →
    UniteMates a b nl = Some (r, nl') →
    reachable marks nl'
| reach_rollback marks nl mark nl' :
    reachable marks nl →
    mark ∈ marks →
    RevertMates mark nl = Some nl' →
    reachable (filter (λ m, (m <= mark)%nat) marks) nl'.

(** The members [UniteMates] and [RevertMates] work on. *)
Definition search_part (nl : NumberLink) : Z * list (Z * Z) * list Z * list Z :=
  (size_ nl, mate_stack_ nl, table_ nl, mates_ nl).

(** What every state of the search satisfies. *)
Definition good (nl : NumberLink) : Prop :=
  symmetric (mates_ nl) ∧
  length (table_ nl) = length (mates_ nl) ∧
  size_ nl = Z.of_nat (length (mates_ nl)).

(** [nl'] is the same board as [nl]: the members that [Solve] only reads
    are equal, and the tables it writes keep their sizes. *)
Definition same_board (nl nl' : NumberLink) : Prop :=
  width_ nl' = width_ nl ∧ height_ nl' = height_ nl ∧ size_ nl' = size_ nl ∧
  cell_x_ nl' = cell_x_ nl ∧ cell_y_ nl' = cell_y_ nl ∧
  table_ nl' = table_ nl ∧ keys_ nl' = keys_ nl ∧ start_ nl' = start_ nl ∧
  length (connected_x_ nl') = length (connected_x_ nl) ∧
  length (connected_y_ nl') = length (connected_y_ nl) ∧
  length (memo_ nl') = length (memo_ nl).

(** Every count the memo holds is 0. *)
Definition memo_zero (nl : NumberLink) : Prop :=
  ∀ k m h c, vget (memo_ nl) k = Some m → m !! h = Some c → c = 0.

(** The mates during the search of the board [B], when the cells from
    [untouched] on have not been reached and the cells below [retired] have
    passed the check of the newly fixed cells: the relation is symmetric;
    unreached cells are self; a numbered cell is never closed; two numbered
    cells that are the two ends of a chain carry the same number; a retired
    cell still passes the check. *)
Record mates_inv (B : NumberLink) (untouched retired : Z) (nl : NumberLink)
  : Prop := {
  mi_board : same_board B nl;
  mi_length : length (mates_ nl) = Z.to_nat (size_ B);
  mi_symmetric : symmetric (mates_ nl);
  mi_untouched : ∀ c, untouched <= c < size_ B → vget (mates_ nl) c = Some c;
  mi_open : ∀ c, 0 < label B c → vget (mates_ nl) c ≠ Some (-1);
  mi_same_label : ∀ c e, vget (mates_ nl) c = Some e → e ≠ -1 →
                         0 < label B c → 0 < label B e → label B c = label B e;
  mi_retired : ∀ h, 0 <= h < retired → ¬ retire_violation nl h
}.

(** The cells below this key have passed the check of the newly fixed cells
    when [Solve] is entered at [cell_key]. *)
Definition retired_bound (B : NumberLink) (cell_key : Z) : Z :=
  if cell_key =? 0 then 0 else default 0 (vget (start_ B) (cell_key - 1)).

(** The keys of the cells that carry the number [v]. *)
Definition cells_with (B : NumberLink) (v : Z) : list Z :=
  filter (λ k, label B k = v) (seqZ 0 (size_ B)).

(** The undo log of [nl] is [p] on top of [S], and replaying [p] on the
    mates of [nl] gives [M]. *)
Definition pending (nl : NumberLink) (S : list (Z * Z)) (M : list Z)
    (p : list (Z * Z)) : Prop :=
  mate_stack_ nl = p ++ S ∧ undo p (mates_ nl) = M ∧
  length (mates_ nl) = length M ∧
  Forall (λ e, 0 <= fst e < Z.of_nat (length M)) p.

(** A board ready to be searched: indexed, with its numbers read. *)
Record board_ready (width height : Z) (B : NumberLink) : Prop := {
  br_indexed : indexed width height B;
  br_table_len : length (table_ B) = Z.to_nat (size_ B);
  br_cx_len : length (connected_x_ B) = Z.to_nat (size_ B);
  br_cy_len : length (connected_y_ B) = Z.to_nat (size_ B);
  br_memo_len : length (memo_ B) = Z.to_nat (size_ B)
}.

(** A call of [Solve] or [Connect] on [nl] that returns the count 0, with
    the mates and the undo log as they were, on the same board, and with a
    memo that still holds only zeros. *)
Definition returns_zero (nl : NumberLink) (r : option (Z * NumberLink)) : Prop :=
  ∃ nl', r = Some (0, nl') ∧
         mates_ nl' = mates_ nl ∧ mate_stack_ nl' = mate_stack_ nl ∧
         same_board nl nl' ∧ memo_zero nl'.

(** The state of the reading after [cnt] numbers. *)
Definition read_upto (width height : Z) (input : list Z) (nl1 : NumberLink)
    (cnt : Z) (s : list Z * NumberLink) : Prop :=
  fst s = drop (Z.to_nat cnt) input ∧
  snd s = set_table (table_ (snd s)) nl1 ∧
  length (table_ (snd s)) = Z.to_nat (width * height) ∧
  ∀ k x y, 0 <= k < width * height →
           cell_at (cell_x_ nl1) (cell_y_ nl1) k x y →
           y * width + x < cnt →
           vget (table_ (snd s)) k =
             Some (to_char (default 0 (vget input (y * width + x)))).

(** The position, in the order of the input, of the cell with key [k]. *)
Definition position_of (B : NumberLink) (k : Z) : Z :=
  default 0 (vget (cell_y_ B) k) * width_ B + default 0 (vget (cell_x_ B) k).

(** The key of the cell at a position of the input. *)
Definition key_at (B : NumberLink) (p : Z) : Z :=
  default 0 (vget (keys_ B) p).

(** Every count the memo holds is a count of solutions: it is not negative,
    and it is above 0 only once a solution has been printed. *)
Definition memo_counts (nl : NumberLink) : Prop :=
  ∀ k m h c, vget (memo_ nl) k = Some m → m !! h = Some c →
             0 <= c ∧ (0 < c → solved_ nl = true).

(** The mates of a finished board [B]: a blank cell is closed or unused; a
    numbered cell is the end of a line whose other end carries the same
    number. *)
Definition complete (B : NumberLink) (mates : list Z) : Prop :=
  ∀ c, 0 <= c < size_ B →
    ∃ e, vget mates c = Some e ∧
         (label B c = 0 → e = -1 ∨ e = c) ∧
         (label B c ≠ 0 → e ≠ -1 ∧ e ≠ c ∧ label B e = label B c ∧
                          vget mates e = Some c).

(** The mates of a state of the search on [B] in which every cell has passed
    the check of the newly fixed cells. *)
Definition checked (B : NumberLink) (mates : list Z) : Prop :=
  ∃ nl, mates_inv B (size_ B) (size_ B) nl ∧ mates_ nl = mates.

(** A diagram drawn once every cell of [B] has passed the check, with tables
    of the size of the board. *)
Definition finished (B : NumberLink) (d : Diagram) : Prop :=
  checked B (diagram_mates d) ∧
  length (diagram_mates d) = Z.to_nat (size_ B) ∧
  length (diagram_connected_x d) = Z.to_nat (size_ B) ∧
  length (diagram_connected_y d) = Z.to_nat (size_ B).

(** What a part of the search that returns the count [c] does to the flag
    [solved_] and to the output: the flag is raised exactly when a solution
    is counted, and one diagram, of a finished board, is printed when the
    flag goes up. *)
Definition counted (B nl : NumberLink) (c : Z) (nl' : NumberLink) : Prop :=
  0 <= c ∧ solved_ nl' = solved_ nl || (0 <? c) ∧
  ∃ printed, stdout_ nl' = stdout_ nl ++ printed ∧
    if solved_ nl || (c =? 0) then printed = []
    else ∃ d, printed = [d] ∧ finished B d.

(** No link is drawn at the keys from [k] on. *)
Definition clear_from (v : list bool) (k : Z) : Prop :=
  ∀ j, k <= j < Z.of_nat (length v) → vget v j = Some false.

Definition same_links (nl nl' : NumberLink) : Prop :=
  connected_x_ nl' = connected_x_ nl ∧ connected_y_ nl' = connected_y_ nl.

(** A call of [Solve] or [Connect] on [nl] that returns a count, with the
    mates, the undo log and the links as they were. *)
Definition returns_count (B nl : NumberLink) (r : option (Z * NumberLink))
  : Prop :=
  ∃ c nl', r = Some (c, nl') ∧
    mates_ nl' = mates_ nl ∧ mate_stack_ nl' = mate_stack_ nl ∧
    same_board nl nl' ∧ same_links nl nl' ∧ memo_counts nl' ∧
    counted B nl c nl'.

(** The look-back key of [k], 0 where the table has none. *)
Definition start_of (nl : NumberLink) (k : Z) : Z :=
  default 0 (vget (start_ nl) k).

(** The cell with key [h] is among the newly fixed cells that [Solve] checks
    at the index [k]. *)
Definition newly_fixed_at (nl : NumberLink) (k h : Z) : Prop :=
  0 < k <= size_ nl ∧ start_of nl (k - 1) <= h < start_of nl k.

(** The word [xorshift_step] appends to the state, from the word [x] that
    leaves the state, the last word [w] and the key. *)
Definition xorshift_word (x w key : Z) : Z :=
  let t := Z.lxor x (to_uint (Z.shiftl x 11)) in
  Z.lxor (Z.lxor w (Z.shiftr w 19))
         (to_uint (Z.lxor t (Z.shiftr t 8) + to_uint key)).

(** A value of an [unsigned int]. *)
Definition is_uint (n : Z) : Prop := 0 <= n < 2 ^ 32.

(** A value of a [CellKey]. *)
Definition is_short (n : Z) : Prop := -32768 <= n <= 32767.

(** ** [ParseArguments] *)

(** [flag[0] == '-' && flag[1] == '-'], on a C string given by its
    characters before the terminating zero. *)
Definition is_flag (flag : string) : bool :=
  match flag with
  | String "-"%char (String "-"%char _) => true
  | _ => false
  end.

(** The characters before the first '=': what [key] points at once
    [strstr] has found the '=' and [*value = 0] has cut the string there,
    and the whole string when there is none. *)
Fixpoint before_equals (key : string) : string :=
  match key with
  | EmptyString => EmptyString
  | String c rest =>
      if Ascii.eqb c "="%char then EmptyString else String c (before_equals rest)
  end.

(** [key = flag + 2], cut at the first '='. *)
Definition flag_key (flag : string) : string :=
  match flag with
  | String _ (String _ key) => before_equals key
  | _ => EmptyString
  end.

(** One turn of the loop over [argv]; the state is [arg_pos], the array and
    [FLAGS_color].  The cut made in a flag shows in the array, which holds
    the pointer to it. *)
Definition parse_body (i : Z) (s : Z * list string * bool)
  : option (Z * list string * bool) :=
  let '(arg_pos, argv, FLAGS_color) := s in
  flag ← vget argv i;
  if is_flag flag then
    let key := flag_key flag in
    argv ← vset argv i (String "-"%char (String "-"%char key));
    Some (arg_pos, argv, FLAGS_color || String.eqb key "color"%string)
  else
    argv ← vset argv arg_pos flag;
    Some (arg_pos + 1, argv, FLAGS_color).

(** [ParseArguments(&argc, argv)]: the new [argc], the array and
    [FLAGS_color] afterwards. *)
Definition ParseArguments (argc : Z) (argv : list string) (FLAGS_color : bool)
  : option (Z * list string * bool) :=
  for_loop (Z.to_nat (argc - 1)) 1 parse_body (1, argv, FLAGS_color).

(** An argument that asks for colour: a flag whose key is [color]. *)
Definition color_flag (flag : string) : bool :=
  is_flag flag && String.eqb (flag_key flag) "color"%string.

(** The arguments after the program name. *)
Definition arguments (argc : Z) (argv : list string) : list string :=
  drop 1 (take (Z.to_nat argc) argv).

(** ** [main] *)

(** The loop of [main] over the datasets.  For each one it writes what
    [Solve] printed and then the count; the loop ends when [scanf] does not
    find two numbers or one of them is 0.  Every turn takes at least two
    numbers off the input, which bounds the fuel. *)
Fixpoint main_loop (fuel : nat) (input : list Z)
  : option (list (list Diagram * Z)) :=
  match fuel with
  | O => None
  | S fuel' =>
      match input with
      | width :: height :: rest =>
          r ← dataset width height rest;
          match r with
          | InputEnds => Some []
          | Solved solution_count nl rest' =>
              outs ← main_loop fuel' rest';
              Some ((stdout_ nl, solution_count) :: outs)
          end
      | _ => Some []
      end
  end.

(** [main]: the colour flag after [ParseArguments], and what is written
    for each dataset. *)
Definition main (argc : Z) (argv : list string) (input : list Z)
  : option (bool * list (list Diagram * Z)) :=
  '(_, _, FLAGS_color) ← ParseArguments argc argv false;
  outs ← main_loop (S (length input)) input;
  Some (FLAGS_color, outs).

(** A board as it stands in the input: width, height, then the numbers of
    the cells row by row. *)
Definition board_input (b : Z * Z * list Z) : list Z := b.1.1 :: b.1.2 :: b.2.

(** A board the types can hold, with as many numbers as it has cells. *)
Definition valid_board (b : Z * Z * list Z) : Prop :=
  0 < b.1.1 ∧ 0 < b.1.2 ∧ b.1.1 * b.1.2 <= 32767 ∧
  Z.of_nat (length b.2) = b.1.1 * b.1.2 ∧
  Forall (λ t, 0 <= t <= 127) b.2.

(** What is written for a board given alone. *)
Definition board_output (b : Z * Z * list Z) : list Diagram * Z :=
  match dataset b.1.1 b.1.2 b.2 with
  | Some (Solved c nl _) => (stdout_ nl, c)
  | _ => ([], 0)
  end.

(** An input on which the loop of [main] stops at once. *)
Definition ends_input (stop : list Z) : Prop :=
  match stop with
  | width :: height :: _ => width = 0 ∨ height = 0
  | _ => True
  end.

(** ** The text of [Print] *)

(** A piece of the frame: wrapped in the escape sequences for green when
    [FLAGS_color] is on. *)
Definition green (FLAGS_color : bool) (s : string) : string :=
  if FLAGS_color
  then String (ascii_of_nat 27) "[32m" +:+ s +:+ String (ascii_of_nat 27) "[0m"
  else s.

Definition digit_char (d : Z) : ascii := ascii_of_nat (48 + Z.to_nat d).

(** The decimal digits of a number that is not negative, put before [acc];
    the fuel is the number of digits an [int] can have. *)
Fixpoint decimal (fuel : nat) (n : Z) (acc : string) : string :=
  match fuel with
  | O => acc
  | S fuel' =>
      let acc := String (digit_char (n mod 10)) acc in
      if n / 10 =? 0 then acc else decimal fuel' (n / 10) acc
  end.

Fixpoint zeros (k : nat) : string :=
  match k with
  | O => EmptyString
  | S k' => String "0"%char (zeros k')
  end.

(** [printf("%03d", n)]: the sign if there is one, then zeros up to the
    width 3, then the digits. *)
Definition format_03d (n : Z) : string :=
  let digits := decimal 10 (Z.abs n) EmptyString in
  let sign := if n <? 0 then "-" else EmptyString in
  sign +:+ zeros (3 - String.length sign - String.length digits) +:+ digits.

(** The two [printf] of the first inner loop, on the line written so far. *)
Definition print_border_cell (FLAGS_color : bool) (nl : NumberLink) (y x : Z)
    (line : string) : option string :=
  remainder ← (if height_ nl =? 0 then None else Some (Z.rem y (height_ nl)));
  link ← (if remainder =? 0 then Some (green FLAGS_color "---")
          else k ← GetCellKey x y nl;
               c ← vget (connected_y_ nl) k;
               Some (if c : bool then " # " else "   "));
  Some (line +:+ green FLAGS_color "+" +:+ link).

(** The [printf] of the second inner loop. *)
Definition print_cell (FLAGS_color : bool) (nl : NumberLink) (y x : Z)
    (line : string) : option string :=
  k ← GetCellKey x y nl;
  left ← (if x =? 0 then Some (green FLAGS_color "|")
          else c ← vget (connected_x_ nl) k;
               Some (if c : bool then "#" else " "));
  t ← vget (table_ nl) k;
  body ← (if t =? 0 then
            c ← vget (connected_x_ nl) k;
            m ← vget (mates_ nl) k;
            r ← (if x + 1 <? width_ nl
                 then k' ← GetCellKey (x + 1) y nl; vget (connected_x_ nl) k'
                 else Some false);
            Some ((if c : bool then "#" else " ") +:+
                  (if m =? k then " " else "#") +:+
                  (if r : bool then "#" else " "))
          else Some (format_03d t));
  Some (line +:+ left +:+ body).

(** One turn of the outer loop, on the lines written so far. *)
Definition print_row (FLAGS_color : bool) (nl : NumberLink) (y : Z)
    (lines : list string) : option (list string) :=
  border ← for_loop (Z.to_nat (width_ nl)) 0
              (print_border_cell FLAGS_color nl y) EmptyString;
  let lines := lines ++ [border +:+ green FLAGS_color "+"] in
  if height_ nl <=? y then Some lines
  else
    row ← for_loop (Z.to_nat (width_ nl)) 0 (print_cell FLAGS_color nl y) EmptyString;
    Some (lines ++ [row +:+ green FLAGS_color "|"]).

(** The lines [Print] writes. *)
Definition Print_text (FLAGS_color : bool) (nl : NumberLink)
  : option (list string) :=
  for_loop (Z.to_nat (height_ nl + 1)) 0 (print_row FLAGS_color nl) [].

(** The state [Print] draws a recorded diagram from. *)
Definition shown (d : Diagram) (nl : NumberLink) : NumberLink :=
  set_connected_x (diagram_connected_x d)
    (set_connected_y (diagram_connected_y d) (set_mates (diagram_mates d) nl)).

(** ** The search without the memo *)

(** [Solve] with the memo taken out: every index is searched again each
    time it is reached. *)
Fixpoint Solve_plain (fuel : nat) (cell_key : Z) (nl : NumberLink)
  : option (Z * NumberLink) :=
  match fuel with
  | O => None
  | S fuel' =>
      let nl := if cell_key =? 0 then set_solved false nl else nl in
      dead ← newly_fixed_fail cell_key nl;
      if dead : bool then Some (0, nl)
      else if cell_key =? size_ nl then
        Some (1, if solved_ nl then nl else set_solved true (Print nl))
      else Connect (Solve_plain fuel') cell_key nl
  end.

(** One dataset of [main], searched without the memo. *)
Definition dataset_plain (width height : Z) (input : list Z)
  : option dataset_result :=
  if (width =? 0) || (height =? 0) then Some InputEnds
  else
    nl ← new_NumberLink width height;
    nl ← Initialize nl;
    '(rest, nl) ← read_table input nl;
    '(c, nl) ← Solve_plain (Solve_fuel nl) 0 nl;
    Some (Solved c nl rest).

(** Two states have the same mates from the key [s] on. *)
Definition agree (s : Z) (nl1 nl2 : NumberLink) : Prop :=
  ∀ c, s <= c → vget (mates_ nl1) c = vget (mates_ nl2) c.

(** A call that leaves the mates, the undo log and the board as found. *)
Definition stays (nl nl' : NumberLink) : Prop :=
  mates_ nl' = mates_ nl ∧ mate_stack_ nl' = mate_stack_ nl ∧ same_board nl nl'.

(** Two searches of the indices after [k] that return the same count on
    states that agree from [s] on, the first one keeping [Q] of its memo. *)
Definition rec_pair (B : NumberLink) (k s : Z)
    (Q : list (gmap Hash Z) → Prop)
    (Srec1 Srec2 : Z → NumberLink → option (Z * NumberLink)) : Prop :=
  ∀ nl1 nl2,
    mates_inv B (k + 1) s nl1 → mates_inv B (k + 1) s nl2 →
    agree s nl1 nl2 → Q (memo_ nl1) →
    ∃ c nl1' nl2',
      Srec1 (to_short (k + 1)) nl1 = Some (c, nl1') ∧
      Srec2 (to_short (k + 1)) nl2 = Some (c, nl2') ∧
      stays nl1 nl1' ∧ stays nl2 nl2' ∧ Q (memo_ nl1').

(** Every count the memo holds at an index is the count the search without
    the memo returns from that index, in any state whose slice of mates has
    the hash the count is stored under. *)
Definition memo_sound (B : NumberLink) (memo : list (gmap Hash Z)) : Prop :=
  ∀ k m h c, vget memo k = Some m → m !! h = Some c →
    ∀ nl s tuple,
      0 <= k < size_ B → vget (start_ B) k = Some s →
      mates_inv B k s nl →
      slice (mates_ nl) s k = Some tuple → GetHash tuple = h →
      ∃ nl', Connect (Solve_plain (Z.to_nat (size_ B - k))) k nl = Some (c, nl').

(** * Properties *)

Example dataset_1x1_blank :
  (λ r, match r with Some (Solved c _ _) => Some c | _ => None end)
    (dataset 1 1 [0]) = Some 1.
Proof. vm_compute. reflexivity. Qed.


Example dataset_1x1_lone_label :
  (λ r, match r with Some (Solved c _ _) => Some c | _ => None end)
    (dataset 1 1 [5]) = Some 0.
Proof. vm_compute. reflexivity. Qed.

Example dataset_4x3 :
  (λ r, match r with Some (Solved c _ _) => Some c | _ => None end)
    (dataset 4 3 [1;0;0;2; 0;3;1;0; 3;2;0;0]) = Some 1.
Proof. vm_compute. reflexivity. Qed.

(** ** Vectors *)

Section Vectors.
Context {A : Type}.
Implicit Types (v : list A) (i j : Z) (a : A).

Lemma vget_Some v i a :
  vget v i = Some a ↔ 0 <= i ∧ v !! Z.to_nat i = Some a.
Proof.
  unfold vget. destruct (Z.leb_spec 0 i).
  - split; [done | intros [_ H']; done].
  - split; [done | intros [? _]; lia].
Qed.

Lemma vget_range v i a : vget v i = Some a → 0 <= i < Z.of_nat (length v).
Proof.
  intros [H0 H]%vget_Some. apply lookup_lt_Some in H. lia.
Qed.

Lemma vget_is_Some v i : 0 <= i < Z.of_nat (length v) → is_Some (vget v i).
Proof.
  intros H. unfold vget. destruct (Z.leb_spec 0 i); [|lia].
  apply lookup_lt_is_Some. lia.
Qed.

Lemma vget_None v i : ¬ (0 <= i < Z.of_nat (length v)) → vget v i = None.
Proof.
  intros H. destruct (vget v i) eqn:E; [|done].
  apply vget_range in E. lia.
Qed.

Lemma vset_Some v i a v' :
  vset v i a = Some v' ↔
  0 <= i < Z.of_nat (length v) ∧ v' = <[Z.to_nat i := a]> v.
Proof.
  unfold vset.
  destruct (Z.leb_spec 0 i), (Z.ltb_spec i (Z.of_nat (length v))); simpl.
  - split; [intros [= <-]; split; [lia|done] | intros [_ ->]; done].
  - split; [done | intros [? _]; lia].
  - split; [done | intros [? _]; lia].
  - split; [done | intros [? _]; lia].
Qed.

Lemma vset_is_Some v i a :
  0 <= i < Z.of_nat (length v) → vset v i a = Some (<[Z.to_nat i := a]> v).
Proof. intros. apply vset_Some. done. Qed.

Lemma vset_length v i a v' : vset v i a = Some v' → length v' = length v.
Proof. intros [_ ->]%vset_Some. apply length_insert. Qed.

Lemma vget_insert_eq v i a :
  0 <= i < Z.of_nat (length v) → vget (<[Z.to_nat i := a]> v) i = Some a.
Proof.
  intros H. apply vget_Some. split; [lia|].
  apply list_lookup_insert_eq. lia.
Qed.

Lemma vget_insert_ne v i j a :
  i ≠ j → 0 <= i → vget (<[Z.to_nat i := a]> v) j = vget v j.
Proof.
  intros Hne Hi. unfold vget. destruct (Z.leb_spec 0 j); [|done].
  apply list_lookup_insert_ne. lia.
Qed.

Lemma vget_insert v i j a :
  0 <= i < Z.of_nat (length v) →
  vget (<[Z.to_nat i := a]> v) j = if decide (i = j) then Some a else vget v j.
Proof.
  intros H. destruct (decide (i = j)) as [<-|Hne].
  - by apply vget_insert_eq.
  - apply vget_insert_ne; [done|lia].
Qed.
End Vectors.

(** ** The undo log *)

Lemma NumberLink_eta nl :
  set_mates (mates_ nl) (set_mate_stack (mate_stack_ nl) nl) = nl.
Proof. by destruct nl. Qed.

Lemma logged_from_refl nl : logged_from nl nl [].
Proof.
  unfold logged_from. simpl. rewrite NumberLink_eta. repeat split; auto.
Qed.

Lemma undo_app p q mates : undo (q ++ p) mates = undo p (undo q mates).
Proof. unfold undo. apply foldl_app. Qed.

Lemma undo_length p mates : length (undo p mates) = length mates.
Proof.
  revert mates. induction p as [|e p IH]; intros mates; [done|].
  simpl. rewrite IH. apply length_insert.
Qed.

Lemma logged_from_trans nl nl' nl'' p q :
  logged_from nl nl' p → logged_from nl' nl'' q → logged_from nl nl'' (q ++ p).
Proof.
  intros (Hs & Hu & Hl & Hr & Hf) (Hs' & Hu' & Hl' & Hr' & Hf').
  unfold logged_from. repeat split.
  - rewrite Hs', Hs. by rewrite app_assoc.
  - by rewrite undo_app, Hu', Hu.
  - congruence.
  - apply Forall_app. split; [|done]. by rewrite <- Hl.
  - rewrite Hf' at 1. rewrite Hf at 1. done.
Qed.

Lemma logged_from_table nl nl' p : logged_from nl nl' p → table_ nl' = table_ nl.
Proof. intros (_ & _ & _ & _ & ->). done. Qed.

Lemma logged_from_start nl nl' p : logged_from nl nl' p → start_ nl' = start_ nl.
Proof. intros (_ & _ & _ & _ & ->). done. Qed.

Lemma ChangeMates_Some k v nl old :
  vget (mates_ nl) k = Some old →
  ∃ nl', ChangeMates k v nl = Some (length (mate_stack_ nl), nl') ∧
         mates_ nl' = <[Z.to_nat k := v]> (mates_ nl) ∧
         logged_from nl nl' (if old =? v then [] else [(k, old)]).
Proof.
  intros Hget. unfold ChangeMates. rewrite Hget. simpl.
  pose proof (vget_range _ _ _ Hget) as Hr.
  apply vget_Some in Hget as [_ Hlk].
  destruct (Z.eqb_spec old v) as [->|Hne].
  - exists nl. split; [done|]. split; [|apply logged_from_refl].
    symmetry. by apply list_insert_id.
  - rewrite vset_is_Some by done. simpl. eexists. split; [done|].
    split; [done|]. unfold logged_from. simpl. repeat split.
    + rewrite list_insert_insert_eq. by apply list_insert_id.
    + apply length_insert.
    + constructor; [simpl; lia|constructor].
Qed.

Lemma ChangeMates_None k v nl :
  vget (mates_ nl) k = None → ChangeMates k v nl = None.
Proof. intros H. unfold ChangeMates. by rewrite H. Qed.

Lemma revert_loop_pushed p base mates :
  Forall (λ e, 0 <= fst e < Z.of_nat (length mates)) p →
  revert_loop (length base) (p ++ base) mates = Some (undo p mates, base).
Proof.
  revert mates. induction p as [|e p IH]; intros mates Hp.
  - destruct base as [|top rest]; [done|].
    cbn [app revert_loop]. by rewrite Nat.ltb_irrefl.
  - inversion Hp as [|? ? He Hp']; subst. cbn [app revert_loop].
    assert ((length base <? length (e :: p ++ base))%nat = true) as ->.
    { apply Nat.ltb_lt. simpl. rewrite length_app. lia. }
    rewrite vset_is_Some by done. simpl. apply IH.
    rewrite length_insert. done.
Qed.

Lemma RevertMates_logged nl nl' p :
  logged_from nl nl' p → RevertMates (length (mate_stack_ nl)) nl' = Some nl.
Proof.
  intros (Hs & Hu & Hl & Hr & Hf). unfold RevertMates.
  rewrite Hs, revert_loop_pushed by (by rewrite Hl). simpl.
  rewrite Hu, Hf. f_equal. destruct nl; reflexivity.
Qed.

(** ** [UniteMates] *)

Lemma UniteMates_early nl a b end1 end2 :
  vget (mates_ nl) a = Some end1 → vget (mates_ nl) b = Some end2 →
  end1 = -1 ∨ end2 = -1 ∨ (a = end2 ∧ b = end1) →
  UniteMates a b nl = Some (false, nl).
Proof.
  intros Ha Hb H. unfold UniteMates. rewrite Ha, Hb. simpl.
  destruct (Z.eqb_spec end1 (-1)); [done|].
  destruct (Z.eqb_spec end2 (-1)); [done|]. simpl.
  destruct H as [?|[?|[-> ->]]]; [done|done|].
  by rewrite !Z.eqb_refl.
Qed.

Lemma UniteMates_fault nl a b :
  vget (mates_ nl) a = None ∨ vget (mates_ nl) b = None →
  UniteMates a b nl = None.
Proof.
  intros [H|H]; unfold UniteMates; rewrite H; simpl; [done|].
  by destruct (vget (mates_ nl) a).
Qed.

Lemma vget_table_label nl k :
  0 <= k < Z.of_nat (length (table_ nl)) → vget (table_ nl) k = Some (label nl k).
Proof.
  intros H. unfold label. by destruct (vget_is_Some (table_ nl) k H) as [t ->].
Qed.

Lemma UniteMates_late nl a b end1 end2 :
  vget (mates_ nl) a = Some end1 → vget (mates_ nl) b = Some end2 →
  end1 ≠ -1 → end2 ≠ -1 → ¬ (a = end2 ∧ b = end1) →
  0 <= end1 < Z.of_nat (length (mates_ nl)) →
  0 <= end2 < Z.of_nat (length (mates_ nl)) →
  length (table_ nl) = length (mates_ nl) →
  ∃ nl4 p,
    UniteMates a b nl = Some (unite_verdict a b end1 end2 nl4, nl4) ∧
    mates_ nl4 = united_mates a b end1 end2 (mates_ nl) ∧
    logged_from nl nl4 (p ++ [(a, end1)]).
Proof.
  intros Ha Hb H1 H2 Hcyc Hr1 Hr2 Hlen.
  pose proof (vget_range _ _ _ Ha) as Hra.
  pose proof (vget_range _ _ _ Hb) as Hrb.
  unfold UniteMates. rewrite Ha, Hb. simpl.
  destruct (Z.eqb_spec end1 (-1)); [done|].
  destruct (Z.eqb_spec end2 (-1)); [done|]. simpl.
  assert ((a =? end2) && (b =? end1) = false) as ->.
  { apply andb_false_iff. destruct (Z.eqb_spec a end2), (Z.eqb_spec b end1); tauto. }
  destruct (ChangeMates_Some a (-1) nl end1 Ha) as (nl1 & -> & Hm1 & Hl1).
  simpl.
  destruct (vget_is_Some (mates_ nl1) b) as [o2 Ho2].
  { rewrite Hm1, length_insert. done. }
  destruct (ChangeMates_Some b (-1) nl1 o2 Ho2) as (nl2 & -> & Hm2 & Hl2).
  simpl.
  destruct (vget_is_Some (mates_ nl2) end1) as [o3 Ho3].
  { rewrite Hm2, Hm1, !length_insert. done. }
  destruct (ChangeMates_Some end1 end2 nl2 o3 Ho3) as (nl3 & -> & Hm3 & Hl3).
  simpl.
  destruct (vget_is_Some (mates_ nl3) end2) as [o4 Ho4].
  { rewrite Hm3, Hm2, Hm1, !length_insert. done. }
  destruct (ChangeMates_Some end2 end1 nl3 o4 Ho4) as (nl4 & -> & Hm4 & Hl4).
  simpl.
  assert (mates_ nl4 = united_mates a b end1 end2 (mates_ nl)) as Hm.
  { unfold united_mates. by rewrite Hm4, Hm3, Hm2, Hm1. }
  assert (length (mates_ nl4) = length (mates_ nl)) as Hlen4.
  { rewrite Hm. unfold united_mates. by rewrite !length_insert. }
  assert (table_ nl4 = table_ nl) as Ht.
  { rewrite (logged_from_table _ _ _ Hl4), (logged_from_table _ _ _ Hl3),
      (logged_from_table _ _ _ Hl2), (logged_from_table _ _ _ Hl1). done. }
  destruct (Z.eqb_spec end1 (-1)) as [|_]; [done|]. 
  pose proof (logged_from_trans _ _ _ _ _
                (logged_from_trans _ _ _ _ _
                   (logged_from_trans _ _ _ _ _ Hl1 Hl2) Hl3) Hl4) as Hl.
  exists nl4. eexists. split; [|split; [exact Hm|]].
  2:{ rewrite !app_assoc in Hl. exact Hl. }
  destruct (vget_is_Some (mates_ nl4) a) as [m1 Hg1]; [lia|].
  destruct (vget_is_Some (mates_ nl4) b) as [m2 Hg2]; [lia|].
  unfold unite_verdict. rewrite Hg1, Hg2. simpl.
  rewrite !vget_table_label by (rewrite Ht; lia). 
  simpl.
  generalize (m1 =? -1), (0 <? label nl4 a), (m2 =? -1), (0 <? label nl4 b),
    (0 <? label nl4 end1), (0 <? label nl4 end2),
    (label nl4 end1 =? label nl4 end2).
  intros [] [] [] [] [] [] []; reflexivity.
Qed.

Lemma vget_united mates a b end1 end2 c :
  0 <= a < Z.of_nat (length mates) → 0 <= b < Z.of_nat (length mates) →
  0 <= end1 < Z.of_nat (length mates) → 0 <= end2 < Z.of_nat (length mates) →
  vget (united_mates a b end1 end2 mates) c =
    if decide (end2 = c) then Some end1
    else if decide (end1 = c) then Some end2
    else if decide (b = c) then Some (-1)
    else if decide (a = c) then Some (-1)
    else vget mates c.
Proof.
  intros Ha Hb H1 H2. unfold united_mates.
  rewrite !vget_insert by (rewrite ?length_insert; lia). done.
Qed.

Lemma symmetric_back mates c v :
  symmetric mates → vget mates c = Some v → v ≠ -1 →
  vget mates v = Some c ∧ 0 <= v < Z.of_nat (length mates).
Proof.
  intros Hs Hc Hv. pose proof (Hs c v Hc Hv) as H.
  split; [done|]. by apply vget_range in H.
Qed.

(** Under symmetry the cycle test of [UniteMates] needs only one half. *)
Lemma symmetric_cycle mates a b end1 end2 :
  symmetric mates →
  vget mates a = Some end1 → vget mates b = Some end2 →
  end1 ≠ -1 → end2 ≠ -1 →
  (a = end2 ↔ b = end1).
Proof.
  intros Hs Ha Hb H1 H2.
  destruct (symmetric_back _ _ _ Hs Ha H1) as [Ha' _].
  destruct (symmetric_back _ _ _ Hs Hb H2) as [Hb' _].
  split; intros ->; congruence.
Qed.

Lemma united_symmetric mates a b end1 end2 :
  symmetric mates →
  vget mates a = Some end1 → vget mates b = Some end2 →
  end1 ≠ -1 → end2 ≠ -1 → ¬ (a = end2 ∧ b = end1) →
  symmetric (united_mates a b end1 end2 mates).
Proof.
  intros Hs Ha Hb H1 H2 Hcyc.
  destruct (symmetric_back _ _ _ Hs Ha H1) as [Ha' Hr1].
  destruct (symmetric_back _ _ _ Hs Hb H2) as [Hb' Hr2].
  pose proof (vget_range _ _ _ Ha) as Hra.
  pose proof (vget_range _ _ _ Hb) as Hrb.
  pose proof (symmetric_cycle _ _ _ _ _ Hs Ha Hb H1 H2) as Hiff.
  intros c v Hc Hv.
  rewrite vget_united in Hc by done. rewrite vget_united by done.
  repeat case_decide; simplify_eq; try done; try tauto;
    try (destruct (symmetric_back _ _ _ Hs Hc Hv) as [Hc' _]; congruence).
Qed.

Lemma UniteMates_symmetric nl a b r nl' :
  symmetric (mates_ nl) → length (table_ nl) = length (mates_ nl) →
  UniteMates a b nl = Some (r, nl') →
  symmetric (mates_ nl') ∧ length (table_ nl') = length (mates_ nl') ∧
  ∃ p, logged_from nl nl' p.
Proof.
  intros Hs Hlen HU.
  destruct (vget (mates_ nl) a) as [end1|] eqn:Ha.
  2:{ rewrite UniteMates_fault in HU by auto. done. }
  destruct (vget (mates_ nl) b) as [end2|] eqn:Hb.
  2:{ rewrite UniteMates_fault in HU by auto. done. }
  destruct (decide (end1 = -1 ∨ end2 = -1 ∨ (a = end2 ∧ b = end1))) as [He|Hl].
  - rewrite (UniteMates_early _ _ _ _ _ Ha Hb He) in HU. simplify_eq.
    split; [done|]. split; [done|]. eexists. apply logged_from_refl.
  - assert (end1 ≠ -1 ∧ end2 ≠ -1 ∧ ¬ (a = end2 ∧ b = end1)) as (H1 & H2 & Hc)
      by tauto.
    destruct (symmetric_back _ _ _ Hs Ha H1) as [_ Hr1].
    destruct (symmetric_back _ _ _ Hs Hb H2) as [_ Hr2].
    destruct (UniteMates_late nl a b end1 end2 Ha Hb H1 H2 Hc Hr1 Hr2 Hlen)
      as (nl4 & p & HU' & Hm & Hlog).
    rewrite HU' in HU. simplify_eq.
    split; [rewrite Hm; by apply united_symmetric|].
    split; [|by eexists].
    rewrite (logged_from_table _ _ _ Hlog). destruct Hlog as (_ & _ & -> & _). done.
Qed.

Lemma UniteMates_total nl a b :
  symmetric (mates_ nl) → length (table_ nl) = length (mates_ nl) →
  0 <= a < Z.of_nat (length (mates_ nl)) →
  0 <= b < Z.of_nat (length (mates_ nl)) →
  is_Some (UniteMates a b nl).
Proof.
  intros Hs Hlen Hra Hrb.
  destruct (vget_is_Some _ _ Hra) as [end1 Ha].
  destruct (vget_is_Some _ _ Hrb) as [end2 Hb].
  destruct (decide (end1 = -1 ∨ end2 = -1 ∨ (a = end2 ∧ b = end1))) as [He|Hl].
  - rewrite (UniteMates_early _ _ _ _ _ Ha Hb He). done.
  - assert (end1 ≠ -1 ∧ end2 ≠ -1 ∧ ¬ (a = end2 ∧ b = end1)) as (H1 & H2 & Hc)
      by tauto.
    destruct (symmetric_back _ _ _ Hs Ha H1) as [_ Hr1].
    destruct (symmetric_back _ _ _ Hs Hb H2) as [_ Hr2].
    destruct (UniteMates_late nl a b end1 end2 Ha Hb H1 H2 Hc Hr1 Hr2 Hlen)
      as (nl4 & p & HU' & _).
    rewrite HU'. done.
Qed.

(** Peel the binds and tests off a hypothesis [... = Some _]. *)
Ltac option_steps H :=
  repeat first
    [ discriminate H
    | match type of H with
      | (?m ≫= _) = Some _ => destruct m; simpl in H
      | (if ?c then _ else _) = Some _ => destruct c
      end ].

Lemma ChangeMates_logged k v nl n nl' :
  ChangeMates k v nl = Some (n, nl') → ∃ p, logged_from nl nl' p.
Proof.
  intros H. destruct (vget (mates_ nl) k) as [old|] eqn:E.
  - destruct (ChangeMates_Some k v nl old E) as (nl1 & H1 & _ & Hl).
    rewrite H1 in H. simplify_eq. by eexists.
  - by rewrite ChangeMates_None in H.
Qed.

(** Whatever the state, a [UniteMates] call that returns has only made
    logged writes. *)
Lemma UniteMates_logged a b nl r nl' :
  UniteMates a b nl = Some (r, nl') → ∃ p, logged_from nl nl' p.
Proof.
  unfold UniteMates. intros H.
  destruct (vget (mates_ nl) a) as [end1|]; simpl in H; [|done].
  destruct (vget (mates_ nl) b) as [end2|]; simpl in H; [|done].
  destruct ((end1 =? -1) || (end2 =? -1)).
  { simplify_eq. eexists. apply logged_from_refl. }
  destruct ((a =? end2) && (b =? end1)).
  { simplify_eq. eexists. apply logged_from_refl. }
  destruct (ChangeMates a (-1) nl) as [[n1 nl1]|] eqn:E1; simpl in H; [|done].
  destruct (ChangeMates b (-1) nl1) as [[n2 nl2]|] eqn:E2; simpl in H; [|done].
  destruct (ChangeMates end1 end2 nl2) as [[n3 nl3]|] eqn:E3; simpl in H; [|done].
  destruct (ChangeMates end2 end1 nl3) as [[n4 nl4]|] eqn:E4; simpl in H; [|done].
  apply ChangeMates_logged in E1 as [p1 L1], E2 as [p2 L2],
    E3 as [p3 L3], E4 as [p4 L4].
  assert (nl' = nl4) as ->.
  { option_steps H; congruence. }
  eexists.
  exact (logged_from_trans _ _ _ _ _
           (logged_from_trans _ _ _ _ _
              (logged_from_trans _ _ _ _ _ L1 L2) L3) L4).
Qed.

Lemma unite_all_logged ops nl nl' :
  unite_all ops nl = Some nl' → ∃ p, logged_from nl nl' p.
Proof.
  revert nl. induction ops as [|[a b] ops IH]; intros nl H; simpl in H.
  - simplify_eq. eexists. apply logged_from_refl.
  - destruct (UniteMates a b nl) as [[r nl1]|] eqn:E; simpl in H; [|done].
    apply UniteMates_logged in E as [p1 L1].
    apply IH in H as [p2 L2]. eexists.
    exact (logged_from_trans _ _ _ _ _ L1 L2).
Qed.

Lemma unite_all_total ops nl :
  symmetric (mates_ nl) → length (table_ nl) = length (mates_ nl) →
  Forall (λ ab, 0 <= fst ab < Z.of_nat (length (mates_ nl)) ∧
                0 <= snd ab < Z.of_nat (length (mates_ nl))) ops →
  is_Some (unite_all ops nl).
Proof.
  revert nl. induction ops as [|[a b] ops IH]; intros nl Hs Hl Hops; [done|].
  inversion Hops as [|? ? [Ha Hb] Hops']; subst. simpl in *.
  destruct (UniteMates_total nl a b Hs Hl Ha Hb) as [[r nl1] E].
  rewrite E. simpl.
  destruct (UniteMates_symmetric _ _ _ _ _ Hs Hl E) as (Hs1 & Hl1 & p & Hlog).
  apply IH; try done.
  destruct Hlog as (_ & _ & -> & _). done.
Qed.

Lemma symmetricb_correct mates : symmetricb mates = true → symmetric mates.
Proof.
  unfold symmetricb, symmetric. intros H c v Hc Hv.
  rewrite forallb_forall in H.
  pose proof (vget_range _ _ _ Hc) as Hr.
  apply vget_Some in Hc as [Hc0 Hc].
  specialize (H (Z.to_nat c)). rewrite Hc in H.
  assert (In (Z.to_nat c) (seq 0 (length mates))) as Hin.
  { apply in_seq. lia. }
  apply H in Hin. apply orb_true_iff in Hin as [Hin|Hin].
  - apply Z.eqb_eq in Hin. done.
  - destruct (vget mates v) as [c'|]; [|done].
    apply Z.eqb_eq in Hin. f_equal. lia.
Qed.

Example row_1_0_1_built :
  (nl ← new_NumberLink 3 1; nl ← Initialize nl; snd <$> read_table [1; 0; 1] nl)
  = Some row_1_0_1.
Proof. vm_compute. reflexivity. Qed.

Example row_1_0_1_joined_built :
  UniteMates 1 0 row_1_0_1 = Some (true, row_1_0_1_joined).
Proof. vm_compute. reflexivity. Qed.

(** Where the four writes leave the two cells and the two former ends. *)
Lemma united_final mates a b end1 end2 :
  symmetric mates →
  vget mates a = Some end1 → vget mates b = Some end2 →
  end1 ≠ -1 → end2 ≠ -1 → ¬ (a = end2 ∧ b = end1) →
  let mates' := united_mates a b end1 end2 mates in
  vget mates' a = Some (if decide (a = end1) then end2 else -1) ∧
  vget mates' b = Some (if decide (b = end2) then end1 else -1) ∧
  vget mates' end1 = Some end2 ∧
  vget mates' end2 = Some end1.
Proof.
  intros Hs Ha Hb H1 H2 Hcyc.
  destruct (symmetric_back _ _ _ Hs Ha H1) as [Ha' Hr1].
  destruct (symmetric_back _ _ _ Hs Hb H2) as [Hb' Hr2].
  pose proof (vget_range _ _ _ Ha) as Hra.
  pose proof (vget_range _ _ _ Hb) as Hrb.
  pose proof (symmetric_cycle _ _ _ _ _ Hs Ha Hb H1 H2) as Hiff.
  simpl. rewrite !vget_united by done.
  repeat split; repeat case_decide; simplify_eq; try done; tauto.
Qed.

Lemma label_logged nl nl' p k : logged_from nl nl' p → label nl' k = label nl k.
Proof. intros H. unfold label. by rewrite (logged_from_table _ _ _ H). Qed.

(** The outcome of a [UniteMates] call in a symmetric state, in one piece. *)
Lemma UniteMates_outcome nl a b end1 end2 :
  symmetric (mates_ nl) → length (table_ nl) = length (mates_ nl) →
  vget (mates_ nl) a = Some end1 → vget (mates_ nl) b = Some end2 →
  ∃ r nl',
    UniteMates a b nl = Some (r, nl') ∧
    (end1 = -1 ∨ end2 = -1 ∨ (a = end2 ∧ b = end1) → r = false ∧ nl' = nl) ∧
    (¬ (end1 = -1 ∨ end2 = -1 ∨ (a = end2 ∧ b = end1)) →
     mates_ nl' = united_mates a b end1 end2 (mates_ nl) ∧
     (∃ p, logged_from nl nl' (p ++ [(a, end1)])) ∧
     (r = false ↔
        (a ≠ end1 ∧ 0 < label nl a) ∨ (b ≠ end2 ∧ 0 < label nl b) ∨
        (0 < label nl end1 ∧ 0 < label nl end2 ∧ label nl end1 ≠ label nl end2))).
Proof.
  intros Hs Hlen Ha Hb.
  destruct (decide (end1 = -1 ∨ end2 = -1 ∨ (a = end2 ∧ b = end1))) as [He|Hl].
  - exists false, nl. split; [by apply (UniteMates_early _ _ _ end1 end2)|].
    split; [done|tauto].
  - assert (end1 ≠ -1 ∧ end2 ≠ -1 ∧ ¬ (a = end2 ∧ b = end1)) as (H1 & H2 & Hc)
      by tauto.
    destruct (symmetric_back _ _ _ Hs Ha H1) as [_ Hr1].
    destruct (symmetric_back _ _ _ Hs Hb H2) as [_ Hr2].
    destruct (UniteMates_late nl a b end1 end2 Ha Hb H1 H2 Hc Hr1 Hr2 Hlen)
      as (nl4 & p & HU & Hm & Hlog).
    exists (unite_verdict a b end1 end2 nl4), nl4.
    split; [done|]. split; [tauto|]. intros _.
    split; [done|]. split; [by eexists|].
    destruct (united_final _ _ _ _ _ Hs Ha Hb H1 H2 Hc) as (Fa & Fb & _ & _).
    unfold unite_verdict. rewrite Hm, Fa, Fb, !(label_logged _ _ _ _ Hlog).
    simpl.
    destruct (Z.ltb_spec 0 (label nl a)), (Z.ltb_spec 0 (label nl b)),
      (Z.ltb_spec 0 (label nl end1)), (Z.ltb_spec 0 (label nl end2)),
      (Z.eqb_spec (label nl end1) (label nl end2));
      repeat case_decide; simpl;
      repeat match goal with
             | |- context [?x =? ?y] => destruct (Z.eqb_spec x y)
             end; simpl; split; try done; try lia; intros; try tauto; try lia.
Qed.

Lemma label_nonneg nl k : Forall (λ t, 0 <= t) (table_ nl) → 0 <= label nl k.
Proof.
  intros H. unfold label. destruct (vget (table_ nl) k) as [t|] eqn:E; [|done].
  simpl. apply vget_Some in E as [_ E].
  rewrite Forall_forall in H. apply H.
  eapply list_elem_of_lookup_2. exact E.
Qed.

(** C10. A [UniteMates] call that fails at one of its two early tests (an end
    already closed, or the two cells being the two ends of one chain) returns
    before any write: the whole object, mates and undo log included, is as it
    was at entry.  A call that fails later failed one of the legality checks,
    and returns with the four writes applied and logged: the mates differ
    from those at entry, the log is taller, and [RevertMates] to the entry
    height restores the entry state. *)
Theorem UniteMates_early_failure_is_atomic nl a b end1 end2 :
  symmetric (mates_ nl) → length (table_ nl) = length (mates_ nl) →
  vget (mates_ nl) a = Some end1 → vget (mates_ nl) b = Some end2 →
  ∃ r nl',
    UniteMates a b nl = Some (r, nl') ∧
    (end1 = -1 ∨ end2 = -1 ∨ (a = end2 ∧ b = end1) →
     r = false ∧ mates_ nl' = mates_ nl ∧ mate_stack_ nl' = mate_stack_ nl ∧
     nl' = nl) ∧
    (¬ (end1 = -1 ∨ end2 = -1 ∨ (a = end2 ∧ b = end1)) → r = false →
     ((a ≠ end1 ∧ 0 < label nl a) ∨ (b ≠ end2 ∧ 0 < label nl b) ∨
      (0 < label nl end1 ∧ 0 < label nl end2 ∧ label nl end1 ≠ label nl end2)) ∧
     mates_ nl' = united_mates a b end1 end2 (mates_ nl) ∧
     mates_ nl' ≠ mates_ nl ∧
     (length (mate_stack_ nl) < length (mate_stack_ nl'))%nat ∧
     RevertMates (length (mate_stack_ nl)) nl' = Some nl).
Proof.
  intros Hs Hlen Ha Hb.
  destruct (UniteMates_outcome nl a b end1 end2 Hs Hlen Ha Hb)
    as (r & nl' & HU & Hearly & Hlate).
  exists r, nl'. split; [done|]. split.
  - intros He. destruct (Hearly He) as [-> ->]. done.
  - intros Hne Hr. destruct (Hlate Hne) as (Hm & [p Hlog] & Hiff).
    split; [by apply Hiff|]. split; [done|].
    assert (end1 ≠ -1 ∧ end2 ≠ -1 ∧ ¬ (a = end2 ∧ b = end1)) as (H1 & H2 & Hc)
      by tauto.
    split; [|split].
    + intros Heq.
      destruct (united_final _ _ _ _ _ Hs Ha Hb H1 H2 Hc) as (Fa & _).
      rewrite <- Hm, Heq, Ha in Fa.
      pose proof (symmetric_cycle _ _ _ _ _ Hs Ha Hb H1 H2) as Hcy.
      case_decide; simplify_eq. tauto.
    + destruct Hlog as (-> & _). rewrite !length_app. simpl. lia.
    + by eapply RevertMates_logged.
Qed.

Lemma UniteMates_early_failure_is_atomic_witness :
  ∃ r nl',
    UniteMates 2 0 row_1_0_1_joined = Some (r, nl') ∧
    (2 = -1 ∨ 1 = -1 ∨ (2 = 1 ∧ 0 = 2) →
     r = false ∧ mates_ nl' = [1; 0; 2] ∧
     mate_stack_ nl' = mate_stack_ row_1_0_1_joined ∧ nl' = row_1_0_1_joined) ∧
    (¬ (2 = -1 ∨ 1 = -1 ∨ (2 = 1 ∧ 0 = 2)) → r = false →
     ((2 ≠ 2 ∧ 0 < label row_1_0_1_joined 2) ∨
      (0 ≠ 1 ∧ 0 < label row_1_0_1_joined 0) ∨
      (0 < label row_1_0_1_joined 2 ∧ 0 < label row_1_0_1_joined 1 ∧
       label row_1_0_1_joined 2 ≠ label row_1_0_1_joined 1)) ∧
     mates_ nl' = united_mates 2 0 2 1 [1; 0; 2] ∧
     mates_ nl' ≠ [1; 0; 2] ∧
     (4 < length (mate_stack_ nl'))%nat ∧
     RevertMates 4 nl' = Some row_1_0_1_joined).
Proof.
  apply (UniteMates_early_failure_is_atomic row_1_0_1_joined 2 0 2 1).
  - apply symmetricb_correct. reflexivity.
  - reflexivity.
  - reflexivity.
  - reflexivity.
Defined.




(** C5. Take any state and remember the height of its undo log; make any
    sequence of [UniteMates] calls, whatever each returns; then [RevertMates]
    to the remembered height gives back the mates (and the log, and in fact
    the whole object) of the moment the height was taken.  In a symmetric
    state and with cell keys of the board the calls do return. *)
Theorem rollback_restores_checkpoint nl ops :
  (symmetric (mates_ nl) → length (table_ nl) = length (mates_ nl) →
   Forall (λ ab, 0 <= fst ab < Z.of_nat (length (mates_ nl)) ∧
                 0 <= snd ab < Z.of_nat (length (mates_ nl))) ops →
   is_Some (unite_all ops nl)) ∧
  (∀ nl', unite_all ops nl = Some nl' →
     ∃ nl'', RevertMates (length (mate_stack_ nl)) nl' = Some nl'' ∧
             mates_ nl'' = mates_ nl ∧
             mate_stack_ nl'' = mate_stack_ nl ∧
             nl'' = nl).
Proof.
  split.
  - apply unite_all_total.
  - intros nl' H. apply unite_all_logged in H as [p Hlog].
    exists nl. by rewrite (RevertMates_logged _ _ _ Hlog).
Qed.

Lemma rollback_restores_checkpoint_witness :
  is_Some (unite_all [(2, 0); (2, 1); (1, 0); (2, 2)] row_1_0_1_joined) ∧
  ∃ nl' nl'',
    unite_all [(2, 0); (2, 1); (1, 0); (2, 2)] row_1_0_1_joined = Some nl' ∧
    mates_ nl' = [-1; 1; -1] ∧
    RevertMates 4 nl' = Some nl'' ∧
    mates_ nl'' = [1; 0; 2] ∧
    mate_stack_ nl'' = [(0, -1); (1, -1); (0, 0); (1, 1)].
Proof.
  pose proof (rollback_restores_checkpoint row_1_0_1_joined
                [(2, 0); (2, 1); (1, 0); (2, 2)]) as [Htotal Hback].
  split.
  - apply Htotal.
    + apply symmetricb_correct. reflexivity.
    + reflexivity.
    + repeat (constructor; [simpl; lia|]). constructor.
  - destruct (unite_all [(2, 0); (2, 1); (1, 0); (2, 2)] row_1_0_1_joined)
      as [nl'|] eqn:E.
    + destruct (Hback nl' eq_refl) as (nl'' & HR & Hm & Hst & _).
      exists nl', nl''. split; [reflexivity|]. split; [|done].
      vm_compute in E. by injection E as <-.
    + vm_compute in E. discriminate E.
Defined.

(** ** The check of the newly fixed cells *)

Lemma hidden_fails_spec t m h :
  hidden_fails t m h = true ↔ (t = 0 ∧ m ≠ h ∧ m ≠ -1) ∨ (t ≠ 0 ∧ m = h).
Proof.
  unfold hidden_fails.
  destruct (Z.eqb_spec t 0), (Z.eqb_spec m (-1)), (Z.eqb_spec m h); simpl;
    split; intros; try done; try tauto; try lia.
Qed.

Lemma hidden_loop_spec nl n lo :
  (∀ h, lo <= h < lo + Z.of_nat n →
        0 <= h < Z.of_nat (length (table_ nl)) ∧
        0 <= h < Z.of_nat (length (mates_ nl))) →
  ∃ dead, hidden_loop n lo nl = Some dead ∧
          (dead = true ↔ ∃ h, lo <= h < lo + Z.of_nat n ∧ retire_violation nl h).
Proof.
  revert lo. induction n as [|n IH]; intros lo Hr.
  - exists false. split; [done|]. split; [done|]. intros (h & ? & _). lia.
  - destruct (Hr lo ltac:(lia)) as [Ht Hm].
    destruct (vget_is_Some _ _ Ht) as [t Et].
    destruct (vget_is_Some _ _ Hm) as [m Em].
    cbn [hidden_loop]. rewrite Et, Em. simpl.
    destruct (hidden_fails t m lo) eqn:Ef.
    + exists true. split; [done|]. split; [|done]. intros _.
      exists lo. split; [lia|]. exists t, m. by rewrite <- hidden_fails_spec.
    + destruct (IH (lo + 1)) as (dead & Hd & Hiff).
      { intros h Hh. apply Hr. lia. }
      exists dead. split; [done|]. rewrite Hiff. split.
      * intros (h & Hh & Hv). exists h. split; [lia|done].
      * intros (h & Hh & Hv). exists h. split; [|done].
        destruct (decide (h = lo)) as [->|]; [|lia].
        destruct Hv as (t' & m' & Et' & Em' & Hv). simplify_eq.
        apply hidden_fails_spec in Hv. congruence.
Qed.

(** C1. At an index above 0 [Solve] looks at every cell [h] with
    [start_[index-1] <= h < start_[index]].  If one of them is blank with a
    mates entry that is neither [h] nor closed, or numbered with the mates
    entry [h], the call returns the count 0 and leaves the object as it is;
    otherwise the call goes on with the rest of [Solve]. *)
Theorem Solve_checks_newly_fixed_cells fuel cell_key nl lo hi :
  0 < cell_key →
  vget (start_ nl) (cell_key - 1) = Some lo →
  vget (start_ nl) cell_key = Some hi →
  (∀ h, lo <= h < hi → 0 <= h < Z.of_nat (length (table_ nl)) ∧
                        0 <= h < Z.of_nat (length (mates_ nl))) →
  ((∃ h, lo <= h < hi ∧ retire_violation nl h) →
   Solve (S fuel) cell_key nl = Some (0, nl)) ∧
  ((∀ h, lo <= h < hi → ¬ retire_violation nl h) →
   Solve (S fuel) cell_key nl = Solve_tail (Solve fuel) cell_key nl).
Proof.
  intros Hk Hlo Hhi Hr.
  destruct (hidden_loop_spec nl (Z.to_nat (hi - lo)) lo) as (dead & Hd & Hiff).
  { intros h Hh. apply Hr. lia. }
  assert (Solve (S fuel) cell_key nl =
          if dead then Some (0, nl) else Solve_tail (Solve fuel) cell_key nl) as ->.
  { cbn [Solve]. destruct (Z.eqb_spec cell_key 0); [lia|].
    unfold newly_fixed_fail. destruct (Z.ltb_spec 0 cell_key); [|lia].
    rewrite Hlo, Hhi. simpl. rewrite Hd. done. }
  split.
  - intros (h & Hh & Hv). assert (dead = true) as ->; [|done].
    apply Hiff. exists h. split; [lia|done].
  - intros Hno. destruct dead; [|done].
    destruct Hiff as [Hiff _]. destruct (Hiff eq_refl) as (h & Hh & Hv).
    exfalso. apply (Hno h); [lia|done].
Qed.

Lemma Solve_checks_newly_fixed_cells_witness :
  Solve 1 2 row_1_0_1 = Some (0, row_1_0_1) ∧
  Solve 2 2 row_1_0_1_joined = Solve_tail (Solve 1) 2 row_1_0_1_joined.
Proof.
  split.
  - apply (Solve_checks_newly_fixed_cells 0 2 row_1_0_1 0 1);
      [lia | reflexivity | reflexivity | intros h Hh; simpl; lia |].
    exists 0. split; [lia|]. exists 1, 0.
    split; [reflexivity|]. split; [reflexivity|]. right. split; [lia|reflexivity].
  - apply (Solve_checks_newly_fixed_cells 1 2 row_1_0_1_joined 0 1);
      [lia | reflexivity | reflexivity | intros h Hh; simpl; lia |].
    intros h Hh (t & m & Ht & Hm & Hv).
    assert (h = 0) as -> by lia. vm_compute in Ht, Hm. simplify_eq. lia.
Defined.

(** ** The memo key *)

Lemma newly_fixed_fail_set_solved b k nl :
  newly_fixed_fail k (set_solved b nl) = newly_fixed_fail k nl.
Proof.
  unfold newly_fixed_fail. destruct (0 <? k); [|done]. simpl.
  destruct (vget (start_ nl) (k - 1)) as [lo|]; [|done]. simpl.
  destruct (vget (start_ nl) k) as [hi|]; [|done]. simpl.
  generalize (Z.to_nat (hi - lo)). intros n. revert lo.
  induction n as [|n IH]; intros lo; [done|]. simpl. 
  destruct (vget (table_ nl) lo); [|done]. simpl.
  destruct (vget (mates_ nl) lo); [|done]. simpl.
  by rewrite IH.
Qed.

Lemma slice_Some v lo hi l :
  slice v lo hi = Some l ↔
  (0 <= lo ∧ lo <= hi ∧ hi <= Z.of_nat (length v)) ∧
  l = take (Z.to_nat (hi - lo)) (drop (Z.to_nat lo) v).
Proof.
  unfold slice.
  destruct (Z.leb_spec 0 lo), (Z.leb_spec lo hi),
    (Z.leb_spec hi (Z.of_nat (length v))); simpl;
    (split; [intros [= <-]; try (split; [lia|done])
            | intros [? ->]; (done || lia)]).
Qed.

(** C3, as the code has it.  When a call of [Solve] at an index other than
    the last gets past the newly fixed cells and returns, the count it
    returns is stored in the memo of that index under the hash of the mates
    of the cells [start_[index] .. index - 1]: the slice starts at the
    look-back key of the index itself. *)
Theorem memo_key_is_hash_of_look_back_slice fuel cell_key nl c nl' :
  newly_fixed_fail cell_key nl = Some false →
  cell_key ≠ size_ nl →
  Solve (S fuel) cell_key nl = Some (c, nl') →
  ∃ lo m',
    vget (start_ nl) cell_key = Some lo ∧
    0 <= lo <= cell_key ∧
    vget (memo_ nl') cell_key = Some m' ∧
    m' !! GetHash (take (Z.to_nat (cell_key - lo))
                        (drop (Z.to_nat lo) (mates_ nl))) = Some c.
Proof.
  intros Hfix Hk HS. cbn [Solve] in HS.
  set (nl0 := if cell_key =? 0 then set_solved false nl else nl) in HS.
  assert (newly_fixed_fail cell_key nl0 = Some false) as Hfix0.
  { unfold nl0. destruct (cell_key =? 0); [|done].
    by rewrite newly_fixed_fail_set_solved. }
  assert (start_ nl0 = start_ nl ∧ mates_ nl0 = mates_ nl ∧ size_ nl0 = size_ nl)
    as (Hst & Hma & Hsz).
  { unfold nl0. by destruct (cell_key =? 0). }
  rewrite Hfix0 in HS. simpl in HS. unfold Solve_tail in HS.
  destruct (Z.eqb_spec cell_key (size_ nl0)) as [|_]; [congruence|].
  unfold mate_tuple in HS. rewrite Hst, Hma in HS.
  destruct (vget (start_ nl) cell_key) as [lo|]; [|done]. simpl in HS.
  destruct (slice (mates_ nl) lo cell_key) as [tuple|] eqn:Esl; [|done].
  simpl in HS. apply slice_Some in Esl as [Hr ->].
  destruct (vget (memo_ nl0) cell_key) as [m|] eqn:Em; [|done]. simpl in HS.
  exists lo.
  destruct (m !! GetHash _) as [c0|] eqn:Ehit.
  - simplify_eq. exists m. repeat split; try done; lia.
  - destruct (Connect (Solve fuel) cell_key nl0) as [[c1 nl1]|]; [|done].
    simpl in HS. unfold memo_store in HS.
    destruct (vget (memo_ nl1) cell_key) as [m1|] eqn:Em1; [|done].
    simpl in HS.
    destruct (vset (memo_ nl1) cell_key _) as [mm|] eqn:Eset; [|done].
    simpl in HS. simplify_eq. apply vset_Some in Eset as [Hrm ->].
    eexists. split; [done|]. split; [lia|]. simpl.
    split; [by apply vget_insert_eq|]. apply lookup_insert_eq.
Qed.

Lemma memo_key_is_hash_of_look_back_slice_witness :
  ∃ c nl' lo m',
    Solve 2 3 blank_2x2 = Some (c, nl') ∧
    vget (start_ blank_2x2) 3 = Some lo ∧
    0 <= lo <= 3 ∧
    vget (memo_ nl') 3 = Some m' ∧
    m' !! GetHash (take (Z.to_nat (3 - lo))
                        (drop (Z.to_nat lo) (mates_ blank_2x2))) = Some c.
Proof.
  destruct (Solve 2 3 blank_2x2) as [[c nl']|] eqn:E.
  - destruct (memo_key_is_hash_of_look_back_slice 1 3 blank_2x2 c nl')
      as (lo & m' & H); [reflexivity | simpl; lia | exact E |].
    exists c, nl', lo, m'. split; [reflexivity|exact H].
  - vm_compute in E. discriminate E.
Defined.

(** C3, as worded, fails: on the blank 2x2 board the whole search keys the
    memo of index 3 by the hash of the mates of cells 1 and 2 (the slice from
    [start_[3] = 1]), and holds nothing under the hash of the mates of cells
    0, 1 and 2 (the slice from [start_[2] = 0]). *)
Lemma memo_key_is_not_hash_of_predecessor_slice :
  mate_tuple 3 blank_2x2 = Some [1; 2] ∧
  predecessor_tuple 3 blank_2x2 = Some [0; 1; 2] ∧
  ('(c, nl') ← Solve 5 0 blank_2x2;
   m ← vget (memo_ nl') 3;
   Some (c, m !! GetHash [1; 2], m !! GetHash [0; 1; 2]))
  = Some (1, Some 1, None).
Proof. vm_compute. repeat split; reflexivity. Qed.

(** ** Dimensions *)

(** C9, as the code has it.  When the width or the height read is 0 the
    loop of [main] ends before a [NumberLink] is built, so no key is handed
    out; and the constructor followed by [Initialize] would not get past its
    first write. *)
Theorem zero_dimension_ends_input width height input :
  width = 0 ∨ height = 0 →
  dataset width height input = Some InputEnds ∧
  (new_NumberLink width height ≫= Initialize) = None.
Proof.
  intros [-> | ->].
  - split; [reflexivity|]. unfold new_NumberLink.
    change (to_short 0) with 0. rewrite Z.mul_0_l. reflexivity.
  - split; [unfold dataset; by rewrite orb_true_r|]. unfold new_NumberLink.
    rewrite Z.mul_0_r. reflexivity.
Qed.

Lemma zero_dimension_ends_input_witness :
  dataset 0 5 [1; 2] = Some InputEnds ∧
  (new_NumberLink 0 5 ≫= Initialize) = None.
Proof. apply (zero_dimension_ends_input 0 5 [1; 2]). left. reflexivity. Defined.

(** C9, as worded, fails: no error exists, and with width -1 and height -1
    the constructor computes the size 1, [Initialize] hands out the key 0 to
    the cell (0, 0), and the dataset is solved. *)
Lemma negative_dimensions_get_keys :
  (nl ← new_NumberLink (-1) (-1); nl ← Initialize nl;
   Some (size_ nl, keys_ nl, cell_x_ nl, cell_y_ nl)) = Some (1, [0], [0], [0]) ∧
  match dataset (-1) (-1) [] with
  | Some (Solved c _ _) => c = 1
  | _ => False
  end.
Proof. vm_compute. split; reflexivity. Qed.

(** ** The order of the keys *)

Lemma out_of_board_false width height x y :
  out_of_board width height x y = false ↔ on_board width height x y.
Proof.
  unfold out_of_board, on_board.
  destruct (Z.ltb_spec x 0), (Z.leb_spec width x), (Z.ltb_spec y 0),
    (Z.leb_spec height y); simpl; split; intros; try done; lia.
Qed.

Lemma on_board_nonneg width height x y :
  on_board width height x y → 0 <= x ∧ 0 <= y.
Proof. unfold on_board. lia. Qed.

Lemma diag_lt_irrefl x y : ¬ diag_lt x y x y.
Proof. unfold diag_lt. lia. Qed.

Lemma diag_lt_trans x1 y1 x2 y2 x3 y3 :
  diag_lt x1 y1 x2 y2 → diag_lt x2 y2 x3 y3 → diag_lt x1 y1 x3 y3.
Proof. unfold diag_lt. lia. Qed.

Lemma diag_lt_total x1 y1 x2 y2 :
  diag_lt x1 y1 x2 y2 ∨ (x1 = x2 ∧ y1 = y2) ∨ diag_lt x2 y2 x1 y1.
Proof. unfold diag_lt. lia. Qed.

Lemma diagonal_step_spec x y x' y' :
  0 <= x → 0 <= y → diagonal_step x y = (x', y') →
  0 <= x' ∧ 0 <= y' ∧ diag_lt x y x' y' ∧
  diag_rank2 x' y' = diag_rank2 x y + 2 ∧
  ∀ u v, 0 <= u → 0 <= v → diag_lt x y u v →
         (u = x' ∧ v = y') ∨ diag_lt x' y' u v.
Proof.
  intros Hx Hy. unfold diagonal_step, diag_lt, diag_rank2.
  destruct (Z.ltb_spec (x - 1) 0); intros [= <- <-].
  - assert (x = 0) as -> by lia. repeat split; try lia.
  - repeat split; try lia.
Qed.

Lemma diag_lt_rank2 x1 y1 x2 y2 :
  0 <= x1 → 0 <= y1 → 0 <= x2 → 0 <= y2 →
  diag_lt x1 y1 x2 y2 → diag_rank2 x1 y1 < diag_rank2 x2 y2.
Proof.
  unfold diag_lt, diag_rank2. intros ? ? ? ? [Hd|[Hd Hx]].
  - assert (x1 + y1 + 1 <= x2 + y2) as Hle by lia.
    assert ((x1 + y1 + 1) * (x1 + y1 + 2) <= (x2 + y2) * (x2 + y2 + 1)) by nia.
    nia.
  - rewrite Hd. lia.
Qed.

Lemma next_cell_sound fuel width height x y x' y' :
  0 <= x → 0 <= y →
  next_cell fuel width height x y = Some (x', y') →
  on_board width height x' y' ∧ diag_lt x y x' y' ∧
  ∀ u v, on_board width height u v → diag_lt x y u v →
         (u = x' ∧ v = y') ∨ diag_lt x' y' u v.
Proof.
  revert x y. induction fuel as [|fuel IH]; intros x y Hx Hy H; [done|].
  cbn [next_cell] in H.
  destruct (diagonal_step x y) as [x1 y1] eqn:Estep.
  destruct (diagonal_step_spec x y x1 y1 Hx Hy Estep)
    as (Hx1 & Hy1 & Hlt & _ & Hnext).
  destruct (out_of_board width height x1 y1) eqn:Eout.
  - destruct (IH x1 y1 Hx1 Hy1 H) as (Hon & Hlt' & Hnext').
    split; [done|]. split; [by eapply diag_lt_trans|].
    intros u v Huv Hlt_uv.
    destruct (on_board_nonneg _ _ _ _ Huv) as [Hu Hv].
    destruct (Hnext u v Hu Hv Hlt_uv) as [[-> ->]|Hgt].
    + apply out_of_board_false in Huv. congruence.
    + by apply Hnext'.
  - simplify_eq. apply out_of_board_false in Eout.
    split; [done|]. split; [done|]. intros u v Huv Hlt_uv.
    destruct (on_board_nonneg _ _ _ _ Huv) as [Hu Hv]. by apply Hnext.
Qed.

Lemma next_cell_complete fuel width height x y u v :
  0 <= x → 0 <= y →
  on_board width height u v → diag_lt x y u v →
  diag_rank2 u v - diag_rank2 x y <= 2 * Z.of_nat fuel →
  is_Some (next_cell fuel width height x y).
Proof.
  revert x y. induction fuel as [|fuel IH]; intros x y Hx Hy Huv Hlt Hfuel.
  - destruct (on_board_nonneg _ _ _ _ Huv) as [Hu Hv].
    pose proof (diag_lt_rank2 x y u v Hx Hy Hu Hv Hlt) as Hr. lia.
  - cbn [next_cell].
    destruct (diagonal_step x y) as [x1 y1] eqn:Estep.
    destruct (diagonal_step_spec x y x1 y1 Hx Hy Estep)
      as (Hx1 & Hy1 & _ & Hrank & Hnext).
    destruct (out_of_board width height x1 y1) eqn:Eout; [|done].
    destruct (on_board_nonneg _ _ _ _ Huv) as [Hu Hv].
    apply IH; try done; [|lia].
    destruct (Hnext u v Hu Hv Hlt) as [[-> ->]|Hgt]; [|done].
    apply out_of_board_false in Huv. congruence.
Qed.

Lemma rank2_bound width height u v :
  on_board width height u v →
  diag_rank2 u v <= 2 * ((width + height) * (width + height)).
Proof.
  unfold on_board, diag_rank2. intros [? ?].
  assert ((u + v) * (u + v + 1) <= (width + height) * (width + height)) by nia.
  assert (2 * v <= (width + height) * (width + height)) by nia.
  lia.
Qed.

Lemma rank2_nonneg x y : 0 <= x → 0 <= y → 0 <= diag_rank2 x y.
Proof. unfold diag_rank2. nia. Qed.

Lemma next_cell_exists width height x y u v :
  on_board width height x y → on_board width height u v → diag_lt x y u v →
  is_Some (next_cell (next_cell_fuel width height) width height x y).
Proof.
  intros Hxy Huv Hlt.
  destruct (on_board_nonneg _ _ _ _ Hxy) as [Hx Hy].
  apply (next_cell_complete _ _ _ _ _ u v); try done.
  pose proof (rank2_bound _ _ _ _ Huv) as Hb.
  pose proof (rank2_nonneg x y Hx Hy) as Hn.
  unfold next_cell_fuel. rewrite Z2Nat.id by apply Z.square_nonneg. lia.
Qed.

Lemma to_short_id n : -32768 <= n <= 32767 → to_short n = n.
Proof.
  intros H. unfold to_short, wrap_signed.
  change (2 ^ (16 - 1)) with 32768. change (2 ^ 16) with 65536.
  rewrite Z.mod_small; lia.
Qed.

(** No injection of [0 .. N-1] into [0 .. m-1] unless [N <= m]. *)
Lemma pigeonhole (N : nat) :
  ∀ (m : Z) (R : Z → Z → Prop),
    0 <= m →
    (∀ a, 0 <= a < Z.of_nat N → ∃ b, 0 <= b < m ∧ R a b) →
    (∀ a a' b, 0 <= a < Z.of_nat N → 0 <= a' < Z.of_nat N →
               R a b → R a' b → a = a') →
    Z.of_nat N <= m.
Proof.
  induction N as [|N IH]; intros m R Hm Hmap Hinj.
  - simpl. lia.
  - destruct (Hmap (Z.of_nat N)) as (b0 & Hb0 & HR0); [lia|].
    assert (Z.of_nat N <= m - 1); [|lia].
    apply (IH (m - 1)
              (λ a b, ∃ b', R a b' ∧ b = if b' <? b0 then b' else b' - 1)).
    + lia.
    + intros a Ha. destruct (Hmap a) as (b & Hb & HR); [lia|].
      assert (b ≠ b0).
      { intros ->. assert (a = Z.of_nat N); [|lia].
        apply (Hinj _ _ b0); try done; lia. }
      eexists. split; [|exists b; split; [done|reflexivity]].
      destruct (Z.ltb_spec b b0); lia.
    + intros a a' b Ha Ha' (b1 & HR1 & E1) (b2 & HR2 & E2).
      assert (b1 ≠ b0).
      { intros ->. assert (a = Z.of_nat N); [|lia].
        apply (Hinj _ _ b0); try done; lia. }
      assert (b2 ≠ b0).
      { intros ->. assert (a' = Z.of_nat N); [|lia].
        apply (Hinj _ _ b0); try done; lia. }
      assert (b1 = b2) as ->.
      { destruct (Z.ltb_spec b1 b0), (Z.ltb_spec b2 b0); lia. }
      apply (Hinj _ _ b2); try done; lia.
Qed.

(** Positions [y * width + x] number the cells of the board. *)
Lemma position_inj width height x y x' y' :
  on_board width height x y → on_board width height x' y' →
  y * width + x = y' * width + x' → x = x' ∧ y = y'.
Proof.
  unfold on_board. intros [? ?] [? ?] Heq.
  destruct (Z.lt_trichotomy y y') as [Hlt|[->|Hlt]].
  - assert ((y + 1) * width <= y' * width) by nia. lia.
  - lia.
  - assert ((y' + 1) * width <= y * width) by nia. lia.
Qed.

Lemma position_range width height x y :
  on_board width height x y → 0 <= y * width + x < width * height.
Proof. unfold on_board. intros [? ?]. nia. Qed.

Lemma position_decode width height p :
  0 < width → 0 <= p < width * height →
  ∃ x y, on_board width height x y ∧ p = y * width + x.
Proof.
  intros Hw Hp. exists (p mod width), (p / width).
  pose proof (Z.mod_pos_bound p width Hw).
  pose proof (Z.div_mod p width ltac:(lia)).
  assert (0 <= p / width) by (apply Z.div_pos; lia).
  assert (p / width < height).
  { apply Z.div_lt_upper_bound; lia. }
  unfold on_board. lia.
Qed.

Lemma cell_at_fun cx cy j x y x' y' :
  cell_at cx cy j x y → cell_at cx cy j x' y' → x = x' ∧ y = y'.
Proof. unfold cell_at. intros [? ?] [? ?]. split; congruence. Qed.

(** If every cell of the board has one of the keys below [m], the board has
    at most [m] cells. *)
Lemma board_le_keys width height cx cy m :
  0 < width → 0 < height →
  (∀ u v, on_board width height u v → ∃ j, 0 <= j < m ∧ cell_at cx cy j u v) →
  width * height <= m.
Proof.
  intros Hw Hh Hall.
  rewrite <- (Z2Nat.id (width * height)) by nia.
  apply (pigeonhole _ m
           (λ p j, ∃ u v, on_board width height u v ∧ p = v * width + u ∧
                          cell_at cx cy j u v)).
  - destruct (Hall 0 0) as (j & Hj & _); [unfold on_board|]; lia.
  - intros p Hp. rewrite Z2Nat.id in Hp by nia.
    destruct (position_decode width height p Hw Hp) as (u & v & Huv & ->).
    destruct (Hall u v Huv) as (j & Hj & Hc). exists j. split; [done|].
    by exists u, v.
  - intros p p' j _ _ (u & v & Huv & -> & Hc) (u' & v' & Huv' & -> & Hc').
    destruct (cell_at_fun _ _ _ _ _ _ _ Hc Hc') as [-> ->]. done.
Qed.

(** If the keys below [m] belong to different cells of the board, the board
    has at least [m] cells. *)
Lemma keys_le_board width height m (cell : Z → Z → Z → Prop) :
  0 <= width * height → 0 <= m →
  (∀ j, 0 <= j < m → ∃ x y, on_board width height x y ∧ cell j x y) →
  (∀ j j' x y, 0 <= j < m → 0 <= j' < m → cell j x y → cell j' x y → j = j') →
  m <= width * height.
Proof.
  intros Hwh Hm Hall Hinj.
  rewrite <- (Z2Nat.id m) by done.
  apply (pigeonhole _ (width * height)
           (λ j p, ∃ x y, on_board width height x y ∧ p = y * width + x ∧
                          cell j x y)).
  - done.
  - intros j Hj. rewrite Z2Nat.id in Hj by done.
    destruct (Hall j Hj) as (x & y & Hxy & Hc).
    exists (y * width + x). split; [by eapply position_range|]. by exists x, y.
  - intros j j' p Hj Hj' (x & y & Hxy & -> & Hc) (x' & y' & Hxy' & Hp & Hc').
    rewrite Z2Nat.id in Hj, Hj' by done.
    destruct (position_inj _ _ _ _ _ _ Hxy Hxy' Hp) as [-> ->].
    by eapply Hinj.
Qed.

Lemma cell_at_insert_ne cx cy i j x y x' y' :
  i ≠ j → 0 <= i →
  cell_at (<[Z.to_nat i := x]> cx) (<[Z.to_nat i := y]> cy) j x' y' ↔
  cell_at cx cy j x' y'.
Proof. intros. unfold cell_at. by rewrite !vget_insert_ne. Qed.

Lemma cell_at_insert_eq cx cy i x y x' y' :
  0 <= i < Z.of_nat (length cx) → 0 <= i < Z.of_nat (length cy) →
  cell_at (<[Z.to_nat i := x]> cx) (<[Z.to_nat i := y]> cy) i x' y' ↔
  x' = x ∧ y' = y.
Proof.
  intros. unfold cell_at. rewrite !vget_insert_eq by done.
  split; [intros [[= ->] [= ->]]|intros [-> ->]]; done.
Qed.

(** One more key: the state of the tables after the body of the loop. *)
Lemma keyed_step width height cx cy ks i x y :
  0 <= i < Z.of_nat (length cx) → 0 <= i < Z.of_nat (length cy) →
  width * height <= Z.of_nat (length ks) →
  on_board width height x y →
  keyed width height cx cy ks i →
  (∀ j xj yj, 0 <= j < i → cell_at cx cy j xj yj → diag_lt xj yj x y) →
  keyed width height (<[Z.to_nat i := x]> cx) (<[Z.to_nat i := y]> cy)
        (<[Z.to_nat (y * width + x) := i]> ks) (i + 1).
Proof.
  intros Hix Hiy Hks Hxy [Hcells Hmono] Hbefore.
  pose proof (position_range _ _ _ _ Hxy) as Hpos.
  split.
  - intros j Hj. destruct (decide (j = i)) as [->|Hne].
    + exists x, y. split; [by apply cell_at_insert_eq|]. split; [done|].
      apply vget_insert_eq. lia.
    + destruct (Hcells j) as (xj & yj & Hc & Hon & Hk); [lia|].
      exists xj, yj. split; [apply cell_at_insert_ne; [done|lia|done]|].
      split; [done|]. rewrite vget_insert_ne; [done| |lia].
      intros Heq. destruct (position_inj _ _ _ _ _ _ Hxy Hon Heq) as [-> ->].
      eapply diag_lt_irrefl. apply (Hbefore j); [lia|done].
  - intros j j' xj yj xj' yj' Hj Hj' Hc Hc'.
    apply cell_at_insert_ne in Hc; [|lia..].
    destruct (decide (j' = i)) as [->|Hne].
    + apply cell_at_insert_eq in Hc' as [-> ->]; [|done..].
      apply (Hbefore j); [lia|done].
    + apply cell_at_insert_ne in Hc'; [|lia..].
      apply (Hmono j j'); try done; lia.
Qed.

Lemma set_tables_again cx cy ks cx' cy' ks' nl :
  set_keys ks' (set_cell_y cy' (set_cell_x cx'
    (set_keys ks (set_cell_y cy (set_cell_x cx nl))))) =
  set_keys ks' (set_cell_y cy' (set_cell_x cx' nl)).
Proof. reflexivity. Qed.

Lemma last_cell_or_before width height x y :
  on_board width height x y →
  diag_lt x y (width - 1) (height - 1) ∨ (x = width - 1 ∧ y = height - 1).
Proof. unfold on_board, diag_lt. lia. Qed.

Lemma key_loop_spec width height :
  0 < width → 0 < height → width * height <= 32767 →
  ∀ fuel i x y nl,
    width_ nl = width → height_ nl = height → size_ nl = width * height →
    length (cell_x_ nl) = Z.to_nat (width * height) →
    length (cell_y_ nl) = Z.to_nat (width * height) →
    length (keys_ nl) = Z.to_nat (width * height) →
    Z.of_nat fuel = width * height - i → 0 <= i < width * height →
    on_board width height x y →
    keyed width height (cell_x_ nl) (cell_y_ nl) (keys_ nl) i →
    (∀ j xj yj, 0 <= j < i → cell_at (cell_x_ nl) (cell_y_ nl) j xj yj →
                diag_lt xj yj x y) →
    (∀ u v, on_board width height u v → diag_lt u v x y →
            ∃ j, 0 <= j < i ∧ cell_at (cell_x_ nl) (cell_y_ nl) j u v) →
    ∃ cx' cy' ks',
      key_loop fuel x y i nl =
        Some (set_keys ks' (set_cell_y cy' (set_cell_x cx' nl))) ∧
      length cx' = Z.to_nat (width * height) ∧
      length cy' = Z.to_nat (width * height) ∧
      length ks' = Z.to_nat (width * height) ∧
      keyed width height cx' cy' ks' (width * height) ∧
      (∀ u v, on_board width height u v →
              ∃ j, 0 <= j < width * height ∧ cell_at cx' cy' j u v).
Proof.
  intros Hw Hh Hsize.
  induction fuel as [|fuel IH];
    intros i x y nl Hwd Hht Hsz Hlx Hly Hlk Hfuel Hi Hxy Hkeyed Hbefore Hall;
    [lia|].
  pose proof (position_range _ _ _ _ Hxy) as Hpos.
  assert (0 <= y < height) as Hy by (unfold on_board in Hxy; lia).
  assert (height <= width * height) as Hhn by nia.
  cbn [key_loop]. rewrite Hwd, Hht, Hsz.
  rewrite (to_short_id y) by lia.
  rewrite (to_short_id (y * width + x)) by lia.
  rewrite (to_short_id (i + 1)) by lia.
  rewrite !vset_is_Some by lia. simpl.
  set (cx1 := <[Z.to_nat i := x]> (cell_x_ nl)).
  set (cy1 := <[Z.to_nat i := y]> (cell_y_ nl)).
  set (ks1 := <[Z.to_nat (y * width + x) := i]> (keys_ nl)).
  assert (keyed width height cx1 cy1 ks1 (i + 1)) as Hkeyed1.
  { apply keyed_step; try done; lia. }
  assert (∀ u v, on_board width height u v →
                 diag_lt u v x y ∨ (u = x ∧ v = y) →
                 ∃ j, 0 <= j < i + 1 ∧ cell_at cx1 cy1 j u v) as Hupto.
  { intros u v Huv [Hlt|[-> ->]].
    - destruct (Hall u v Huv Hlt) as (j & Hj & Hc). exists j. split; [lia|].
      apply cell_at_insert_ne; [lia..|done].
    - exists i. split; [lia|]. apply cell_at_insert_eq; [lia..|done]. }
  assert (∀ j xj yj, 0 <= j < i + 1 → cell_at cx1 cy1 j xj yj →
                     diag_lt xj yj x y ∨ (xj = x ∧ yj = y)) as Hnotafter.
  { intros j xj yj Hj Hc. destruct (decide (j = i)) as [->|Hne].
    - right. apply cell_at_insert_eq in Hc; [done|lia..].
    - left. apply cell_at_insert_ne in Hc; [|lia..].
      apply (Hbefore j); [lia|done]. }
  assert (length cx1 = Z.to_nat (width * height)) as Hlx1
    by (unfold cx1; by rewrite length_insert).
  assert (length cy1 = Z.to_nat (width * height)) as Hly1
    by (unfold cy1; by rewrite length_insert).
  assert (length ks1 = Z.to_nat (width * height)) as Hlk1
    by (unfold ks1; by rewrite length_insert).
  destruct (Z.eqb_spec (i + 1) (width * height)) as [Hlast|Hmore].
  - (* the last key *)
    exists cx1, cy1, ks1. split; [done|]. split; [done|]. split; [done|].
    split; [done|]. split; [by rewrite <- Hlast|].
    intros u v Huv. rewrite <- Hlast.
    destruct (diag_lt_total u v x y) as [Hlt|[Heq|Hgt]];
      [apply Hupto; auto..|].
    exfalso.
    assert (i + 2 <= width * height); [|lia].
    apply (keys_le_board width height (i + 2)
             (λ j a b, (j < i + 1 ∧ cell_at cx1 cy1 j a b) ∨
                       (j = i + 1 ∧ a = u ∧ b = v))); [lia|lia| |].
    + intros j Hj. destruct (decide (j = i + 1)) as [->|Hne].
      * exists u, v. split; [done|]. right. done.
      * destruct Hkeyed1 as [Hcells1 _].
        destruct (Hcells1 j) as (xj & yj & Hc & Hon & _); [lia|].
        exists xj, yj. split; [done|]. left. split; [lia|done].
    + intros j j' a b Hj Hj' [[Hlj Hc]|(-> & -> & ->)] [[Hlj' Hc']|(-> & E1 & E2)].
      * destruct (Z.lt_trichotomy j j') as [Hjj|[->|Hjj]]; [|done|].
        -- exfalso. eapply diag_lt_irrefl.
           eapply (keyed_mono _ _ _ _ _ _ Hkeyed1 j j'); try done; lia.
        -- exfalso. eapply diag_lt_irrefl.
           eapply (keyed_mono _ _ _ _ _ _ Hkeyed1 j' j); try done; lia.
      * subst a b. exfalso.
        destruct (Hnotafter j u v) as [Hlt'|[-> ->]]; [lia|done| |].
        -- eapply diag_lt_irrefl. by eapply diag_lt_trans.
        -- by eapply diag_lt_irrefl.
      * exfalso.
        destruct (Hnotafter j' u v) as [Hlt'|[-> ->]]; [lia|done| |].
        -- eapply diag_lt_irrefl. by eapply diag_lt_trans.
        -- by eapply diag_lt_irrefl.
      * done.
  - (* more keys to hand out *)
    assert (∃ u v, on_board width height u v ∧ diag_lt x y u v)
      as (u & v & Huv & Hlt).
    { destruct (last_cell_or_before _ _ _ _ Hxy) as [Hlt|[Hx Hy']].
      - exists (width - 1), (height - 1). split; [unfold on_board; lia|done].
      - exfalso. assert (width * height <= i + 1); [|lia].
        apply (board_le_keys width height cx1 cy1); try done.
        intros u v Huv. apply Hupto; [done|].
        destruct (diag_lt_total u v x y) as [?|[?|Hgt]]; [by left|by right|].
        exfalso. unfold diag_lt, on_board in *. lia. }
    destruct (next_cell_exists _ _ _ _ _ _ Hxy Huv Hlt) as [[x' y'] Enext].
    rewrite Enext. simpl.
    destruct (on_board_nonneg _ _ _ _ Hxy) as [Hx0 Hy0].
    destruct (next_cell_sound _ _ _ _ _ _ _ Hx0 Hy0 Enext)
      as (Hon' & Hlt' & Hnext).
    destruct (IH (i + 1) x' y'
                (set_keys ks1 (set_cell_y cy1 (set_cell_x cx1 nl))))
      as (cx' & cy' & ks' & Hrun & Hres); try done; try lia.
    + intros j xj yj Hj Hc. simpl in Hc.
      destruct (Hnotafter j xj yj Hj Hc) as [Hb|[-> ->]]; [|done].
      by eapply diag_lt_trans.
    + intros a b Hab Hlt_ab. simpl. apply Hupto; [done|].
      destruct (diag_lt_total a b x y) as [?|[?|Hgt]]; [by left|by right|].
      exfalso. destruct (Hnext a b Hab Hgt) as [[-> ->]|Hgt'].
      * by eapply diag_lt_irrefl.
      * eapply diag_lt_irrefl. by eapply diag_lt_trans.
    + exists cx', cy', ks'. split; [|done]. rewrite Hrun. done.
Qed.

(** ** [Initialize] *)

Lemma for_loop_inv {State : Type} (P : Z → State → Prop) body n i (s : State) :
  P i s →
  (∀ j s, i <= j < i + Z.of_nat n → P j s →
          ∃ s', body j s = Some s' ∧ P (j + 1) s') →
  ∃ s', for_loop n i body s = Some s' ∧ P (i + Z.of_nat n) s'.
Proof.
  revert i s. induction n as [|n IH]; intros i s HP Hbody.
  - exists s. split; [done|]. by replace (i + Z.of_nat 0) with i by lia.
  - destruct (Hbody i s) as (s1 & E1 & HP1); [lia|done|].
    cbn [for_loop]. rewrite E1. simpl.
    destruct (IH (i + 1) s1 HP1) as (s' & E' & HP').
    { intros j s2 Hj. apply Hbody. lia. }
    exists s'. split; [done|].
    by replace (i + Z.of_nat (S n)) with (i + 1 + Z.of_nat n) by lia.
Qed.

Lemma new_NumberLink_spec width height :
  0 < width → 0 < height → width * height <= 32767 →
  let n := Z.to_nat (width * height) in
  new_NumberLink width height =
    Some (mkNumberLink width height (width * height) []
            (replicate n 0) (replicate n 0) (replicate n 0) (replicate n 0)
            (replicate n 0) (replicate (S n) 0)
            (replicate n false) (replicate n false) (replicate n ∅) false []).
Proof.
  intros Hw Hh Hn. unfold new_NumberLink.
  assert (width <= width * height) by nia.
  rewrite (to_short_id width) by lia.
  unfold int_of, in_int, int_min, int_max.
  destruct (Z.leb_spec (- 2 ^ 31) (width * height)); [|lia].
  destruct (Z.leb_spec (width * height) (2 ^ 31 - 1)); [|lia].
  simpl. rewrite (to_short_id (width * height)) by lia.
  destruct (Z.ltb_spec (width * height) 0); [lia|]. done.
Qed.

Lemma init_mates_spec nl :
  length (mates_ nl) = Z.to_nat (size_ nl) →
  ∃ mates,
    for_loop (Z.to_nat (size_ nl)) 0 init_mates_body nl = Some (set_mates mates nl) ∧
    length mates = Z.to_nat (size_ nl) ∧
    ∀ c, 0 <= c < size_ nl → vget mates c = Some c.
Proof.
  intros Hlen.
  destruct (for_loop_inv
              (λ j nl', nl' = set_mates (mates_ nl') nl ∧
                        length (mates_ nl') = Z.to_nat (size_ nl) ∧
                        ∀ c, 0 <= c < j → vget (mates_ nl') c = Some c)
              init_mates_body (Z.to_nat (size_ nl)) 0 nl)
    as (nl' & Hrun & Heq & Hlen' & Hid).
  - split; [by destruct nl|]. split; [done|]. intros c Hc. lia.
  - intros j nl' Hj (Heq & Hlen' & Hid). unfold init_mates_body.
    rewrite vset_is_Some by lia. simpl. eexists. split; [done|]. simpl.
    split; [by rewrite Heq|]. split; [by rewrite length_insert|].
    intros c Hc. destruct (decide (c = j)) as [->|Hne].
    + apply vget_insert_eq. lia.
    + rewrite vget_insert_ne by lia. apply Hid. lia.
  - exists (mates_ nl'). rewrite Hrun, <- Heq. split; [done|]. split; [done|].
    intros c Hc. apply Hid. lia.
Qed.

Lemma look_back_frame x y nl nl' :
  keys_ nl' = keys_ nl → width_ nl' = width_ nl →
  look_back x y nl' = look_back x y nl.
Proof. intros Hk Hw. unfold look_back, GetCellKey. by rewrite Hk, Hw. Qed.

Lemma GetCellKey_on_board width height nl x y :
  width_ nl = width → 0 < width → width * height <= 32767 →
  on_board width height x y →
  GetCellKey x y nl = vget (keys_ nl) (y * width + x).
Proof.
  intros Hw Hpos Hfit [Hx Hy]. unfold GetCellKey.
  assert (height <= width * height) by nia.
  rewrite Hw, to_short_id by lia. done.
Qed.

(** The key of a cell of the board, read through [GetCellKey]. *)
Lemma keyed_GetCellKey width height nl k x y :
  width_ nl = width → 0 < width → width * height <= 32767 →
  keyed width height (cell_x_ nl) (cell_y_ nl) (keys_ nl) (width * height) →
  0 <= k < width * height →
  cell_at (cell_x_ nl) (cell_y_ nl) k x y →
  on_board width height x y ∧ GetCellKey x y nl = Some k.
Proof.
  intros Hw Hpos Hfit [Hcells _] Hk Hc.
  destruct (Hcells k Hk) as (x' & y' & Hc' & Hon & Hkey).
  destruct (cell_at_fun _ _ _ _ _ _ _ Hc Hc') as [-> ->].
  split; [done|]. by rewrite (GetCellKey_on_board width height).
Qed.

Lemma look_back_is_Some width height nl x y :
  width_ nl = width → 0 < width → width * height <= 32767 →
  length (keys_ nl) = Z.to_nat (width * height) →
  on_board width height x y → is_Some (look_back x y nl).
Proof.
  intros Hw Hpos Hfit Hlen Hxy. unfold look_back.
  destruct (Z.ltb_spec 0 y).
  - rewrite (GetCellKey_on_board width height) by (unfold on_board in *; lia || done).
    apply vget_is_Some.
    pose proof (position_range width height x (y - 1)) as Hr.
    unfold on_board in *. lia.
  - destruct (Z.ltb_spec 0 x); [|done].
    rewrite (GetCellKey_on_board width height) by (unfold on_board in *; lia || done).
    apply vget_is_Some.
    pose proof (position_range width height (x - 1) y) as Hr.
    unfold on_board in *. lia.
Qed.

Lemma init_start_spec width height nl :
  width_ nl = width → 0 < width → 0 < height → width * height <= 32767 →
  size_ nl = width * height →
  length (keys_ nl) = Z.to_nat (width * height) →
  length (start_ nl) = S (Z.to_nat (width * height)) →
  keyed width height (cell_x_ nl) (cell_y_ nl) (keys_ nl) (width * height) →
  ∃ st,
    for_loop (Z.to_nat (size_ nl)) 0 init_start_body nl = Some (set_start st nl) ∧
    length st = S (Z.to_nat (width * height)) ∧
    ∀ k x y, 0 <= k < width * height →
             cell_at (cell_x_ nl) (cell_y_ nl) k x y →
             vget st k = look_back x y nl.
Proof.
  intros Hw Hwpos Hhpos Hfit Hsz Hlk Hls Hkeyed.
  destruct (for_loop_inv
              (λ j nl', nl' = set_start (start_ nl') nl ∧
                        length (start_ nl') = S (Z.to_nat (width * height)) ∧
                        ∀ k x y, 0 <= k < j →
                                 cell_at (cell_x_ nl) (cell_y_ nl) k x y →
                                 vget (start_ nl') k = look_back x y nl)
              init_start_body (Z.to_nat (size_ nl)) 0 nl)
    as (nl' & Hrun & Heq & Hlen' & Hst).
  - split; [by destruct nl|]. split; [done|]. intros k x y Hk. lia.
  - intros j nl' Hj (Heq & Hlen' & Hst). rewrite Hsz in Hj.
    destruct (keyed_cells _ _ _ _ _ _ Hkeyed j) as (x & y & [Hx Hy] & Hon & _);
      [lia|].
    unfold init_start_body. rewrite Heq. simpl. rewrite Hx, Hy. simpl.
    rewrite (look_back_frame x y nl) by done.
    destruct (look_back_is_Some width height nl x y) as [v Hv]; try done.
    rewrite Hv. simpl. rewrite vset_is_Some by lia. simpl.
    eexists. split; [done|]. simpl. split; [done|].
    split; [by rewrite length_insert|].
    intros k x' y' Hk Hc. destruct (decide (k = j)) as [->|Hne].
    + destruct (cell_at_fun _ _ _ _ _ _ _ Hc (conj Hx Hy)) as [-> ->].
      rewrite vget_insert_eq by lia. done.
    + rewrite vget_insert_ne by lia. apply Hst; [lia|done].
  - exists (start_ nl'). rewrite Hrun, <- Heq. split; [done|]. split; [done|].
    intros k x y Hk. apply Hst. rewrite Hsz. lia.
Qed.

Lemma Initialize_spec width height :
  0 < width → 0 < height → width * height <= 32767 →
  ∃ nl0 nl,
    new_NumberLink width height = Some nl0 ∧
    Initialize nl0 = Some nl ∧
    indexed width height nl ∧ fresh nl ∧
    table_ nl = replicate (Z.to_nat (width * height)) 0.
Proof.
  intros Hw Hh Hfit.
  pose proof (new_NumberLink_spec width height Hw Hh Hfit) as Hnew.
  simpl in Hnew. rewrite Hnew.
  set (nl0 := mkNumberLink _ _ _ _ _ _ _ _ _ _ _ _ _ _ _).
  exists nl0. cut (∃ nl, Initialize nl0 = Some nl ∧ indexed width height nl ∧
                    fresh nl ∧ table_ nl = replicate (Z.to_nat (width * height)) 0).
  { intros (nl & H). by exists nl. }
  assert (0 <= width * height) as Hn0 by nia.
  unfold Initialize.
  destruct (init_mates_spec nl0) as (mates & -> & Hlm & Hid).
  { simpl. by rewrite length_replicate. }
  simpl.
  destruct (key_loop_spec width height Hw Hh Hfit (Z.to_nat (width * height))
              0 0 0 (set_mates mates nl0))
    as (cx & cy & ks & -> & Hlx & Hly & Hlk & Hkeyed & Hall);
    try done; try (simpl; by rewrite length_replicate); try lia.
  { split; intros; lia. }
  { intros u v [? ?] Hlt. unfold diag_lt in Hlt. lia. }
  simpl.
  set (nl2 := set_keys ks (set_cell_y cy (set_cell_x cx (set_mates mates nl0)))).
  destruct (init_start_spec width height nl2) as (st & Hrun & Hls & Hst);
    try done.
  { simpl. by rewrite length_replicate. }
  change (Z.to_nat (width * height)) with (Z.to_nat (size_ nl2)).
  rewrite Hrun. simpl.
  rewrite vset_is_Some by (rewrite Hls; lia). simpl.
  eexists. split; [done|]. split; [split|split]; simpl;
    try done; try (by rewrite length_replicate);
    try (by rewrite length_insert).
  - intros k x y Hk Hc. rewrite vget_insert_ne by lia.
    rewrite (Hst k x y Hk Hc). done.
  - apply vget_insert_eq. rewrite Hls. lia.
  - split; simpl; try done; by rewrite length_replicate.
Qed.

Lemma indexed_cell width height nl k :
  indexed width height nl → 0 <= k < width * height →
  ∃ x y, cell_at (cell_x_ nl) (cell_y_ nl) k x y ∧ on_board width height x y ∧
         GetCellKey x y nl = Some k.
Proof.
  intros Hix Hk.
  destruct (keyed_cells _ _ _ _ _ _ (ix_keyed _ _ _ Hix) k Hk)
    as (x & y & Hc & Hon & Hkey).
  exists x, y. split; [done|]. split; [done|].
  rewrite (GetCellKey_on_board width height); try done; by destruct Hix.
Qed.

Lemma indexed_key width height nl x y :
  indexed width height nl → on_board width height x y →
  ∃ k, 0 <= k < width * height ∧ cell_at (cell_x_ nl) (cell_y_ nl) k x y ∧
       GetCellKey x y nl = Some k.
Proof.
  intros Hix Hxy. destruct (ix_all _ _ _ Hix x y Hxy) as (k & Hk & Hc).
  exists k. split; [done|]. split; [done|].
  destruct (indexed_cell _ _ _ k Hix Hk) as (x' & y' & Hc' & _ & Hkey).
  by destruct (cell_at_fun _ _ _ _ _ _ _ Hc Hc') as [-> ->].
Qed.

Lemma indexed_order width height nl k1 k2 x1 y1 x2 y2 :
  indexed width height nl →
  0 <= k1 < width * height → 0 <= k2 < width * height →
  cell_at (cell_x_ nl) (cell_y_ nl) k1 x1 y1 →
  cell_at (cell_x_ nl) (cell_y_ nl) k2 x2 y2 →
  (k1 < k2 ↔ diag_lt x1 y1 x2 y2).
Proof.
  intros Hix Hk1 Hk2 Hc1 Hc2.
  pose proof (keyed_mono _ _ _ _ _ _ (ix_keyed _ _ _ Hix)) as Hmono.
  split.
  - intros Hlt. apply (Hmono k1 k2); try done; lia.
  - intros Hlt. destruct (Z.lt_trichotomy k1 k2) as [?|[->|Hgt]]; [done| |].
    + destruct (cell_at_fun _ _ _ _ _ _ _ Hc1 Hc2) as [-> ->].
      by apply diag_lt_irrefl in Hlt.
    + exfalso. apply (diag_lt_irrefl x1 y1).
      eapply diag_lt_trans; [exact Hlt|]. apply (Hmono k2 k1); try done; lia.
Qed.

(** C7, for the boards the key type can number.  For a board of [width] by
    [height] cells with both positive and [width * height <= 32767], the
    constructor and [Initialize] return; every cell of the board has a key in
    [0 .. width * height - 1] whose coordinates are those of the cell; every
    such key is the key of a cell of the board; and one key is below another
    exactly when its cell lies on an earlier diagonal, or on the same diagonal
    with a larger x. *)
Theorem keys_follow_diagonals width height :
  0 < width → 0 < height → width * height <= 32767 →
  ∃ nl0 nl,
    new_NumberLink width height = Some nl0 ∧ Initialize nl0 = Some nl ∧
    (∀ x y, 0 <= x < width → 0 <= y < height →
       ∃ k, GetCellKey x y nl = Some k ∧ 0 <= k < width * height ∧
            vget (cell_x_ nl) k = Some x ∧ vget (cell_y_ nl) k = Some y) ∧
    (∀ k, 0 <= k < width * height →
       ∃ x y, 0 <= x < width ∧ 0 <= y < height ∧
              vget (cell_x_ nl) k = Some x ∧ vget (cell_y_ nl) k = Some y ∧
              GetCellKey x y nl = Some k) ∧
    (∀ x1 y1 x2 y2 k1 k2,
       0 <= x1 < width → 0 <= y1 < height →
       0 <= x2 < width → 0 <= y2 < height →
       GetCellKey x1 y1 nl = Some k1 → GetCellKey x2 y2 nl = Some k2 →
       (k1 < k2 ↔ x1 + y1 < x2 + y2 ∨ (x1 + y1 = x2 + y2 ∧ x1 > x2))).
Proof.
  intros Hw Hh Hfit.
  destruct (Initialize_spec width height Hw Hh Hfit)
    as (nl0 & nl & Hnew & Hinit & Hix & _).
  exists nl0, nl. split; [done|]. split; [done|]. split; [|split].
  - intros x y Hx Hy.
    destruct (indexed_key width height nl x y Hix (conj Hx Hy))
      as (k & Hk & [Hcx Hcy] & Hkey).
    by exists k.
  - intros k Hk.
    destruct (indexed_cell width height nl k Hix Hk)
      as (x & y & [Hcx Hcy] & [Hx Hy] & Hkey).
    by exists x, y.
  - intros x1 y1 x2 y2 k1 k2 Hx1 Hy1 Hx2 Hy2 Hk1 Hk2.
    destruct (indexed_key width height nl x1 y1 Hix (conj Hx1 Hy1))
      as (k1' & Hr1 & Hc1 & Hkey1).
    destruct (indexed_key width height nl x2 y2 Hix (conj Hx2 Hy2))
      as (k2' & Hr2 & Hc2 & Hkey2).
    simplify_eq.
    rewrite (indexed_order width height nl k1 k2 x1 y1 x2 y2) by done.
    unfold diag_lt. lia.
Qed.

Lemma keys_follow_diagonals_witness :
  ∃ nl0 nl,
    new_NumberLink 2 3 = Some nl0 ∧ Initialize nl0 = Some nl ∧
    (∀ x y, 0 <= x < 2 → 0 <= y < 3 →
       ∃ k, GetCellKey x y nl = Some k ∧ 0 <= k < 2 * 3 ∧
            vget (cell_x_ nl) k = Some x ∧ vget (cell_y_ nl) k = Some y) ∧
    (∀ k, 0 <= k < 2 * 3 →
       ∃ x y, 0 <= x < 2 ∧ 0 <= y < 3 ∧
              vget (cell_x_ nl) k = Some x ∧ vget (cell_y_ nl) k = Some y ∧
              GetCellKey x y nl = Some k) ∧
    (∀ x1 y1 x2 y2 k1 k2,
       0 <= x1 < 2 → 0 <= y1 < 3 →
       0 <= x2 < 2 → 0 <= y2 < 3 →
       GetCellKey x1 y1 nl = Some k1 → GetCellKey x2 y2 nl = Some k2 →
       (k1 < k2 ↔ x1 + y1 < x2 + y2 ∨ (x1 + y1 = x2 + y2 ∧ x1 > x2))).
Proof. apply (keys_follow_diagonals 2 3); lia. Defined.

(** C7, as worded, fails beyond the key type.  For width 1 and height 65537
    the constructor computes the size 1, [Initialize] returns having handed
    out the single key 0, and the cell (0, 1) has no key.  For width 200 and
    height 200 the size computed is negative and the constructor does not
    return. *)
Lemma keys_of_oversized_board :
  (nl ← new_NumberLink 1 65537; nl ← Initialize nl;
   Some (size_ nl, keys_ nl, cell_x_ nl, cell_y_ nl, GetCellKey 0 1 nl))
  = Some (1, [0], [0], [0], None) ∧
  new_NumberLink 200 200 = None.
Proof. vm_compute. split; reflexivity. Qed.

(** ** The states of the search *)

Lemma for_loop_preserves {State : Type} (Q : State → Prop) body n i (s s' : State) :
  (∀ j s s', body j s = Some s' → Q s → Q s') →
  Q s → for_loop n i body s = Some s' → Q s'.
Proof.
  intros Hbody. revert i s. induction n as [|n IH]; intros i s HQ H.
  - simpl in H. by simplify_eq.
  - cbn [for_loop] in H. destruct (body i s) as [s1|] eqn:E; [|done].
    simpl in H. eapply IH; [|exact H]. by eapply Hbody.
Qed.

Lemma key_loop_search_part fuel x y i nl nl' :
  key_loop fuel x y i nl = Some nl' → search_part nl' = search_part nl.
Proof.
  revert x y i nl. induction fuel as [|fuel IH]; intros x y i nl H; [done|].
  cbn [key_loop] in H.
  destruct (vset (cell_x_ nl) i x) as [cx|]; [|done]. simpl in H.
  destruct (vset (cell_y_ nl) i y) as [cy|]; [|done]. simpl in H.
  destruct (vset (keys_ nl) _ i) as [ks|]; [|done]. simpl in H.
  destruct (to_short (i + 1) =? size_ nl); [by simplify_eq|].
  destruct (next_cell _ _ _ x y) as [[x' y']|]; [|done]. simpl in H.
  by rewrite (IH _ _ _ _ H).
Qed.

Lemma init_start_body_search_part j nl nl' :
  init_start_body j nl = Some nl' → search_part nl' = search_part nl.
Proof. unfold init_start_body. intros H. option_steps H. by simplify_eq. Qed.

Lemma new_NumberLink_fresh width height nl0 :
  new_NumberLink width height = Some nl0 →
  0 <= size_ nl0 ∧
  mate_stack_ nl0 = [] ∧
  length (mates_ nl0) = Z.to_nat (size_ nl0) ∧
  length (table_ nl0) = Z.to_nat (size_ nl0).
Proof.
  unfold new_NumberLink. intros H.
  destruct (int_of (to_short width * height)) as [product|]; [|done].
  simpl in H. destruct (Z.ltb_spec (to_short product) 0); [done|].
  simplify_eq. simpl. rewrite !length_replicate. done.
Qed.

Lemma Initialize_search_part nl0 nl :
  length (mates_ nl0) = Z.to_nat (size_ nl0) →
  Initialize nl0 = Some nl →
  size_ nl = size_ nl0 ∧ mate_stack_ nl = mate_stack_ nl0 ∧
  table_ nl = table_ nl0 ∧
  length (mates_ nl) = Z.to_nat (size_ nl0) ∧
  ∀ c, 0 <= c < size_ nl0 → vget (mates_ nl) c = Some c.
Proof.
  intros Hlen H. unfold Initialize in H.
  destruct (init_mates_spec nl0 Hlen) as (mates & Hrun & Hlm & Hid).
  rewrite Hrun in H. simpl in H.
  destruct (key_loop _ 0 0 0 _) as [nl2|] eqn:E2; [|done]. simpl in H.
  apply key_loop_search_part in E2.
  destruct (for_loop _ 0 init_start_body nl2) as [nl3|] eqn:E3; [|done].
  simpl in H.
  assert (search_part nl3 = search_part nl2) as E3'.
  { apply (for_loop_preserves (λ s, search_part s = search_part nl2)
             init_start_body (Z.to_nat (size_ nl2)) 0 nl2 nl3);
      [|done|exact E3].
    intros j s s' Hb Hs. by rewrite (init_start_body_search_part _ _ _ Hb). }
  destruct (vset (start_ nl3) _ _) as [st|]; [|done]. simpl in H.
  unfold search_part in E2, E3'. simpl in E2.
  injection E2 as Es2 Ek2 Et2 Em2. injection E3' as Es3 Ek3 Et3 Em3.
  injection H as <-. simpl.
  repeat split; try congruence.
  intros c Hc. rewrite Em3, Em2. by apply Hid.
Qed.

Lemma read_table_search_part input nl rest nl' :
  read_table input nl = Some (rest, nl') →
  size_ nl' = size_ nl ∧ mate_stack_ nl' = mate_stack_ nl ∧
  mates_ nl' = mates_ nl ∧ length (table_ nl') = length (table_ nl).
Proof.
  intros H. unfold read_table in H.
  pose (Q := λ s : list Z * NumberLink,
          size_ (snd s) = size_ nl ∧ mate_stack_ (snd s) = mate_stack_ nl ∧
          mates_ (snd s) = mates_ nl ∧
          length (table_ (snd s)) = length (table_ nl)).
  assert (∀ y x s s', read_cell y x s = Some s' → Q s → Q s') as Hcell.
  { intros y x [inp s] s' Hc HQ. unfold read_cell in Hc. simpl in Hc.
    destruct inp as [|value inp]; [done|].
    unfold Cell_assign in Hc. simpl in Hc.
    destruct (GetCellKey x y s) as [k|]; [|done]. simpl in Hc.
    destruct (vset (table_ s) k _) as [t|] eqn:Et; [|done]. simpl in Hc.
    simplify_eq. unfold Q in *. simpl in *.
    apply vset_length in Et. destruct HQ as (? & ? & ? & ?).
    repeat split; congruence. }
  apply (for_loop_preserves Q read_row (Z.to_nat (height_ nl)) 0
           (input, nl) (rest, nl')) in H; [done| |by unfold Q].
  intros y s s' Hrow HQ. unfold read_row in Hrow.
  apply (for_loop_preserves Q (read_cell y) (Z.to_nat (width_ (snd s))) 0 s s');
    [|exact HQ|exact Hrow].
  apply Hcell.
Qed.

Lemma identity_symmetric mates :
  (∀ c, 0 <= c < Z.of_nat (length mates) → vget mates c = Some c) →
  symmetric mates.
Proof.
  intros Hid c v Hc Hv. pose proof (vget_range _ _ _ Hc) as Hr.
  rewrite (Hid c Hr) in Hc. simplify_eq. by apply Hid.
Qed.

Lemma logged_from_size nl nl' p : logged_from nl nl' p → size_ nl' = size_ nl.
Proof. intros (_ & _ & _ & _ & ->). done. Qed.

Lemma logged_from_good nl nl' p :
  logged_from nl nl' p → symmetric (mates_ nl') → good nl → good nl'.
Proof.
  intros Hlog Hs (_ & Ht & Hsz). pose proof Hlog as (_ & _ & Hl & _).
  split; [done|].
  rewrite (logged_from_table _ _ _ Hlog), (logged_from_size _ _ _ Hlog), Hl.
  done.
Qed.

(** Two states the present one was logged from: the one with the lower log
    is a state the other was logged from. *)
Lemma logged_from_split s s' nl p p' :
  logged_from s nl p → logged_from s' nl p' →
  (length (mate_stack_ s') <= length (mate_stack_ s))%nat →
  ∃ q, logged_from s' s q.
Proof.
  intros (Hs & Hu & Hl & Hr & Hf) (Hs' & Hu' & Hl' & Hr' & Hf') Hle.
  assert (∃ q, p' = p ++ q ∧ mate_stack_ s = q ++ mate_stack_ s') as (q & -> & Hq).
  { rewrite Hs in Hs'. apply app_eq_app in Hs' as [l [[-> Hl2]|[-> Hl2]]].
    - assert (l = []) as ->.
      { apply (f_equal length) in Hl2. rewrite length_app in Hl2.
        destruct l; [done|simpl in Hl2; lia]. }
      exists []. rewrite !app_nil_r. simpl in Hl2. done.
    - by exists l. }
  exists q. unfold logged_from. repeat split.
  - done.
  - rewrite undo_app in Hu'. by rewrite Hu in Hu'.
  - congruence.
  - apply Forall_app in Hr' as [_ Hr']. done.
  - clear - Hf Hf'. destruct s, s', nl. simpl in *.
    injection Hf as -> -> -> -> -> -> -> -> -> -> -> -> ->.
    injection Hf' as <- <- <- <- <- <- <- <- <- <- <- <- <-.
    reflexivity.
Qed.

Lemma reachable_good marks nl :
  reachable marks nl →
  good nl ∧
  ∀ m, m ∈ marks →
       ∃ s p, logged_from s nl p ∧ length (mate_stack_ s) = m ∧ good s.
Proof.
  induction 1 as [width height nl0 nl1 input rest nl Hnew Hinit Hread
                 | marks nl Hreach [Hgood Hmarks]
                 | marks nl a b r nl' Hreach [Hgood Hmarks] Ha Hb HU
                 | marks nl mark nl' Hreach [Hgood Hmarks] Hin HR].
  - split; [|intros m Hm; by apply elem_of_nil in Hm].
    destruct (new_NumberLink_fresh _ _ _ Hnew) as (Hsz & _ & Hlm & Hlt).
    destruct (Initialize_search_part _ _ Hlm Hinit)
      as (Es & _ & Et & Hlm1 & Hid).
    destruct (read_table_search_part _ _ _ _ Hread) as (Es' & _ & Em & Elt).
    unfold good. rewrite Em, Elt, Et, Es', Es, Hlt, Hlm1.
    split; [|split; [done|lia]].
    apply identity_symmetric. intros c Hc. apply Hid. lia.
  - split; [done|]. intros m [->|Hm]%elem_of_cons.
    + exists nl, []. split; [apply logged_from_refl|done].
    + by apply Hmarks.
  - destruct Hgood as (Hs & Ht & Hsz).
    destruct (UniteMates_symmetric _ _ _ _ _ Hs Ht HU) as (Hs' & Ht' & q & Hlog).
    split.
    + by eapply logged_from_good.
    + intros m Hm. destruct (Hmarks m Hm) as (s & p & Hl & Hlen & Hg).
      exists s, (q ++ p). split; [by eapply logged_from_trans|done].
  - destruct (Hmarks mark Hin) as (s & p & Hl & Hlen & Hg).
    rewrite <- Hlen, (RevertMates_logged _ _ _ Hl) in HR. simplify_eq.
    split; [done|]. intros m [Hle Hm]%list_elem_of_filter.
    destruct (Hmarks m Hm) as (s' & p' & Hl' & Hlen' & Hg').
    destruct (logged_from_split nl' s' nl p p' Hl Hl') as [q Hq]; [lia|].
    exists s', q. done.
Qed.

(** C6. In every state the search can reach (the state after the board is
    read, then any [UniteMates] calls on keys of the board, successful or
    not, and any [RevertMates] to a checkpoint taken on the way), a cell whose
    mates entry is not the closed mark is the mates entry of the cell it
    points at: [mates_[mates_[c]] == c]. *)
Theorem mates_stay_symmetric marks nl c v :
  reachable marks nl →
  vget (mates_ nl) c = Some v → v ≠ -1 →
  vget (mates_ nl) v = Some c.
Proof.
  intros Hreach. destruct (reachable_good marks nl Hreach) as [(Hs & _) _].
  apply Hs.
Qed.

Lemma mates_stay_symmetric_witness :
  vget (mates_ row_1_0_1_joined) 1 = Some 0.
Proof.
  apply (mates_stay_symmetric [0%nat] row_1_0_1_joined 0 1).
  - apply (reach_connect _ row_1_0_1 1 0 true);
      [|simpl; lia|simpl; lia|reflexivity].
    apply (reach_checkpoint [] row_1_0_1).
    apply (reach_start 3 1
             (default row_1_0_1 (new_NumberLink 3 1))
             (set_table [0; 0; 0] row_1_0_1) [1; 0; 1] []); reflexivity.
  - reflexivity.
  - lia.
Defined.

(** ** The neighbours a cell looks back at *)

Lemma indexed_neighbours width height nl k x y :
  indexed width height nl → 0 <= k < width * height →
  cell_at (cell_x_ nl) (cell_y_ nl) k x y →
  on_board width height x y ∧
  (0 < y → ∃ up, GetCellKey x (y - 1) nl = Some up ∧
                 vget (start_ nl) k = Some up ∧ 0 <= up < k) ∧
  (0 < x → ∃ left s, GetCellKey (x - 1) y nl = Some left ∧
                     vget (start_ nl) k = Some s ∧ 0 <= s <= left ∧ left < k) ∧
  (∃ s, vget (start_ nl) k = Some s ∧ 0 <= s <= k).
Proof.
  intros Hix Hk Hc.
  destruct (indexed_cell _ _ _ k Hix Hk) as (x' & y' & Hc' & Hon & _).
  destruct (cell_at_fun _ _ _ _ _ _ _ Hc Hc') as [<- <-]. clear Hc'.
  pose proof (ix_start _ _ _ Hix k x y Hk Hc) as Hstart.
  unfold look_back in Hstart.
  assert (0 < y → ∃ up, GetCellKey x (y - 1) nl = Some up ∧ 0 <= up < k) as Hup.
  { intros Hy.
    destruct (indexed_key width height nl x (y - 1) Hix)
      as (up & Hr & Hcu & Hku); [unfold on_board in *; lia|].
    exists up. split; [done|].
    assert (up < k); [|lia].
    apply (indexed_order width height nl up k x (y - 1) x y); try done.
    unfold diag_lt. lia. }
  assert (0 < x → ∃ left, GetCellKey (x - 1) y nl = Some left ∧ 0 <= left < k ∧
                          ∀ up, 0 < y → GetCellKey x (y - 1) nl = Some up →
                                up < left) as Hleft.
  { intros Hx.
    destruct (indexed_key width height nl (x - 1) y Hix)
      as (left & Hr & Hcl & Hkl); [unfold on_board in *; lia|].
    exists left. split; [done|]. split.
    - assert (left < k); [|lia].
      apply (indexed_order width height nl left k (x - 1) y x y); try done.
      unfold diag_lt. lia.
    - intros up Hy Hku.
      destruct (indexed_key width height nl x (y - 1) Hix)
        as (up' & Hr' & Hcu & Hku'); [unfold on_board in *; lia|].
      simplify_eq.
      apply (indexed_order width height nl up left x (y - 1) (x - 1) y);
        try done.
      unfold diag_lt. lia. }
  split; [done|]. split; [|split].
  - intros Hy. destruct (Hup Hy) as (up & Hku & Hr). exists up.
    destruct (Z.ltb_spec 0 y); [|lia]. by rewrite Hstart.
  - intros Hx. destruct (Hleft Hx) as (left & Hkl & Hr & Hlt).
    destruct (Z.ltb_spec 0 y) as [Hy|Hy].
    + destruct (Hup Hy) as (up & Hku & Hru). exists left, up.
      rewrite Hstart. specialize (Hlt up Hy Hku). repeat split; try done; lia.
    + destruct (Z.ltb_spec 0 x); [|lia]. exists left, left.
      rewrite Hstart. repeat split; try done; lia.
  - destruct (Z.ltb_spec 0 y) as [Hy|Hy].
    + destruct (Hup Hy) as (up & Hku & Hru). exists up. rewrite Hstart.
      split; [done|lia].
    + destruct (Z.ltb_spec 0 x) as [Hx|Hx].
      * destruct (Hleft Hx) as (left & Hkl & Hr & _). exists left.
        rewrite Hstart. split; [done|lia].
      * exists 0. rewrite Hstart. split; [done|lia].
Qed.

(** ** The invariant of the mates *)

Lemma same_board_refl nl : same_board nl nl.
Proof. unfold same_board. repeat split. Qed.

Lemma same_board_trans nl1 nl2 nl3 :
  same_board nl1 nl2 → same_board nl2 nl3 → same_board nl1 nl3.
Proof. unfold same_board. intros H1 H2. intuition congruence. Qed.

Lemma logged_from_same_board nl nl' p : logged_from nl nl' p → same_board nl nl'.
Proof. intros (_ & _ & _ & _ & ->). unfold same_board. simpl. repeat split. Qed.

Lemma same_board_label B nl c : same_board B nl → label nl c = label B c.
Proof. intros (_ & _ & _ & _ & _ & Ht & _). unfold label. by rewrite Ht. Qed.

Lemma retire_violation_frame nl nl' h :
  table_ nl' = table_ nl → vget (mates_ nl') h = vget (mates_ nl) h →
  retire_violation nl' h → retire_violation nl h.
Proof.
  intros Ht Hm (t & m & Et & Em & Hv). exists t, m.
  rewrite <- Ht, <- Hm. done.
Qed.

Lemma UniteMates_keeps_inv B k s b nl nl' :
  length (table_ B) = Z.to_nat (size_ B) →
  0 <= s → s <= b < k → k < size_ B →
  mates_inv B (k + 1) s nl →
  UniteMates k b nl = Some (true, nl') →
  mates_inv B (k + 1) s nl'.
Proof.
  intros Hlt Hs Hb Hk [Hbd Hlen Hsym Hun Hop Hsl Hret] HU.
  assert (table_ nl = table_ B) as Htab by (by destruct Hbd as (_&_&_&_&_&?&_)).
  assert (length (table_ nl) = length (mates_ nl)) as Hlen' by congruence.
  assert (Z.of_nat (length (mates_ nl)) = size_ B) as Hsize by lia.
  assert (0 <= k < Z.of_nat (length (mates_ nl))) as Hrk by lia.
  assert (0 <= b < Z.of_nat (length (mates_ nl))) as Hrb by lia.
  destruct (vget_is_Some (mates_ nl) k Hrk) as [end1 Ha].
  destruct (vget_is_Some (mates_ nl) b Hrb) as [end2 Hb'].
  destruct (UniteMates_outcome nl k b end1 end2 Hsym Hlen' Ha Hb')
    as (r & nl'' & HU' & Hearly & Hlate).
  rewrite HU' in HU. simplify_eq.
  destruct (decide (end1 = -1 ∨ end2 = -1 ∨ k = end2 ∧ b = end1)) as [He|Hne].
  { by destruct (Hearly He). }
  destruct (Hlate Hne) as (Hm & [p Hlog] & Hiff). clear Hearly Hlate.
  assert (end1 ≠ -1 ∧ end2 ≠ -1 ∧ ¬ (k = end2 ∧ b = end1)) as (H1 & H2 & Hc)
    by tauto.
  clear Hne.
  destruct (symmetric_back _ _ _ Hsym Ha H1) as [Ha1 Hr1].
  destruct (symmetric_back _ _ _ Hsym Hb' H2) as [Hb1 Hr2].
  rewrite !(same_board_label B nl) in Hiff by done.
  assert (¬ (k ≠ end1 ∧ 0 < label B k)) as Hok1.
  { intros Hbad. assert (true = false); [|done]. apply Hiff. by left. }
  assert (¬ (b ≠ end2 ∧ 0 < label B b)) as Hok2.
  { intros Hbad. assert (true = false); [|done]. apply Hiff. right. by left. }
  assert (0 < label B end1 → 0 < label B end2 →
          label B end1 = label B end2) as Hok3.
  { intros Hl1 Hl2.
    destruct (decide (label B end1 = label B end2)) as [|Hd]; [done|].
    assert (true = false); [|done]. apply Hiff. right. right. done. }
  clear Hiff.
  assert (∀ c, vget (mates_ nl') c =
               if decide (end2 = c) then Some end1
               else if decide (end1 = c) then Some end2
               else if decide (b = c) then Some (-1)
               else if decide (k = c) then Some (-1)
               else vget (mates_ nl) c) as Hget.
  { intros c. rewrite Hm. by apply vget_united. }
  assert (end1 <= k) as Hle1.
  { destruct (Z.le_gt_cases end1 k) as [|Hgt]; [done|].
    rewrite Hun in Ha1; [|clear - Hgt Hr1 Hsize; lia].
    injection Ha1 as ->. clear - Hgt. lia. }
  assert (end2 <= k) as Hle2.
  { destruct (Z.le_gt_cases end2 k) as [|Hgt]; [done|].
    rewrite Hun in Hb1; [|clear - Hgt Hr2 Hsize; lia].
    injection Hb1 as ->. clear - Hgt Hb. lia. }
  assert (end1 ≠ end2) as Hends.
  { intros ->. rewrite Ha1 in Hb1. injection Hb1 as ->. clear - Hb. lia. }
  split.
  - eapply same_board_trans; [done|]. by eapply logged_from_same_board.
  - rewrite Hm. unfold united_mates. by rewrite !length_insert.
  - rewrite Hm. by apply united_symmetric.
  - intros c Hrc. rewrite Hget.
    assert (end2 ≠ c ∧ end1 ≠ c ∧ b ≠ c ∧ k ≠ c) as (? & ? & ? & ?)
      by (clear - Hrc Hle1 Hle2 Hb; lia).
    repeat case_decide; try done. by apply Hun.
  - intros c Hlab. rewrite Hget. repeat case_decide; simplify_eq; try congruence.
    + intros _. by apply Hok2.
    + intros _. by apply Hok1.
    + by apply Hop.
  - intros c e Hce Hne' Hlc Hle. rewrite Hget in Hce.
    repeat case_decide; simplify_eq; try done.
    + symmetry. by apply Hok3.
    + by apply Hok3.
    + by apply (Hsl c e).
  - intros h Hh (t & m & Et & Em & Hv).
    rewrite (logged_from_table _ _ _ Hlog) in Et.
    assert (label B h = t) as Hlab.
    { unfold label. by rewrite <- Htab, Et. }
    rewrite Hget in Em.
    assert (b ≠ h ∧ k ≠ h) as [Hbh Hkh] by (clear - Hh Hb; lia).
    assert (∀ far, vget (mates_ nl) h = Some far → far ≠ h → far ≠ -1 →
                   t ≠ 0) as Hfar.
    { intros far Hf Hfh Hf1 ->.
      apply (Hret h Hh). exists 0, far. split; [done|].
      split; [done|]. left. done. }
    repeat case_decide; simplify_eq; try done.
    + (* h was the far end of b's chain *)
      assert (label B h ≠ 0) as Hnz_h.
      { apply (Hfar b Hb1); [done|clear - Hrb; lia]. }
      destruct Hv as [[Hz _]|[_ Heq]]; [done|].
      by apply Hends.
    + (* h was the far end of k's chain *)
      assert (label B h ≠ 0) as Hnz_h.
      { apply (Hfar k Ha1); [done|clear - Hrk; lia]. }
      destruct Hv as [[Hz _]|[_ Heq]]; [done|].
      done.
    + apply (Hret h Hh). by exists (label B h), m.
Qed.

(** ** Pairs of numbered cells *)

(** A list without repetition that a map without fixed point sends into
    itself, twice the map being the identity, has an even length. *)
Lemma involution_even {A : Type} (f : A → A) (n : nat) :
  ∀ l : list A,
    length l = n → NoDup l →
    (∀ a, a ∈ l → f a ∈ l ∧ f a ≠ a ∧ f (f a) = a) →
    Nat.Even n.
Proof.
  induction n as [n IH] using lt_wf_ind. intros l Hlen Hnd Hf.
  destruct l as [|a l]; [simpl in Hlen; subst; by exists 0%nat|].
  destruct (Hf a) as (Hfa & Hne & Hinv); [by left|].
  apply elem_of_cons in Hfa as [?|Hfa]; [done|].
  apply list_elem_of_split in Hfa as (l1 & l2 & ->).
  apply NoDup_cons in Hnd as [Ha Hnd].
  pose proof Hnd as Hnd'. apply NoDup_app in Hnd' as (Hnd1 & Hdisj & Hnd2).
  apply NoDup_cons in Hnd2 as [Hfa2 Hnd2].
  assert (Nat.Even (length (l1 ++ l2))) as [m Hm].
  { apply (IH (length (l1 ++ l2))) with (l := l1 ++ l2); [|done| |].
    - simpl in Hlen. rewrite !length_app in *. simpl in Hlen. lia.
    - apply NoDup_app. split; [done|]. split; [|done].
      intros x Hx1 Hx2. apply (Hdisj x Hx1). by right.
    - intros b Hb.
      assert (b ∈ l1 ++ f a :: l2) as Hb'.
      { apply elem_of_app in Hb as [?|?]; apply elem_of_app; [by left|].
        right. by right. }
      assert (b ≠ a) as Hba by (intros ->; done).
      assert (b ≠ f a) as Hbfa.
      { intros ->. apply elem_of_app in Hb as [Hb|Hb]; [|done].
        apply (Hdisj _ Hb). by left. }
      destruct (Hf b) as (Hfb & Hneb & Hinvb); [by right|].
      split; [|done].
      apply elem_of_cons in Hfb as [Hfb|Hfb].
      { exfalso. apply Hbfa. by rewrite <- Hfb, Hinvb. }
      apply elem_of_app in Hfb as [Hfb|Hfb]; apply elem_of_app; [by left|].
      apply elem_of_cons in Hfb as [Hfb|Hfb]; [|by right].
      exfalso. apply Hba. by rewrite <- Hinvb, Hfb, Hinv. }
  exists (S m). simpl in Hlen. rewrite !length_app in *. simpl in Hlen. lia.
Qed.

(** When every cell has passed the check of the newly fixed cells, the cells
    with a given number are paired off by the mates. *)
Lemma checked_board_pairs B nl v :
  Forall (λ t, 0 <= t) (table_ B) →
  length (table_ B) = Z.to_nat (size_ B) →
  mates_inv B (size_ B) (size_ B) nl →
  0 < v →
  Nat.Even (length (cells_with B v)).
Proof.
  intros Hpos Hlt [Hbd Hlen Hsym _ Hop Hsl Hret] Hv.
  assert (table_ nl = table_ B) as Htab by (by destruct Hbd as (_&_&_&_&_&?&_)).
  apply (involution_even (λ c, default c (vget (mates_ nl) c)) _ (cells_with B v));
    [done|apply NoDup_filter, NoDup_seqZ|].
  intros c [Hlab Hc]%list_elem_of_filter. apply elem_of_seqZ in Hc.
  destruct (vget_is_Some (mates_ nl) c) as [e He]; [lia|].
  rewrite He. simpl.
  assert (vget (table_ nl) c = Some v) as Htc.
  { rewrite Htab, vget_table_label by lia. by rewrite Hlab. }
  assert (e ≠ -1) as He1.
  { intros ->. apply (Hop c); [lia|done]. }
  assert (e ≠ c) as Hec.
  { intros ->. apply (Hret c); [lia|]. exists v, c.
    split; [done|]. split; [done|]. right. split; [lia|done]. }
  destruct (symmetric_back _ _ _ Hsym He He1) as [Hback Hre].
  rewrite Hback. simpl. split; [|done].
  apply list_elem_of_filter. split; [|apply elem_of_seqZ; lia].
  pose proof (label_nonneg B e Hpos) as Hnn.
  destruct (decide (label B e = 0)) as [Hz|Hnz].
  - exfalso. apply (Hret e); [lia|]. exists 0, c.
    split; [rewrite Htab, vget_table_label by lia; by rewrite Hz|].
    split; [done|]. left. repeat split; [congruence|lia].
  - rewrite <- Hlab. symmetry. apply (Hsl c e); try done; lia.
Qed.

(** ** A board with an unpaired number has no solution *)

Lemma mates_inv_frame B u r nl nl' :
  mates_inv B u r nl → mates_ nl' = mates_ nl → same_board nl nl' →
  mates_inv B u r nl'.
Proof.
  intros [Hbd Hlen Hsym Hun Hop Hsl Hret] Hm Hsb.
  split; rewrite ?Hm; try done.
  - by eapply same_board_trans.
  - intros h Hh Hv. apply (Hret h Hh).
    apply (retire_violation_frame nl nl'); [|by rewrite Hm|done].
    by destruct Hsb as (_&_&_&_&_&?&_).
Qed.

Lemma mates_inv_weaken B u r u' r' nl :
  mates_inv B u r nl → u <= u' → r' <= r → mates_inv B u' r' nl.
Proof.
  intros [Hbd Hlen Hsym Hun Hop Hsl Hret] Hu Hr. split; try done.
  - intros c Hc. apply Hun. lia.
  - intros h Hh. apply Hret. lia.
Qed.

Lemma pending_init nl : pending nl (mate_stack_ nl) (mates_ nl) [].
Proof. unfold pending. simpl. repeat split. constructor. Qed.

Lemma pending_logged nl nl' S M p q :
  pending nl S M p → logged_from nl nl' q → pending nl' S M (q ++ p).
Proof.
  intros (Hs & Hu & Hl & Hr) (Hs' & Hu' & Hl' & Hr' & _).
  unfold pending. repeat split.
  - rewrite Hs', Hs. by rewrite app_assoc.
  - by rewrite undo_app, Hu', Hu.
  - congruence.
  - apply Forall_app. split; [|done]. by rewrite <- Hl.
Qed.

Lemma pending_frame nl nl' S M p :
  pending nl S M p → mates_ nl' = mates_ nl → mate_stack_ nl' = mate_stack_ nl →
  pending nl' S M p.
Proof. unfold pending. intros H -> ->. done. Qed.

Lemma RevertMates_pending nl S M p :
  pending nl S M p →
  RevertMates (length S) nl = Some (set_mates M (set_mate_stack S nl)).
Proof.
  intros (Hs & Hu & Hl & Hr). unfold RevertMates.
  rewrite Hs, revert_loop_pushed by (by rewrite Hl). simpl. by rewrite Hu.
Qed.

Lemma memo_zero_frame nl nl' : memo_ nl' = memo_ nl → memo_zero nl → memo_zero nl'.
Proof. unfold memo_zero. by intros ->. Qed.

Lemma logged_from_memo nl nl' p : logged_from nl nl' p → memo_ nl' = memo_ nl.
Proof. intros (_ & _ & _ & _ & ->). done. Qed.

Lemma mark_connected_y_spec k b nl :
  0 <= k < Z.of_nat (length (connected_y_ nl)) →
  ∃ nl', mark_connected_y k b nl = Some nl' ∧
         mates_ nl' = mates_ nl ∧ mate_stack_ nl' = mate_stack_ nl ∧
         memo_ nl' = memo_ nl ∧ same_board nl nl'.
Proof.
  intros Hk. unfold mark_connected_y. rewrite vset_is_Some by done. simpl.
  eexists. split; [done|]. unfold same_board. simpl.
  rewrite length_insert. repeat split.
Qed.

Lemma mark_connected_x_spec k b nl :
  0 <= k < Z.of_nat (length (connected_x_ nl)) →
  ∃ nl', mark_connected_x k b nl = Some nl' ∧
         mates_ nl' = mates_ nl ∧ mate_stack_ nl' = mate_stack_ nl ∧
         memo_ nl' = memo_ nl ∧ same_board nl nl'.
Proof.
  intros Hk. unfold mark_connected_x. rewrite vset_is_Some by done. simpl.
  eexists. split; [done|]. unfold same_board. simpl.
  rewrite length_insert. repeat split.
Qed.

Lemma same_board_cy_len B nl :
  same_board B nl → length (connected_y_ nl) = length (connected_y_ B).
Proof. by intros (_&_&_&_&_&_&_&_&_&?&_). Qed.

Lemma same_board_cx_len B nl :
  same_board B nl → length (connected_x_ nl) = length (connected_x_ B).
Proof. by intros (_&_&_&_&_&_&_&_&?&_). Qed.

Lemma same_board_memo_len B nl :
  same_board B nl → length (memo_ nl) = length (memo_ B).
Proof. by intros (_&_&_&_&_&_&_&_&_&_&?). Qed.

Lemma mates_inv_table_len width height B u r nl :
  board_ready width height B → mates_inv B u r nl →
  length (table_ nl) = length (mates_ nl) ∧
  Z.of_nat (length (mates_ nl)) = size_ B ∧ 0 <= size_ B.
Proof.
  intros Hbr Hinv.
  pose proof (mi_board _ _ _ _ Hinv) as (_&_&_&_&_&Ht&_).
  pose proof (ix_size _ _ _ (br_indexed _ _ _ Hbr)) as Hsz.
  pose proof (ix_width_pos _ _ _ (br_indexed _ _ _ Hbr)).
  pose proof (ix_height_pos _ _ _ (br_indexed _ _ _ Hbr)).
  assert (0 <= size_ B) by nia.
  rewrite Ht, (br_table_len _ _ _ Hbr), (mi_length _ _ _ _ Hinv). lia.
Qed.

Lemma Connect_upper_zero width height B k s up Srec nl S M p :
  board_ready width height B →
  0 <= s → s <= up < k → k < size_ B →
  (∀ nl, mates_inv B (k + 1) s nl → memo_zero nl →
         returns_zero nl (Srec (to_short (k + 1)) nl)) →
  mates_inv B (k + 1) s nl → memo_zero nl → pending nl S M p →
  ∃ nl' p', Connect_upper Srec k up nl = Some (0, nl') ∧
            pending nl' S M p' ∧ same_board nl nl' ∧ memo_zero nl'.
Proof.
  intros Hbr Hs Hup Hk IH Hinv Hmz Hpend.
  destruct (mates_inv_table_len _ _ _ _ _ _ Hbr Hinv) as (Htl & Hml & Hsz).
  destruct (UniteMates_total nl k up (mi_symmetric _ _ _ _ Hinv) Htl)
    as [[ok nl1] HU]; [lia..|].
  unfold Connect_upper. rewrite HU. simpl.
  destruct (UniteMates_logged _ _ _ _ _ HU) as [q Hlog].
  pose proof (pending_logged _ _ _ _ _ _ Hpend Hlog) as Hpend1.
  pose proof (logged_from_same_board _ _ _ Hlog) as Hsb1.
  pose proof (memo_zero_frame _ _ (logged_from_memo _ _ _ Hlog) Hmz) as Hmz1.
  destruct ok; [|by exists nl1, (q ++ p)].
  pose proof (UniteMates_keeps_inv B k s up nl nl1
                (br_table_len _ _ _ Hbr) Hs Hup Hk Hinv HU) as Hinv1.
  destruct (mark_connected_y_spec k true nl1)
    as (nl2 & -> & Hm2 & Hst2 & Hme2 & Hsb2).
  { rewrite (same_board_cy_len B) by apply Hinv1.
    rewrite (br_cy_len _ _ _ Hbr). lia. }
  simpl.
  destruct (IH nl2) as (nl3 & -> & Hm3 & Hst3 & Hsb3 & Hmz3).
  { by apply (mates_inv_frame B _ _ nl1). }
  { by apply (memo_zero_frame nl1). }
  simpl.
  destruct (mark_connected_y_spec k false nl3)
    as (nl4 & -> & Hm4 & Hst4 & Hme4 & Hsb4).
  { rewrite (same_board_cy_len nl2) by done.
    rewrite (same_board_cy_len nl1) by done.
    rewrite (same_board_cy_len B) by apply Hinv1.
    rewrite (br_cy_len _ _ _ Hbr). lia. }
  simpl. exists nl4, (q ++ p). split; [done|]. split; [|split].
  - apply (pending_frame nl1); [done|congruence..].
  - apply (same_board_trans _ nl1); [done|].
    apply (same_board_trans _ nl2); [done|].
    by apply (same_board_trans _ nl3).
  - by apply (memo_zero_frame nl3).
Qed.

Lemma upper_block_zero width height B k s up Srec nl S M :
  board_ready width height B →
  up = -1 ∨ (0 <= s ∧ s <= up < k) → k < size_ B →
  (∀ nl, mates_inv B (k + 1) s nl → memo_zero nl →
         returns_zero nl (Srec (to_short (k + 1)) nl)) →
  mates_inv B (k + 1) s nl → memo_zero nl →
  mate_stack_ nl = S → mates_ nl = M →
  ∃ nl',
    (if 0 <=? up then
       '(c, nl) ← Connect_upper Srec k up nl;
       nl ← RevertMates (length S) nl;
       Some (c, nl)
     else Some (0, nl)) = Some (0, nl') ∧
    mates_ nl' = M ∧ mate_stack_ nl' = S ∧ same_board nl nl' ∧ memo_zero nl'.
Proof.
  intros Hbr Hup Hk IH Hinv Hmz HS HM.
  destruct (Z.leb_spec 0 up) as [Hpos|Hneg].
  - destruct Hup as [->|[Hs Hup]]; [lia|].
    destruct (Connect_upper_zero width height B k s up Srec nl S M [])
      as (nl1 & p1 & -> & Hpend & Hsb & Hmz1); try done.
    { subst S M. apply pending_init. }
    simpl. rewrite (RevertMates_pending _ _ _ _ Hpend). simpl.
    eexists. split; [done|]. simpl. split; [done|]. split; [done|].
    split; [|done]. destruct Hsb as (?&?&?&?&?&?&?&?&?&?&?).
    unfold same_board. simpl. done.
  - exists nl. split; [done|]. split; [done|]. split; [done|].
    split; [apply same_board_refl|done].
Qed.

Lemma left_block_zero width height B k s up left Srec nl S M :
  board_ready width height B →
  up = -1 ∨ (0 <= s ∧ s <= up < k) →
  left = -1 ∨ (0 <= s ∧ s <= left < k) → k < size_ B →
  (∀ nl, mates_inv B (k + 1) s nl → memo_zero nl →
         returns_zero nl (Srec (to_short (k + 1)) nl)) →
  mates_inv B (k + 1) s nl → memo_zero nl →
  mate_stack_ nl = S → mates_ nl = M →
  ∃ nl',
    (if 0 <=? left then
       '(ok, nl) ← UniteMates k left nl;
       '(c, nl) ←
         (if ok : bool then
            nl ← mark_connected_x k true nl;
            '(c, nl) ← Srec (to_short (k + 1)) nl;
            '(c', nl) ←
              (if 0 <=? up
               then Connect_upper Srec k up nl
               else Some (0, nl));
            nl ← mark_connected_x k false nl;
            Some (c + c', nl)
          else Some (0, nl));
       nl ← RevertMates (length S) nl;
       Some (c, nl)
     else Some (0, nl)) = Some (0, nl') ∧
    mates_ nl' = M ∧ mate_stack_ nl' = S ∧ same_board nl nl' ∧ memo_zero nl'.
Proof.
  intros Hbr Hup Hleft Hk IH Hinv Hmz HS HM.
  destruct (Z.leb_spec 0 left) as [Hpos|Hneg].
  2:{ exists nl. split; [done|]. split; [done|]. split; [done|].
      split; [apply same_board_refl|done]. }
  destruct Hleft as [->|[Hs Hleft]]; [lia|].
  destruct (mates_inv_table_len _ _ _ _ _ _ Hbr Hinv) as (Htl & Hml & Hsz).
  destruct (UniteMates_total nl k left (mi_symmetric _ _ _ _ Hinv) Htl)
    as [[ok nl1] HU]; [lia..|].
  rewrite HU. simpl.
  destruct (UniteMates_logged _ _ _ _ _ HU) as [q Hlog].
  assert (pending nl S M []) as Hpend0 by (subst S M; apply pending_init).
  pose proof (pending_logged _ _ _ _ _ _ Hpend0 Hlog) as Hpend1.
  pose proof (logged_from_same_board _ _ _ Hlog) as Hsb1.
  pose proof (memo_zero_frame _ _ (logged_from_memo _ _ _ Hlog) Hmz) as Hmz1.
  assert (∀ nl2 p2, pending nl2 S M p2 → same_board nl nl2 → memo_zero nl2 →
            ∃ nl', RevertMates (length S) nl2 ≫= (λ nl, Some (0, nl))
                   = Some (0, nl') ∧
                   mates_ nl' = M ∧ mate_stack_ nl' = S ∧
                   same_board nl nl' ∧ memo_zero nl') as Hrevert.
  { intros nl2 p2 Hp2 Hsb2 Hmz2.
    rewrite (RevertMates_pending _ _ _ _ Hp2). simpl.
    eexists. split; [done|]. simpl. split; [done|]. split; [done|].
    split; [|done]. destruct Hsb2 as (?&?&?&?&?&?&?&?&?&?&?).
    unfold same_board. simpl. done. }
  destruct ok; [|simpl; by apply (Hrevert nl1 (q ++ []))].
  pose proof (UniteMates_keeps_inv B k s left nl nl1
                (br_table_len _ _ _ Hbr) Hs Hleft Hk Hinv HU) as Hinv1.
  destruct (mark_connected_x_spec k true nl1)
    as (nl2 & -> & Hm2 & Hst2 & Hme2 & Hsb2).
  { rewrite (same_board_cx_len B) by apply Hinv1.
    rewrite (br_cx_len _ _ _ Hbr). lia. }
  simpl.
  destruct (IH nl2) as (nl3 & -> & Hm3 & Hst3 & Hsb3 & Hmz3).
  { by apply (mates_inv_frame B _ _ nl1). }
  { by apply (memo_zero_frame nl1). }
  simpl.
  assert (mates_inv B (k + 1) s nl3) as Hinv3.
  { apply (mates_inv_frame B _ _ nl1); [done|congruence|].
    by apply (same_board_trans _ nl2). }
  assert (pending nl3 S M (q ++ [])) as Hpend3.
  { apply (pending_frame nl1); [done|congruence..]. }
  assert (∃ nl4 p4,
            (if 0 <=? up then Connect_upper Srec k up nl3 else Some (0, nl3))
            = Some (0, nl4) ∧ pending nl4 S M p4 ∧ same_board nl3 nl4 ∧
            memo_zero nl4) as (nl4 & p4 & -> & Hpend4 & Hsb4 & Hmz4).
  { destruct (Z.leb_spec 0 up) as [Hupos|Hupneg].
    - destruct Hup as [->|[_ Hup]]; [lia|].
      by apply (Connect_upper_zero width height B k s up Srec nl3 S M (q ++ [])).
    - exists nl3, (q ++ []). split; [done|]. split; [done|].
      split; [apply same_board_refl|done]. }
  simpl.
  assert (same_board nl nl4) as Hsb04.
  { apply (same_board_trans _ nl1); [done|].
    apply (same_board_trans _ nl2); [done|].
    by apply (same_board_trans _ nl3). }
  destruct (mark_connected_x_spec k false nl4)
    as (nl5 & -> & Hm5 & Hst5 & Hme5 & Hsb5).
  { rewrite (same_board_cx_len nl) by done.
    rewrite (same_board_cx_len B) by apply Hinv.
    rewrite (br_cx_len _ _ _ Hbr). lia. }
  simpl. apply (Hrevert nl5 p4).
  - by apply (pending_frame nl4).
  - by apply (same_board_trans _ nl4).
  - by apply (memo_zero_frame nl4).
Qed.

Lemma GetCellKey_same_board B nl x y :
  same_board B nl → GetCellKey x y nl = GetCellKey x y B.
Proof.
  intros (Hw&_&_&_&_&_&Hk&_). unfold GetCellKey. by rewrite Hw, Hk.
Qed.

Lemma Connect_zero width height B k s Srec nl :
  board_ready width height B →
  0 <= k < size_ B → vget (start_ B) k = Some s →
  (∀ nl, mates_inv B (k + 1) s nl → memo_zero nl →
         returns_zero nl (Srec (to_short (k + 1)) nl)) →
  mates_inv B (k + 1) s nl → memo_zero nl →
  returns_zero nl (Connect Srec k nl).
Proof.
  intros Hbr Hk Hstart IH Hinv Hmz.
  pose proof (br_indexed _ _ _ Hbr) as Hix.
  pose proof (ix_size _ _ _ Hix) as Hsz. rewrite Hsz in Hk.
  destruct (indexed_cell _ _ _ k Hix Hk) as (x & y & Hc & Hon & _).
  destruct (indexed_neighbours _ _ _ k x y Hix Hk Hc)
    as (_ & Hup & Hleft & _).
  pose proof (mi_board _ _ _ _ Hinv) as Hbd.
  assert (cell_x_ nl = cell_x_ B ∧ cell_y_ nl = cell_y_ B) as [Ecx Ecy].
  { by destruct Hbd as (_&_&_&?&?&_). }
  destruct Hc as [Hcx Hcy].
  unfold Connect. rewrite Ecx, Ecy, Hcx, Hcy. simpl.
  rewrite !(GetCellKey_same_board B nl) by done.
  assert (∃ left, (if 0 <? x then GetCellKey (x - 1) y B else Some (-1))
                  = Some left ∧ (left = -1 ∨ (0 <= s ∧ s <= left < k)))
    as (left & -> & Hl).
  { destruct (Z.ltb_spec 0 x) as [Hx|Hx]; [|by exists (-1); auto].
    destruct (Hleft Hx) as (left & s' & Hkl & Hs' & Hr).
    rewrite Hstart in Hs'. injection Hs' as <-. exists left.
    split; [done|]. right. lia. }
  assert (∃ up, (if 0 <? y then GetCellKey x (y - 1) B else Some (-1))
                = Some up ∧ (up = -1 ∨ (0 <= s ∧ s <= up < k)))
    as (up & -> & Hu).
  { destruct (Z.ltb_spec 0 y) as [Hy|Hy]; [|by exists (-1); auto].
    destruct (Hup Hy) as (up & Hku & Hs' & Hr).
    rewrite Hstart in Hs'. injection Hs' as Heq. exists up.
    split; [done|]. right. lia. }
  simpl. clear Hup Hleft.
  destruct (IH nl Hinv Hmz) as (nlA & -> & HmA & HsA & HsbA & HmzA).
  simpl.
  assert (mates_inv B (k + 1) s nlA) as HinvA
    by (by apply (mates_inv_frame B _ _ nl)).
  rewrite <- Hsz in Hk.
  destruct (upper_block_zero width height B k s up Srec nlA
              (mate_stack_ nl) (mates_ nl))
    as (nlC & -> & HmC & HsC & HsbC & HmzC); try done; [lia|].
  simpl.
  assert (mates_inv B (k + 1) s nlC) as HinvC.
  { apply (mates_inv_frame B _ _ nl); [done|done|].
    by apply (same_board_trans _ nlA). }
  destruct (left_block_zero width height B k s up left Srec nlC
              (mate_stack_ nl) (mates_ nl))
    as (nlE & -> & HmE & HsE & HsbE & HmzE); try done; [lia|].
  simpl. exists nlE. split; [done|]. split; [done|]. split; [done|].
  split; [|done].
  apply (same_board_trans _ nlA); [done|]. by apply (same_board_trans _ nlC).
Qed.

Lemma start_at width height B k :
  board_ready width height B → 0 <= k <= size_ B →
  ∃ s, vget (start_ B) k = Some s ∧ 0 <= s <= k ∧ (k = size_ B → s = k).
Proof.
  intros Hbr Hk. pose proof (br_indexed _ _ _ Hbr) as Hix.
  pose proof (ix_size _ _ _ Hix) as Hsz.
  destruct (decide (k = size_ B)) as [->|Hne].
  - exists (size_ B). rewrite Hsz at 1. rewrite (ix_start_end _ _ _ Hix).
    split; [by rewrite Hsz|]. split; [lia|done].
  - assert (0 <= k < width * height) as Hk' by lia.
    destruct (indexed_cell _ _ _ k Hix Hk') as (x & y & Hc & _).
    destruct (indexed_neighbours _ _ _ k x y Hix Hk' Hc)
      as (_ & _ & _ & s & Hs & Hr).
    exists s. split; [done|]. split; [done|]. intros ->. done.
Qed.

Lemma newly_fixed_spec width height B k nl :
  board_ready width height B → 0 <= k <= size_ B →
  mates_inv B k (retired_bound B k) nl →
  ∃ s dead,
    vget (start_ B) k = Some s ∧ 0 <= s <= k ∧ (k = size_ B → s = k) ∧
    newly_fixed_fail k nl = Some dead ∧
    (dead = false → mates_inv B k s nl).
Proof.
  intros Hbr Hk Hinv.
  destruct (start_at _ _ _ k Hbr Hk) as (s & Hs & Hrs & Hlast).
  pose proof (mi_board _ _ _ _ Hinv) as Hbd.
  assert (start_ nl = start_ B) as Est by (by destruct Hbd as (_&_&_&_&_&_&_&?&_)).
  destruct (mates_inv_table_len _ _ _ _ _ _ Hbr Hinv) as (Htl & Hml & Hsz).
  exists s. unfold newly_fixed_fail. rewrite Est.
  destruct (Z.ltb_spec 0 k) as [Hpos|Hzero].
  - destruct (start_at _ _ _ (k - 1) Hbr) as (lo & Hlo & Hrlo & _); [lia|].
    rewrite Hlo, Hs. simpl.
    destruct (hidden_loop_spec nl (Z.to_nat (s - lo)) lo) as (dead & -> & Hiff).
    { intros h Hh. rewrite Htl. clear - Hh Hrs Hrlo Hk Hml. lia. }
    exists dead. split; [done|]. split; [done|]. split; [done|].
    split; [done|]. intros ->.
    assert (retired_bound B k = lo) as Hrb.
    { unfold retired_bound. destruct (Z.eqb_spec k 0); [lia|].
      by rewrite Hlo. }
    rewrite Hrb in Hinv. destruct Hinv as [? ? ? ? ? ? Hret].
    split; try done. intros h Hh Hv.
    destruct (Z.lt_ge_cases h lo) as [Hlt|Hge].
    + apply (Hret h); [lia|done].
    + assert (false = true); [|done]. apply Hiff. exists h. split; [lia|done].
  - assert (k = 0) as -> by lia. exists false.
    assert (s = 0) as -> by lia.
    split; [done|]. split; [done|]. split; [done|]. split; [done|]. intros _.
    by replace (retired_bound B 0) with 0 in Hinv.
Qed.

Lemma memo_store_zero k h nl :
  0 <= k < Z.of_nat (length (memo_ nl)) → memo_zero nl →
  ∃ nl', memo_store k h 0 nl = Some nl' ∧
         mates_ nl' = mates_ nl ∧ mate_stack_ nl' = mate_stack_ nl ∧
         same_board nl nl' ∧ memo_zero nl'.
Proof.
  intros Hk Hmz. unfold memo_store.
  destruct (vget_is_Some (memo_ nl) k Hk) as [m Hm]. rewrite Hm. simpl.
  rewrite vset_is_Some by done. simpl. eexists. split; [done|]. simpl.
  split; [done|]. split; [done|]. split.
  - unfold same_board. simpl. rewrite length_insert. repeat split.
  - intros k' m' h' c' Hk' Hh'. simpl in Hk'.
    rewrite vget_insert in Hk' by done.
    destruct (decide (k = k')) as [<-|Hne]; [|by eapply Hmz].
    injection Hk' as <-.
    destruct (decide (h = h')) as [<-|Hneh].
    + rewrite lookup_insert_eq in Hh'. congruence.
    + rewrite lookup_insert_ne in Hh' by done. by eapply Hmz.
Qed.

Lemma Solve_zero width height B v :
  board_ready width height B → Forall (λ t, 0 <= t) (table_ B) →
  0 < v → Nat.Odd (length (cells_with B v)) →
  ∀ fuel k nl,
    size_ B - k < Z.of_nat fuel → 0 <= k <= size_ B →
    mates_inv B k (retired_bound B k) nl → memo_zero nl →
    returns_zero nl (Solve fuel k nl).
Proof.
  intros Hbr Hlabels Hv Hodd.
  pose proof (br_indexed _ _ _ Hbr) as Hix.
  pose proof (ix_size _ _ _ Hix) as Hsz.
  pose proof (ix_fits _ _ _ Hix) as Hfits.
  induction fuel as [|fuel IH]; intros k nl Hfuel Hk Hinv Hmz; [lia|].
  cbn [Solve].
  set (nl0 := if k =? 0 then set_solved false nl else nl).
  assert (mates_ nl0 = mates_ nl ∧ mate_stack_ nl0 = mate_stack_ nl ∧
          memo_ nl0 = memo_ nl ∧ same_board nl nl0) as (Em & Es & Eme & Hsb0).
  { unfold nl0. destruct (k =? 0); repeat split. }
  assert (mates_inv B k (retired_bound B k) nl0) as Hinv0
    by (by apply (mates_inv_frame B _ _ nl)).
  assert (memo_zero nl0) as Hmz0 by (by apply (memo_zero_frame nl)).
  clearbody nl0.
  destruct (newly_fixed_spec _ _ _ k nl0 Hbr Hk Hinv0)
    as (s & dead & Hs & Hrs & Hlast & -> & Hpass).
  simpl. destruct dead.
  { exists nl0. done. }
  specialize (Hpass eq_refl).
  pose proof (mi_board _ _ _ _ Hpass) as Hbd.
  assert (size_ nl0 = size_ B ∧ start_ nl0 = start_ B) as [Esz Est].
  { by destruct Hbd as (_&_&?&_&_&_&_&?&_). }
  unfold Solve_tail. rewrite Esz.
  destruct (Z.eqb_spec k (size_ B)) as [Hend|Hmore].
  - exfalso. rewrite (Hlast Hend), Hend in Hpass.
    apply (Nat.Even_Odd_False (length (cells_with B v))); [|done].
    apply (checked_board_pairs B nl0 v); try done; apply Hbr.
  - destruct (mates_inv_table_len _ _ _ _ _ _ Hbr Hpass) as (Htl & Hml & Hsz0).
    unfold mate_tuple. rewrite Est, Hs. simpl.
    destruct (slice (mates_ nl0) s k) as [tuple|] eqn:Esl.
    2:{ exfalso. unfold slice in Esl.
        destruct (Z.leb_spec 0 s), (Z.leb_spec s k),
          (Z.leb_spec k (Z.of_nat (length (mates_ nl0)))); simpl in Esl;
          try done; lia. }
    simpl.
    assert (0 <= k < Z.of_nat (length (memo_ nl0))) as Hkm.
    { rewrite (same_board_memo_len B) by done.
      rewrite (br_memo_len _ _ _ Hbr). lia. }
    destruct (vget_is_Some (memo_ nl0) k Hkm) as [m Hm]. rewrite Hm. simpl.
    destruct (m !! GetHash tuple) as [c|] eqn:Ehit.
    { rewrite (Hmz0 k m _ c Hm Ehit). exists nl0. done. }
    destruct (Connect_zero width height B k s (Solve fuel) nl0)
      as (nl1 & -> & Hm1 & Hs1 & Hsb1 & Hmz1); try done; try lia.
    { intros nl' Hinv' Hmz'. rewrite to_short_id by lia.
      apply IH; try done; try lia.
      replace (retired_bound B (k + 1)) with s; [done|].
      unfold retired_bound. destruct (Z.eqb_spec (k + 1) 0); [lia|].
      replace (k + 1 - 1) with k by lia. by rewrite Hs. }
    { apply (mates_inv_weaken B k s); [done|lia|lia]. }
    simpl.
    destruct (memo_store_zero k (GetHash tuple) nl1)
      as (nl2 & -> & Hm2 & Hs2 & Hsb2 & Hmz2); try done.
    { rewrite (same_board_memo_len nl0) by done. done. }
    simpl. exists nl2. split; [done|]. split; [congruence|].
    split; [congruence|]. split; [|done].
    apply (same_board_trans _ nl0); [done|].
    by apply (same_board_trans _ nl1).
Qed.

(** ** Reading the board *)

Lemma indexed_key_unique width height nl k k' x y :
  indexed width height nl →
  0 <= k < width * height → 0 <= k' < width * height →
  cell_at (cell_x_ nl) (cell_y_ nl) k x y →
  cell_at (cell_x_ nl) (cell_y_ nl) k' x y → k = k'.
Proof.
  intros Hix Hk Hk' Hc Hc'.
  destruct (indexed_cell _ _ _ k Hix Hk) as (x1 & y1 & Hc1 & _ & Hkey).
  destruct (indexed_cell _ _ _ k' Hix Hk') as (x2 & y2 & Hc2 & _ & Hkey').
  destruct (cell_at_fun _ _ _ _ _ _ _ Hc Hc1) as [<- <-].
  destruct (cell_at_fun _ _ _ _ _ _ _ Hc' Hc2) as [<- <-].
  congruence.
Qed.

Lemma read_cell_spec width height input nl1 y x s :
  indexed width height nl1 →
  width * height <= Z.of_nat (length input) →
  on_board width height x y →
  read_upto width height input nl1 (y * width + x) s →
  ∃ s', read_cell y x s = Some s' ∧
        read_upto width height input nl1 (y * width + x + 1) s'.
Proof.
  intros Hix Hin Hxy (Hinp & Hnl & Hlen & Htab).
  destruct s as [inp nl]. simpl in *.
  pose proof (position_range _ _ _ _ Hxy) as Hpos.
  destruct (vget_is_Some input (y * width + x)) as [value Hval]; [lia|].
  pose proof Hval as Hval'. apply vget_Some in Hval' as [_ Hlk].
  assert (inp = value :: drop (S (Z.to_nat (y * width + x))) input) as Hinp'.
  { rewrite Hinp. by apply drop_S. }
  destruct (indexed_key _ _ _ x y Hix Hxy) as (k & Hk & Hc & Hkey).
  unfold read_cell. simpl. rewrite Hinp'. unfold Cell_assign.
  assert (GetCellKey x y nl = Some k) as ->.
  { rewrite Hnl. exact Hkey. }
  simpl. rewrite vset_is_Some by lia. simpl.
  eexists. split; [done|]. unfold read_upto. simpl.
  split; [f_equal; lia|]. split; [by rewrite Hnl|].
  split; [by rewrite length_insert|].
  intros k' x' y' Hk' Hc' Hlt.
  destruct (decide (k' = k)) as [->|Hne].
  - destruct (cell_at_fun _ _ _ _ _ _ _ Hc Hc') as [<- <-].
    rewrite vget_insert_eq by lia. by rewrite Hval.
  - rewrite vget_insert_ne by lia. apply Htab; try done.
    destruct (decide (y' * width + x' = y * width + x)) as [Heq|]; [|lia].
    exfalso. apply Hne.
    destruct (indexed_cell _ _ _ k' Hix Hk') as (x2 & y2 & Hc2 & Hon2 & _).
    destruct (cell_at_fun _ _ _ _ _ _ _ Hc' Hc2) as [<- <-].
    destruct (position_inj _ _ _ _ _ _ Hon2 Hxy Heq) as [-> ->].
    by apply (indexed_key_unique width height nl1 k' k x y).
Qed.

Lemma read_table_spec width height input nl1 :
  indexed width height nl1 →
  length (table_ nl1) = Z.to_nat (width * height) →
  width * height <= Z.of_nat (length input) →
  ∃ T,
    read_table input nl1 =
      Some (drop (Z.to_nat (width * height)) input, set_table T nl1) ∧
    length T = Z.to_nat (width * height) ∧
    ∀ k x y, 0 <= k < width * height →
             cell_at (cell_x_ nl1) (cell_y_ nl1) k x y →
             vget T k = Some (to_char (default 0 (vget input (y * width + x)))).
Proof.
  intros Hix Hlen Hin.
  pose proof (ix_width _ _ _ Hix) as Hw. pose proof (ix_height _ _ _ Hix) as Hh.
  pose proof (ix_width_pos _ _ _ Hix) as Hwp.
  pose proof (ix_height_pos _ _ _ Hix) as Hhp.
  unfold read_table. rewrite Hh.
  destruct (for_loop_inv
              (λ y s, read_upto width height input nl1 (y * width) s)
              read_row (Z.to_nat height) 0 (input, nl1))
    as ([inp nl] & Hrun & Hinp & Hnl & Hlen' & Htab).
  - unfold read_upto. simpl. split; [done|]. split; [by destruct nl1|].
    split; [done|]. intros k x y Hk Hc Hlt.
    destruct (indexed_cell _ _ _ k Hix Hk) as (x' & y' & Hc' & Hon & _).
    destruct (cell_at_fun _ _ _ _ _ _ _ Hc Hc') as [<- <-].
    pose proof (position_range _ _ _ _ Hon). lia.
  - intros y s Hy Hs. unfold read_row.
    assert (width_ (snd s) = width) as ->.
    { destruct Hs as (_ & -> & _). done. }
    destruct (for_loop_inv
                (λ x s', read_upto width height input nl1 (y * width + x) s')
                (read_cell y) (Z.to_nat width) 0 s) as (s' & Hrun' & Hs').
    + by rewrite Z.add_0_r.
    + intros x s1 Hx Hs1.
      replace (y * width + (x + 1)) with (y * width + x + 1) by lia.
      apply read_cell_spec; try done. unfold on_board. lia.
    + exists s'. split; [done|].
      replace ((y + 1) * width) with (y * width + (0 + Z.of_nat (Z.to_nat width)))
        by lia.
      done.
  - simpl in *. exists (table_ nl). rewrite Hrun.
    replace (Z.to_nat ((0 + Z.of_nat (Z.to_nat height)) * width))
      with (Z.to_nat (width * height)) in Hinp by lia.
    rewrite Hinp, <- Hnl. split; [done|]. split; [done|].
    intros k x y Hk Hc. apply Htab; try done.
    destruct (indexed_cell _ _ _ k Hix Hk) as (x' & y' & Hc' & Hon & _).
    destruct (cell_at_fun _ _ _ _ _ _ _ Hc Hc') as [<- <-].
    pose proof (position_range _ _ _ _ Hon). lia.
Qed.

(** ** Counting a number on the board *)

Lemma to_char_id n : -128 <= n <= 127 → to_char n = n.
Proof.
  intros H. unfold to_char, wrap_signed.
  change (2 ^ (8 - 1)) with 128. change (2 ^ 8) with 256.
  rewrite Z.mod_small; lia.
Qed.

Lemma filter_ext_in {A : Type} (P Q : A → Prop)
    `{!∀ x, Decision (P x), !∀ x, Decision (Q x)} (l : list A) :
  (∀ x, x ∈ l → (P x ↔ Q x)) → filter P l = filter Q l.
Proof.
  induction l as [|a l IH]; intros Hiff; [done|].
  rewrite !filter_cons.
  rewrite IH by (intros x Hx; apply Hiff; by right).
  destruct (decide (P a)) as [HP|HP], (decide (Q a)) as [HQ|HQ]; try done.
  - exfalso. apply HQ. apply Hiff; [by left|done].
  - exfalso. apply HP. apply Hiff; [by left|done].
Qed.

Lemma count_by_index (l : list Z) (v : Z) :
  length (filter (λ p, default 0 (vget l p) = v) (seqZ 0 (Z.of_nat (length l))))
  = length (filter (λ t, t = v) l).
Proof.
  induction l as [|x l IH] using rev_ind; [done|].
  rewrite length_app. simpl length.
  replace (length l + 1)%nat with (S (length l)) by lia.
  rewrite seqZ_S, !filter_app, !length_app. f_equal.
  - rewrite <- IH. f_equal. apply filter_ext_in.
    intros p Hp. apply elem_of_seqZ in Hp.
    unfold vget. destruct (Z.leb_spec 0 p); [|lia].
    rewrite lookup_app_l by lia. done.
  - assert (vget (l ++ [x]) (0 + Z.of_nat (length l)) = Some x) as Hx.
    { apply vget_Some. split; [lia|].
      replace (Z.to_nat (0 + Z.of_nat (length l))) with (length l) by lia.
      rewrite lookup_app_r by lia. by rewrite Nat.sub_diag. }
    rewrite !filter_cons, !filter_nil, Hx. simpl.
    by destruct (decide (x = v)).
Qed.

Lemma inj_length_le (f : Z → Z) (l k : list Z) :
  NoDup l →
  (∀ a b, a ∈ l → b ∈ l → f a = f b → a = b) →
  (∀ a, a ∈ l → f a ∈ k) →
  (length l <= length k)%nat.
Proof.
  intros Hnd Hinj Hin. rewrite <- (length_fmap f l).
  apply submseteq_length, NoDup_submseteq.
  - by apply NoDup_fmap_2_strong.
  - intros y (a & -> & Ha)%list_elem_of_fmap. by apply Hin.
Qed.

Lemma position_of_cell width height B k x y :
  indexed width height B →
  cell_at (cell_x_ B) (cell_y_ B) k x y → position_of B k = y * width + x.
Proof.
  intros Hix [Hx Hy]. unfold position_of.
  by rewrite Hx, Hy, (ix_width _ _ _ Hix).
Qed.

Lemma key_at_position width height B x y :
  indexed width height B → on_board width height x y →
  0 <= key_at B (y * width + x) < width * height ∧
  cell_at (cell_x_ B) (cell_y_ B) (key_at B (y * width + x)) x y.
Proof.
  intros Hix Hxy. destruct (indexed_key _ _ _ x y Hix Hxy) as (k & Hk & Hc & Hkey).
  rewrite (GetCellKey_on_board width height) in Hkey;
    [|apply Hix..|done].
  unfold key_at. rewrite Hkey. done.
Qed.

Lemma board_count width height B input v :
  indexed width height B →
  (∀ k x y, 0 <= k < width * height →
            cell_at (cell_x_ B) (cell_y_ B) k x y →
            vget (table_ B) k =
              Some (to_char (default 0 (vget input (y * width + x))))) →
  width * height <= Z.of_nat (length input) →
  Forall (λ t, 0 <= t <= 127) (take (Z.to_nat (width * height)) input) →
  length (cells_with B v) =
  length (filter (λ t, t = v) (take (Z.to_nat (width * height)) input)).
Proof.
  intros Hix Htab Hin Hrange.
  pose proof (ix_size _ _ _ Hix) as Hsz.
  pose proof (ix_width_pos _ _ _ Hix) as Hwp.
  pose proof (ix_height_pos _ _ _ Hix) as Hhp.
  assert (0 <= width * height) as Hn by nia.
  set (inp := take (Z.to_nat (width * height)) input) in *.
  assert (length inp = Z.to_nat (width * height)) as Hlen.
  { unfold inp. rewrite length_take. lia. }
  rewrite <- count_by_index, Hlen, Z2Nat.id by done.
  assert (∀ k x y, 0 <= k < width * height →
                   cell_at (cell_x_ B) (cell_y_ B) k x y →
                   label B k = default 0 (vget inp (y * width + x))) as Hlab.
  { intros k x y Hk Hc. unfold label. rewrite (Htab k x y Hk Hc). simpl.
    destruct (indexed_cell _ _ _ k Hix Hk) as (x' & y' & Hc' & Hon & _).
    destruct (cell_at_fun _ _ _ _ _ _ _ Hc Hc') as [<- <-].
    pose proof (position_range _ _ _ _ Hon) as Hp.
    destruct (vget_is_Some inp (y * width + x)) as [t Ht]; [lia|].
    rewrite Ht. simpl.
    assert (vget input (y * width + x) = Some t) as ->.
    { apply vget_Some in Ht as [H0 Ht]. apply vget_Some. split; [done|].
      unfold inp in Ht. rewrite lookup_take_lt in Ht by lia. done. }
    simpl. apply to_char_id.
    apply vget_Some in Ht as [_ Ht].
    rewrite Forall_lookup in Hrange. specialize (Hrange _ _ Ht). simpl in Hrange.
    lia. }
  unfold cells_with. rewrite Hsz.
  apply Nat.le_antisymm.
  - apply (inj_length_le (position_of B)).
    + apply NoDup_filter, NoDup_seqZ.
    + intros a b [_ Ha]%list_elem_of_filter [_ Hb]%list_elem_of_filter Heq.
      apply elem_of_seqZ in Ha, Hb.
      destruct (indexed_cell _ _ _ a Hix) as (xa & ya & Hca & Hona & _); [lia|].
      destruct (indexed_cell _ _ _ b Hix) as (xb & yb & Hcb & Honb & _); [lia|].
      rewrite (position_of_cell _ _ _ _ _ _ Hix Hca) in Heq.
      rewrite (position_of_cell _ _ _ _ _ _ Hix Hcb) in Heq.
      destruct (position_inj _ _ _ _ _ _ Hona Honb Heq) as [-> ->].
      apply (indexed_key_unique width height B a b xb yb); try done; lia.
    + intros a [Hv Ha]%list_elem_of_filter. apply elem_of_seqZ in Ha.
      destruct (indexed_cell _ _ _ a Hix) as (xa & ya & Hca & Hona & _); [lia|].
      rewrite (position_of_cell _ _ _ _ _ _ Hix Hca).
      pose proof (position_range _ _ _ _ Hona).
      apply list_elem_of_filter. split; [|apply elem_of_seqZ; lia].
      rewrite <- (Hlab a) by (done || lia). done.
  - apply (inj_length_le (key_at B)).
    + apply NoDup_filter, NoDup_seqZ.
    + intros p q [_ Hp]%list_elem_of_filter [_ Hq]%list_elem_of_filter Heq.
      apply elem_of_seqZ in Hp, Hq.
      destruct (position_decode width height p) as (xp & yp & Honp & ->);
        [done|lia|].
      destruct (position_decode width height q) as (xq & yq & Honq & ->);
        [done|lia|].
      destruct (key_at_position _ _ _ _ _ Hix Honp) as [_ Hcp].
      destruct (key_at_position _ _ _ _ _ Hix Honq) as [_ Hcq].
      rewrite Heq in Hcp.
      by destruct (cell_at_fun _ _ _ _ _ _ _ Hcp Hcq) as [-> ->].
    + intros p [Hv Hp]%list_elem_of_filter. apply elem_of_seqZ in Hp.
      destruct (position_decode width height p) as (xp & yp & Honp & ->);
        [done|lia|].
      destruct (key_at_position _ _ _ _ _ Hix Honp) as [Hk Hcp].
      apply list_elem_of_filter. split; [|apply elem_of_seqZ; lia].
      rewrite (Hlab _ xp yp) by done. done.
Qed.

Lemma indexed_set_table width height T nl :
  indexed width height nl → indexed width height (set_table T nl).
Proof. intros []. by split. Qed.

(** The board as read is ready to be searched, and starts the search in a
    state that has the invariant, whatever the numbers read; the table holds
    the numbers of the input, narrowed to the type of a cell. *)
Lemma board_set_up width height input :
  0 < width → 0 < height → width * height <= 32767 →
  width * height <= Z.of_nat (length input) →
  ∃ nl0 nl1 B,
    new_NumberLink width height = Some nl0 ∧
    Initialize nl0 = Some nl1 ∧
    read_table input nl1 = Some (drop (Z.to_nat (width * height)) input, B) ∧
    board_ready width height B ∧
    mates_inv B 0 (retired_bound B 0) B ∧ memo_zero B ∧
    ∀ k x y, 0 <= k < width * height →
             cell_at (cell_x_ B) (cell_y_ B) k x y →
             vget (table_ B) k =
               Some (to_char (default 0 (vget input (y * width + x)))).
Proof.
  intros Hw Hh Hfit Hin.
  destruct (Initialize_spec width height Hw Hh Hfit)
    as (nl0 & nl1 & Hnew & Hinit & Hix & Hfresh & Htab0).
  pose proof (ix_size _ _ _ Hix) as Hsz.
  assert (0 <= width * height) as Hn by nia.
  destruct (read_table_spec width height input nl1 Hix) as (T & Hread & HlT & HT);
    [by rewrite Htab0, length_replicate|done|].
  exists nl0, nl1, (set_table T nl1).
  split; [done|]. split; [done|]. split; [done|].
  pose proof (indexed_set_table width height T nl1 Hix) as HixB.
  destruct Hfresh as [Hid Hlm Hst Hlt Hlcx Hlcy Hmemo].
  split; [|split; [|split; [|done]]].
  - split; simpl; try done; try congruence.
    by rewrite Hmemo, length_replicate.
  - split; simpl.
    + apply same_board_refl.
    + done.
    + apply identity_symmetric. intros c Hc. apply Hid. lia.
    + intros c Hc. apply Hid. lia.
    + intros c _ Hc. pose proof (vget_range _ _ _ Hc) as Hr.
      rewrite Hid in Hc by lia. injection Hc as Hc. lia.
    + intros c e Hce _ _ _. pose proof (vget_range _ _ _ Hce) as Hr.
      rewrite Hid in Hce by lia. by injection Hce as ->.
    + intros c Hc. unfold retired_bound in Hc. simpl in Hc. lia.
  - intros k m h c Hk Hm. simpl in Hk. rewrite Hmemo in Hk.
    apply vget_Some in Hk as [_ Hk]. apply lookup_replicate in Hk as [-> _].
    by rewrite lookup_empty in Hm.
Qed.

(** What holds of every number of the input, once narrowed, holds of every
    number on the board. *)
Lemma board_labels width height B input (P : Z → Prop) :
  board_ready width height B →
  (∀ k x y, 0 <= k < width * height →
            cell_at (cell_x_ B) (cell_y_ B) k x y →
            vget (table_ B) k =
              Some (to_char (default 0 (vget input (y * width + x))))) →
  width * height <= Z.of_nat (length input) →
  Forall (λ t, P (to_char t)) (take (Z.to_nat (width * height)) input) →
  Forall P (table_ B).
Proof.
  intros Hbr HT Hin Hrange.
  pose proof (br_indexed _ _ _ Hbr) as Hix.
  pose proof (ix_size _ _ _ Hix) as Hsz.
  pose proof (br_table_len _ _ _ Hbr) as Hlen.
  apply Forall_lookup. intros i t Hi.
  assert (0 <= Z.of_nat i < width * height) as Hk.
  { apply lookup_lt_Some in Hi. lia. }
  destruct (indexed_cell _ _ _ _ Hix Hk) as (x & y & Hc & Hon & _).
  pose proof (HT _ x y Hk Hc) as Hval.
  apply vget_Some in Hval as [_ Hval]. rewrite Nat2Z.id, Hi in Hval.
  injection Hval as ->.
  pose proof (position_range _ _ _ _ Hon) as Hp.
  destruct (vget_is_Some input (y * width + x)) as [t Ht]; [lia|].
  rewrite Ht. simpl. apply vget_Some in Ht as [_ Ht].
  rewrite Forall_lookup in Hrange.
  specialize (Hrange (Z.to_nat (y * width + x)) t).
  rewrite lookup_take_lt in Hrange by lia. by specialize (Hrange Ht).
Qed.

(** The same for a board whose numbers the type of a cell can hold: the
    numbers on the board are those of the input. *)
Lemma board_read width height input :
  0 < width → 0 < height → width * height <= 32767 →
  width * height <= Z.of_nat (length input) →
  Forall (λ t, 0 <= t <= 127) (take (Z.to_nat (width * height)) input) →
  ∃ nl0 nl1 B,
    new_NumberLink width height = Some nl0 ∧
    Initialize nl0 = Some nl1 ∧
    read_table input nl1 = Some (drop (Z.to_nat (width * height)) input, B) ∧
    board_ready width height B ∧
    Forall (λ t, 0 <= t <= 127) (table_ B) ∧
    mates_inv B 0 (retired_bound B 0) B ∧ memo_zero B ∧
    ∀ v, length (cells_with B v) =
         length (filter (λ t, t = v) (take (Z.to_nat (width * height)) input)).
Proof.
  intros Hw Hh Hfit Hin Hrange.
  destruct (board_set_up width height input Hw Hh Hfit Hin)
    as (nl0 & nl1 & B & Hnew & Hinit & Hread & Hbr & Hinv & Hmz & HT).
  exists nl0, nl1, B.
  split; [done|]. split; [done|]. split; [done|]. split; [done|].
  split; [|split; [done|split; [done|]]].
  - apply (board_labels width height B input); try done.
    eapply Forall_impl; [exact Hrange|].
    intros t Ht. simpl in Ht. rewrite to_char_id; lia.
  - intros v. apply (board_count width height); try done. apply Hbr.
Qed.

(** C8, for the boards the types can hold.  For a board of [width] by
    [height] cells, both positive and [width * height <= 32767], whose
    numbers all lie in [0 .. 127], if some number above 0 is written an odd
    number of times, the dataset is solved with the count 0. *)
Theorem odd_label_no_solution width height input v :
  0 < width → 0 < height → width * height <= 32767 →
  width * height <= Z.of_nat (length input) →
  Forall (λ t, 0 <= t <= 127) (take (Z.to_nat (width * height)) input) →
  0 < v →
  Nat.Odd (length (filter (λ t, t = v)
                     (take (Z.to_nat (width * height)) input))) →
  ∃ nl, dataset width height input =
          Some (Solved 0 nl (drop (Z.to_nat (width * height)) input)).
Proof.
  intros Hw Hh Hfit Hin Hrange Hv Hodd.
  destruct (board_read width height input Hw Hh Hfit Hin Hrange)
    as (nl0 & nl1 & B & Hnew & Hinit & Hread & Hbr & Hlab & Hinv & Hmz & Hcount).
  rewrite <- Hcount in Hodd.
  pose proof (ix_size _ _ _ (br_indexed _ _ _ Hbr)) as Hsz.
  assert (0 <= size_ B) as Hn by nia.
  assert (Forall (λ t, 0 <= t) (table_ B)) as Hpos.
  { eapply Forall_impl; [exact Hlab|]. intros t Ht. simpl in Ht. lia. }
  destruct (Solve_zero width height B v Hbr Hpos Hv Hodd (Solve_fuel B) 0 B)
    as (nl & HS & _); [unfold Solve_fuel; lia | lia | done | done |].
  exists nl. unfold dataset.
  destruct (Z.eqb_spec width 0); [lia|]. destruct (Z.eqb_spec height 0); [lia|].
  cbn [orb]. rewrite Hnew. cbn [mbind option_bind].
  rewrite Hinit. cbn [mbind option_bind].
  rewrite Hread. cbn [mbind option_bind].
  rewrite HS. done.
Qed.

Lemma odd_label_no_solution_witness :
  ∃ nl, dataset 3 2 [1; 0; 2; 1; 2; 2; 7] = Some (Solved 0 nl [7]).
Proof.
  apply (odd_label_no_solution 3 2 [1; 0; 2; 1; 2; 2; 7] 2);
    [lia | lia | lia | simpl; lia | | lia | exists 1%nat; reflexivity].
  repeat (constructor; [lia|]). constructor.
Defined.

(** C8, as worded, fails for a number the cell type cannot hold: on the 1x1
    board whose only number is 256, a number written once, the number is
    stored as 0 and the dataset is solved with the count 1. *)
Lemma lone_256_has_a_solution :
  match dataset 1 1 [256] with
  | Some (Solved c nl _) => c = 1 ∧ table_ nl = [0]
  | _ => False
  end.
Proof. vm_compute. split; reflexivity. Qed.

(** ** The search on any board *)

Lemma counted_hit B nl c :
  0 <= c → (0 < c → solved_ nl = true) → counted B nl c nl.
Proof.
  intros Hc Hs. split; [done|]. split.
  - destruct (Z.ltb_spec 0 c) as [Hpos|_].
    + rewrite (Hs Hpos). done.
    + by rewrite orb_false_r.
  - exists []. split; [by rewrite app_nil_r|].
    destruct (Z.eqb_spec c 0) as [->|Hne].
    + by rewrite orb_true_r.
    + rewrite Hs by lia. done.
Qed.

Lemma counted_frame_r B nl c nl1 nl2 :
  counted B nl c nl1 → solved_ nl2 = solved_ nl1 → stdout_ nl2 = stdout_ nl1 →
  counted B nl c nl2.
Proof. unfold counted. by intros H -> ->. Qed.

Lemma counted_frame_l B nl nl1 c nl2 :
  solved_ nl1 = solved_ nl → stdout_ nl1 = stdout_ nl →
  counted B nl1 c nl2 → counted B nl c nl2.
Proof. unfold counted. by intros -> ->. Qed.

Lemma counted_add B nl c nl1 c' nl2 :
  counted B nl c nl1 → counted B nl1 c' nl2 → counted B nl (c + c') nl2.
Proof.
  intros (Hc & Hs & p1 & Ho & Hp1) (Hc' & Hs' & p2 & Ho' & Hp2).
  split; [lia|]. split.
  - rewrite Hs', Hs.
    destruct (solved_ nl), (Z.ltb_spec 0 c), (Z.ltb_spec 0 c'),
      (Z.ltb_spec 0 (c + c')); try done; lia.
  - exists (p1 ++ p2). split; [by rewrite Ho', Ho, app_assoc|].
    rewrite Hs in Hp2.
    destruct (solved_ nl); simpl in *.
    { by rewrite Hp1, Hp2. }
    destruct (Z.eqb_spec c 0) as [->|Hne].
    + rewrite Hp1. simpl in *. done.
    + destruct (Z.ltb_spec 0 c); [|lia]. simpl in Hp2. rewrite Hp2, app_nil_r.
      destruct (Z.eqb_spec (c + c') 0); [lia|]. done.
Qed.

Lemma memo_counts_frame nl nl' :
  memo_ nl' = memo_ nl → solved_ nl' = solved_ nl →
  memo_counts nl → memo_counts nl'.
Proof. unfold memo_counts. by intros -> ->. Qed.

Lemma memo_counts_solved nl nl' :
  memo_ nl' = memo_ nl → solved_ nl' = true → memo_counts nl → memo_counts nl'.
Proof.
  unfold memo_counts. intros -> -> H k m h c Hk Hm.
  destruct (H k m h c Hk Hm) as [Hc _]. done.
Qed.

Lemma memo_zero_counts nl : memo_zero nl → memo_counts nl.
Proof.
  intros H k m h c Hk Hm. rewrite (H k m h c Hk Hm). split; [done|lia].
Qed.

Lemma memo_store_counts k h c nl :
  0 <= k < Z.of_nat (length (memo_ nl)) → memo_counts nl →
  0 <= c → (0 < c → solved_ nl = true) →
  ∃ nl', memo_store k h c nl = Some nl' ∧
         mates_ nl' = mates_ nl ∧ mate_stack_ nl' = mate_stack_ nl ∧
         same_board nl nl' ∧ same_links nl nl' ∧
         solved_ nl' = solved_ nl ∧ stdout_ nl' = stdout_ nl ∧
         memo_counts nl'.
Proof.
  intros Hk Hmc Hc Hs. unfold memo_store.
  destruct (vget_is_Some (memo_ nl) k Hk) as [m Hm]. rewrite Hm. simpl.
  rewrite vset_is_Some by done. simpl. eexists. split; [done|]. simpl.
  split; [done|]. split; [done|]. split; [|split; [done|]].
  - unfold same_board. simpl. rewrite length_insert. repeat split.
  - split; [done|]. split; [done|].
    intros k' m' h' c' Hk' Hh'. simpl in *.
    rewrite vget_insert in Hk' by done.
    destruct (decide (k = k')) as [<-|Hne]; [|by eapply Hmc].
    injection Hk' as <-.
    destruct (decide (h = h')) as [<-|Hneh].
    + rewrite lookup_insert_eq in Hh'. injection Hh' as <-. done.
    + rewrite lookup_insert_ne in Hh' by done. by eapply Hmc.
Qed.

Lemma logged_from_rest nl nl' p :
  logged_from nl nl' p →
  same_links nl nl' ∧ memo_ nl' = memo_ nl ∧ solved_ nl' = solved_ nl ∧
  stdout_ nl' = stdout_ nl.
Proof. intros (_ & _ & _ & _ & ->). by repeat split. Qed.

Lemma mark_connected_y_eq k b nl :
  0 <= k < Z.of_nat (length (connected_y_ nl)) →
  mark_connected_y k b nl =
    Some (set_connected_y (<[Z.to_nat k := b]> (connected_y_ nl)) nl).
Proof. intros Hk. unfold mark_connected_y. by rewrite vset_is_Some. Qed.

Lemma mark_connected_x_eq k b nl :
  0 <= k < Z.of_nat (length (connected_x_ nl)) →
  mark_connected_x k b nl =
    Some (set_connected_x (<[Z.to_nat k := b]> (connected_x_ nl)) nl).
Proof. intros Hk. unfold mark_connected_x. by rewrite vset_is_Some. Qed.

Lemma clear_from_le v k k' : clear_from v k → k <= k' → clear_from v k'.
Proof. intros H Hle j Hj. apply H. lia. Qed.

Lemma clear_from_marked v k b :
  0 <= k → clear_from v k → clear_from (<[Z.to_nat k := b]> v) (k + 1).
Proof.
  intros Hk H j Hj. rewrite length_insert in Hj.
  rewrite vget_insert_ne by lia. apply H. lia.
Qed.

Lemma clear_from_unmark v k b :
  0 <= k < Z.of_nat (length v) → clear_from v k →
  <[Z.to_nat k := false]> (<[Z.to_nat k := b]> v) = v.
Proof.
  intros Hk H. rewrite list_insert_insert_eq. apply list_insert_id.
  specialize (H k). apply vget_Some in H as [_ H]; [done|lia].
Qed.

Lemma same_board_set_connected_y v nl :
  length v = length (connected_y_ nl) → same_board nl (set_connected_y v nl).
Proof. intros H. unfold same_board. simpl. by repeat split. Qed.

Lemma same_board_set_connected_x v nl :
  length v = length (connected_x_ nl) → same_board nl (set_connected_x v nl).
Proof. intros H. unfold same_board. simpl. by repeat split. Qed.

Lemma Connect_upper_count width height B k s up Srec nl S M p :
  board_ready width height B →
  0 <= s → s <= up < k → k < size_ B →
  (∀ nl, mates_inv B (k + 1) s nl → memo_counts nl →
         clear_from (connected_x_ nl) (k + 1) →
         clear_from (connected_y_ nl) (k + 1) →
         returns_count B nl (Srec (to_short (k + 1)) nl)) →
  mates_inv B (k + 1) s nl → memo_counts nl →
  clear_from (connected_x_ nl) (k + 1) → clear_from (connected_y_ nl) k →
  pending nl S M p →
  ∃ c nl' p', Connect_upper Srec k up nl = Some (c, nl') ∧
              pending nl' S M p' ∧ same_board nl nl' ∧ same_links nl nl' ∧
              memo_counts nl' ∧ counted B nl c nl'.
Proof.
  intros Hbr Hs Hup Hk IH Hinv Hmc Hcx Hcy Hpend.
  destruct (mates_inv_table_len _ _ _ _ _ _ Hbr Hinv) as (Htl & Hml & Hsz).
  destruct (UniteMates_total nl k up (mi_symmetric _ _ _ _ Hinv) Htl)
    as [[ok nl1] HU]; [lia..|].
  unfold Connect_upper. rewrite HU. simpl.
  destruct (UniteMates_logged _ _ _ _ _ HU) as [q Hlog].
  pose proof (pending_logged _ _ _ _ _ _ Hpend Hlog) as Hpend1.
  pose proof (logged_from_same_board _ _ _ Hlog) as Hsb1.
  destruct (logged_from_rest _ _ _ Hlog) as ([Hx1 Hy1] & Hme1 & Hso1 & Hout1).
  pose proof (memo_counts_frame _ _ Hme1 Hso1 Hmc) as Hmc1.
  destruct ok.
  2:{ exists 0, nl1, (q ++ p). split; [done|]. split; [done|]. split; [done|].
      split; [done|]. split; [done|].
      apply (counted_frame_r B nl 0 nl); [|done..].
      apply counted_hit; [done|lia]. }
  pose proof (UniteMates_keeps_inv B k s up nl nl1
                (br_table_len _ _ _ Hbr) Hs Hup Hk Hinv HU) as Hinv1.
  assert (Z.of_nat (length (connected_y_ nl)) = size_ B) as Hly.
  { rewrite (same_board_cy_len B) by apply Hinv.
    rewrite (br_cy_len _ _ _ Hbr). lia. }
  rewrite mark_connected_y_eq by (rewrite Hy1; lia).
  set (nl2 := set_connected_y _ nl1). simpl.
  destruct (IH nl2) as (c & nl3 & -> & Hm3 & Hst3 & Hsb3 & [Hx3 Hy3] & Hmc3 & Hcnt3).
  { apply (mates_inv_frame B _ _ nl1); [done|done|].
    apply same_board_set_connected_y. by rewrite length_insert. }
  { by apply (memo_counts_frame nl1). }
  { unfold nl2. simpl. by rewrite Hx1. }
  { unfold nl2. simpl. rewrite Hy1. apply clear_from_marked; [lia|done]. }
  unfold nl2 in Hm3, Hst3, Hx3, Hy3. simpl in Hm3, Hst3, Hx3, Hy3.
  simpl.
  rewrite mark_connected_y_eq
    by (rewrite Hy3, length_insert, Hy1; lia).
  simpl. eexists c, _, (q ++ p). split; [done|]. simpl.
  assert (same_board nl1 nl3) as Hsb13.
  { apply (same_board_trans _ nl2); [|done].
    apply same_board_set_connected_y. by rewrite length_insert. }
  split; [|split; [|split; [|split]]].
  - apply (pending_frame nl1); [done|simpl; congruence..].
  - apply (same_board_trans _ nl1); [done|].
    apply (same_board_trans _ nl3); [done|].
    apply same_board_set_connected_y.
    rewrite length_insert. done.
  - split; simpl; [congruence|].
    rewrite Hy3, Hy1. apply clear_from_unmark; [lia|done].
  - by apply (memo_counts_frame nl3).
  - apply (counted_frame_r B nl c nl3); [|done..].
    apply (counted_frame_l B nl nl2); [unfold nl2; simpl; congruence..|done].
Qed.

Lemma revert_block B nl nl2 S M p2 c :
  pending nl2 S M p2 → same_board nl nl2 → same_links nl nl2 →
  memo_counts nl2 → counted B nl c nl2 →
  ∃ nl', RevertMates (length S) nl2 ≫= (λ nl, Some (c, nl)) = Some (c, nl') ∧
         mates_ nl' = M ∧ mate_stack_ nl' = S ∧
         same_board nl nl' ∧ same_links nl nl' ∧ memo_counts nl' ∧
         counted B nl c nl'.
Proof.
  intros Hp2 Hsb2 Hl2 Hmc2 Hcnt2.
  rewrite (RevertMates_pending _ _ _ _ Hp2). simpl.
  eexists. split; [done|]. simpl. split; [done|]. split; [done|].
  split; [|split; [done|split]].
  - destruct Hsb2 as (?&?&?&?&?&?&?&?&?&?&?). unfold same_board. simpl. done.
  - by apply (memo_counts_frame nl2).
  - by apply (counted_frame_r B nl c nl2).
Qed.

Lemma upper_block_count width height B k s up Srec nl S M :
  board_ready width height B →
  up = -1 ∨ (0 <= s ∧ s <= up < k) → k < size_ B →
  (∀ nl, mates_inv B (k + 1) s nl → memo_counts nl →
         clear_from (connected_x_ nl) (k + 1) →
         clear_from (connected_y_ nl) (k + 1) →
         returns_count B nl (Srec (to_short (k + 1)) nl)) →
  mates_inv B (k + 1) s nl → memo_counts nl →
  clear_from (connected_x_ nl) (k + 1) → clear_from (connected_y_ nl) k →
  mate_stack_ nl = S → mates_ nl = M →
  ∃ c nl',
    (if 0 <=? up then
       '(c, nl) ← Connect_upper Srec k up nl;
       nl ← RevertMates (length S) nl;
       Some (c, nl)
     else Some (0, nl)) = Some (c, nl') ∧
    mates_ nl' = M ∧ mate_stack_ nl' = S ∧ same_board nl nl' ∧
    same_links nl nl' ∧ memo_counts nl' ∧ counted B nl c nl'.
Proof.
  intros Hbr Hup Hk IH Hinv Hmc Hcx Hcy HS HM.
  destruct (Z.leb_spec 0 up) as [Hpos|Hneg].
  - destruct Hup as [->|[Hs Hup]]; [lia|].
    destruct (Connect_upper_count width height B k s up Srec nl S M [])
      as (c & nl1 & p1 & -> & Hpend & Hsb & Hl & Hmc1 & Hcnt); try done.
    { subst S M. apply pending_init. }
    simpl. exists c. by apply (revert_block B nl nl1 S M p1).
  - exists 0, nl. split; [done|]. split; [done|]. split; [done|].
    split; [apply same_board_refl|]. split; [done|]. split; [done|].
    apply counted_hit; [done|lia].
Qed.

Lemma left_block_count width height B k s up left Srec nl S M :
  board_ready width height B →
  up = -1 ∨ (0 <= s ∧ s <= up < k) →
  left = -1 ∨ (0 <= s ∧ s <= left < k) → k < size_ B →
  (∀ nl, mates_inv B (k + 1) s nl → memo_counts nl →
         clear_from (connected_x_ nl) (k + 1) →
         clear_from (connected_y_ nl) (k + 1) →
         returns_count B nl (Srec (to_short (k + 1)) nl)) →
  mates_inv B (k + 1) s nl → memo_counts nl →
  clear_from (connected_x_ nl) k → clear_from (connected_y_ nl) k →
  mate_stack_ nl = S → mates_ nl = M →
  ∃ c nl',
    (if 0 <=? left then
       '(ok, nl) ← UniteMates k left nl;
       '(c, nl) ←
         (if ok : bool then
            nl ← mark_connected_x k true nl;
            '(c, nl) ← Srec (to_short (k + 1)) nl;
            '(c', nl) ←
              (if 0 <=? up
               then Connect_upper Srec k up nl
               else Some (0, nl));
            nl ← mark_connected_x k false nl;
            Some (c + c', nl)
          else Some (0, nl));
       nl ← RevertMates (length S) nl;
       Some (c, nl)
     else Some (0, nl)) = Some (c, nl') ∧
    mates_ nl' = M ∧ mate_stack_ nl' = S ∧ same_board nl nl' ∧
    same_links nl nl' ∧ memo_counts nl' ∧ counted B nl c nl'.
Proof.
  intros Hbr Hup Hleft Hk IH Hinv Hmc Hcx Hcy HS HM.
  destruct (Z.leb_spec 0 left) as [Hpos|Hneg].
  2:{ exists 0, nl. split; [done|]. split; [done|]. split; [done|].
      split; [apply same_board_refl|]. split; [done|]. split; [done|].
      apply counted_hit; [done|lia]. }
  destruct Hleft as [->|[Hs Hleft]]; [lia|].
  destruct (mates_inv_table_len _ _ _ _ _ _ Hbr Hinv) as (Htl & Hml & Hsz).
  destruct (UniteMates_total nl k left (mi_symmetric _ _ _ _ Hinv) Htl)
    as [[ok nl1] HU]; [lia..|].
  rewrite HU. simpl.
  destruct (UniteMates_logged _ _ _ _ _ HU) as [q Hlog].
  assert (pending nl S M []) as Hpend0 by (subst S M; apply pending_init).
  pose proof (pending_logged _ _ _ _ _ _ Hpend0 Hlog) as Hpend1.
  pose proof (logged_from_same_board _ _ _ Hlog) as Hsb1.
  destruct (logged_from_rest _ _ _ Hlog) as ([Hx1 Hy1] & Hme1 & Hso1 & Hout1).
  pose proof (memo_counts_frame _ _ Hme1 Hso1 Hmc) as Hmc1.
  destruct ok.
  2:{ simpl. exists 0. apply (revert_block B nl nl1 S M (q ++ [])); try done.
      apply (counted_frame_r B nl 0 nl); [|done..].
      apply counted_hit; [done|lia]. }
  pose proof (UniteMates_keeps_inv B k s left nl nl1
                (br_table_len _ _ _ Hbr) Hs Hleft Hk Hinv HU) as Hinv1.
  assert (Z.of_nat (length (connected_x_ nl)) = size_ B) as Hlx.
  { rewrite (same_board_cx_len B) by apply Hinv.
    rewrite (br_cx_len _ _ _ Hbr). lia. }
  rewrite mark_connected_x_eq by (rewrite Hx1; lia).
  set (nl2 := set_connected_x _ nl1). simpl.
  assert (same_board nl1 nl2) as Hsb12.
  { apply same_board_set_connected_x. by rewrite length_insert. }
  assert (clear_from (connected_x_ nl2) (k + 1)) as Hcx2.
  { unfold nl2. simpl. rewrite Hx1. apply clear_from_marked; [lia|done]. }
  destruct (IH nl2)
    as (c & nl3 & -> & Hm3 & Hst3 & Hsb3 & [Hx3 Hy3] & Hmc3 & Hcnt3).
  { by apply (mates_inv_frame B _ _ nl1). }
  { by apply (memo_counts_frame nl1). }
  { done. }
  { unfold nl2. simpl. rewrite Hy1. apply (clear_from_le _ k); [done|lia]. }
  simpl.
  assert (mates_inv B (k + 1) s nl3) as Hinv3.
  { apply (mates_inv_frame B _ _ nl1); [done|done|].
    by apply (same_board_trans _ nl2). }
  assert (pending nl3 S M (q ++ [])) as Hpend3.
  { apply (pending_frame nl1); [done|done..]. }
  assert (counted B nl c nl3) as Hcnt03.
  { apply (counted_frame_l B nl nl2); [done..|]. done. }
  assert (∃ c' nl4 p4,
            (if 0 <=? up then Connect_upper Srec k up nl3 else Some (0, nl3))
            = Some (c', nl4) ∧ pending nl4 S M p4 ∧ same_board nl3 nl4 ∧
            same_links nl3 nl4 ∧ memo_counts nl4 ∧ counted B nl3 c' nl4)
    as (c' & nl4 & p4 & -> & Hpend4 & Hsb4 & [Hx4 Hy4] & Hmc4 & Hcnt4).
  { destruct (Z.leb_spec 0 up) as [Hupos|Hupneg].
    - destruct Hup as [->|[_ Hup]]; [lia|].
      apply (Connect_upper_count width height B k s up Srec nl3 S M (q ++ []));
        try done.
      + by rewrite Hx3.
      + rewrite Hy3. unfold nl2. simpl. by rewrite Hy1.
    - exists 0, nl3, (q ++ []). split; [done|]. split; [done|].
      split; [apply same_board_refl|]. split; [done|]. split; [done|].
      apply counted_hit; [done|lia]. }
  simpl.
  assert (same_board nl nl4) as Hsb04.
  { apply (same_board_trans _ nl1); [done|].
    apply (same_board_trans _ nl2); [done|].
    by apply (same_board_trans _ nl3). }
  assert (connected_x_ nl4 = <[Z.to_nat k := true]> (connected_x_ nl)) as Hx04.
  { rewrite Hx4, Hx3. unfold nl2. simpl. by rewrite Hx1. }
  rewrite mark_connected_x_eq by (rewrite Hx04, length_insert; lia).
  simpl. exists (c + c').
  apply (revert_block B nl _ S M p4).
  - by apply (pending_frame nl4).
  - apply (same_board_trans _ nl4); [done|].
    apply same_board_set_connected_x. by rewrite length_insert.
  - split; simpl.
    + rewrite Hx04. apply clear_from_unmark; [lia|done].
    + rewrite Hy4, Hy3. unfold nl2. simpl. done.
  - by apply (memo_counts_frame nl4).
  - apply (counted_frame_r B nl (c + c') nl4); [|done..].
    by apply (counted_add B nl c nl3).
Qed.

Lemma Connect_count width height B k s Srec nl :
  board_ready width height B →
  0 <= k < size_ B → vget (start_ B) k = Some s →
  (∀ nl, mates_inv B (k + 1) s nl → memo_counts nl →
         clear_from (connected_x_ nl) (k + 1) →
         clear_from (connected_y_ nl) (k + 1) →
         returns_count B nl (Srec (to_short (k + 1)) nl)) →
  mates_inv B (k + 1) s nl → memo_counts nl →
  clear_from (connected_x_ nl) k → clear_from (connected_y_ nl) k →
  returns_count B nl (Connect Srec k nl).
Proof.
  intros Hbr Hk Hstart IH Hinv Hmc Hcx Hcy.
  pose proof (br_indexed _ _ _ Hbr) as Hix.
  pose proof (ix_size _ _ _ Hix) as Hsz. rewrite Hsz in Hk.
  destruct (indexed_cell _ _ _ k Hix Hk) as (x & y & Hc & Hon & _).
  destruct (indexed_neighbours _ _ _ k x y Hix Hk Hc)
    as (_ & Hup & Hleft & _).
  pose proof (mi_board _ _ _ _ Hinv) as Hbd.
  assert (cell_x_ nl = cell_x_ B ∧ cell_y_ nl = cell_y_ B) as [Ecx Ecy].
  { by destruct Hbd as (_&_&_&?&?&_). }
  destruct Hc as [Hcx' Hcy'].
  unfold Connect. rewrite Ecx, Ecy, Hcx', Hcy'. simpl.
  rewrite !(GetCellKey_same_board B nl) by done.
  assert (∃ left, (if 0 <? x then GetCellKey (x - 1) y B else Some (-1))
                  = Some left ∧ (left = -1 ∨ (0 <= s ∧ s <= left < k)))
    as (left & -> & Hl).
  { destruct (Z.ltb_spec 0 x) as [Hx|Hx]; [|by exists (-1); auto].
    destruct (Hleft Hx) as (left & s' & Hkl & Hs' & Hr).
    rewrite Hstart in Hs'. injection Hs' as <-. exists left.
    split; [done|]. right. lia. }
  assert (∃ up, (if 0 <? y then GetCellKey x (y - 1) B else Some (-1))
                = Some up ∧ (up = -1 ∨ (0 <= s ∧ s <= up < k)))
    as (up & -> & Hu).
  { destruct (Z.ltb_spec 0 y) as [Hy|Hy]; [|by exists (-1); auto].
    destruct (Hup Hy) as (up & Hku & Hs' & Hr).
    rewrite Hstart in Hs'. injection Hs' as Heq. exists up.
    split; [done|]. right. lia. }
  simpl. clear Hup Hleft.
  assert (k <= k + 1) as Hkk by lia.
  destruct (IH nl Hinv Hmc (clear_from_le _ _ _ Hcx Hkk)
              (clear_from_le _ _ _ Hcy Hkk))
    as (c0 & nlA & -> & HmA & HsA & HsbA & [HxA HyA] & HmcA & HcntA).
  simpl.
  assert (mates_inv B (k + 1) s nlA) as HinvA
    by (by apply (mates_inv_frame B _ _ nl)).
  rewrite <- Hsz in Hk.
  destruct (upper_block_count width height B k s up Srec nlA
              (mate_stack_ nl) (mates_ nl))
    as (c1 & nlC & -> & HmC & HsC & HsbC & [HxC HyC] & HmcC & HcntC);
    try done; [lia|rewrite HxA; apply (clear_from_le _ k); [done|lia]|by rewrite HyA|].
  simpl.
  assert (mates_inv B (k + 1) s nlC) as HinvC.
  { apply (mates_inv_frame B _ _ nl); [done|done|].
    by apply (same_board_trans _ nlA). }
  destruct (left_block_count width height B k s up left Srec nlC
              (mate_stack_ nl) (mates_ nl))
    as (c2 & nlE & -> & HmE & HsE & HsbE & [HxE HyE] & HmcE & HcntE);
    try done; [lia|by rewrite HxC, HxA|by rewrite HyC, HyA|].
  simpl. exists (c0 + c1 + c2), nlE. split; [done|]. split; [done|].
  split; [done|]. split; [|split; [|split; [done|]]].
  - apply (same_board_trans _ nlA); [done|]. by apply (same_board_trans _ nlC).
  - split; congruence.
  - apply (counted_add B nl (c0 + c1) nlC); [|done].
    by apply (counted_add B nl c0 nlA).
Qed.

(** When every cell has passed the check of the newly fixed cells, the
    board is finished. *)
Lemma checked_board_complete B nl :
  Forall (λ t, 0 <= t) (table_ B) →
  length (table_ B) = Z.to_nat (size_ B) →
  mates_inv B (size_ B) (size_ B) nl →
  complete B (mates_ nl).
Proof.
  intros Hpos Hlt [Hbd Hlen Hsym _ Hop Hsl Hret] c Hc.
  assert (table_ nl = table_ B) as Htab by (by destruct Hbd as (_&_&_&_&_&?&_)).
  destruct (vget_is_Some (mates_ nl) c) as [e He]; [lia|].
  assert (∀ h, 0 <= h < size_ B → vget (table_ nl) h = Some (label B h)) as Hlab.
  { intros h Hh. rewrite Htab, vget_table_label by lia. done. }
  exists e. split; [done|]. split.
  - intros Hz. destruct (decide (e = -1)) as [|H1]; [by left|].
    destruct (decide (e = c)) as [|H2]; [by right|].
    exfalso. apply (Hret c Hc). exists 0, e. rewrite Hlab, Hz by done.
    split; [done|]. split; [done|]. left. done.
  - intros Hnz. pose proof (label_nonneg B c Hpos) as Hnn.
    assert (e ≠ -1) as He1.
    { intros ->. apply (Hop c); [lia|done]. }
    assert (e ≠ c) as Hec.
    { intros ->. apply (Hret c Hc). exists (label B c), c.
      split; [by apply Hlab|]. split; [done|]. right. done. }
    destruct (symmetric_back _ _ _ Hsym He He1) as [Hback Hre].
    split; [done|]. split; [done|]. split; [|done].
    pose proof (label_nonneg B e Hpos) as Hnn'.
    destruct (decide (label B e = 0)) as [Hz|Hnz'].
    + exfalso. apply (Hret e); [lia|]. exists 0, c.
      rewrite Hlab, Hz by lia. split; [done|]. split; [done|]. left.
      repeat split; [congruence|lia].
    + symmetry. apply (Hsl c e); try done; lia.
Qed.

Lemma Solve_count width height B :
  board_ready width height B →
  ∀ fuel k nl,
    size_ B - k < Z.of_nat fuel → 0 <= k <= size_ B →
    mates_inv B k (retired_bound B k) nl → memo_counts nl →
    (k = 0 → solved_ nl = false) →
    clear_from (connected_x_ nl) k → clear_from (connected_y_ nl) k →
    returns_count B nl (Solve fuel k nl).
Proof.
  intros Hbr.
  pose proof (br_indexed _ _ _ Hbr) as Hix.
  pose proof (ix_size _ _ _ Hix) as Hsz.
  pose proof (ix_fits _ _ _ Hix) as Hfits.
  induction fuel as [|fuel IH]; intros k nl Hfuel Hk Hinv Hmc Hk0 Hcx Hcy; [lia|].
  cbn [Solve].
  assert ((if k =? 0 then set_solved false nl else nl) = nl) as ->.
  { destruct (Z.eqb_spec k 0) as [Hz|]; [|done].
    specialize (Hk0 Hz). destruct nl. simpl in *. by subst. }
  destruct (newly_fixed_spec _ _ _ k nl Hbr Hk Hinv)
    as (s & dead & Hs & Hrs & Hlast & -> & Hpass).
  simpl. destruct dead.
  { exists 0, nl. split; [done|]. split; [done|]. split; [done|].
    split; [apply same_board_refl|]. split; [done|]. split; [done|].
    apply counted_hit; [done|lia]. }
  specialize (Hpass eq_refl).
  pose proof (mi_board _ _ _ _ Hpass) as Hbd.
  assert (size_ nl = size_ B ∧ start_ nl = start_ B) as [Esz Est].
  { by destruct Hbd as (_&_&?&_&_&_&_&?&_). }
  unfold Solve_tail. rewrite Esz.
  destruct (Z.eqb_spec k (size_ B)) as [Hend|Hmore].
  - rewrite (Hlast Hend), Hend in Hpass.
    assert (checked B (mates_ nl)) as Hdone by (by exists nl).
    exists 1. eexists. split; [done|].
    destruct (solved_ nl) eqn:Esol.
    + split; [done|]. split; [done|]. split; [apply same_board_refl|].
      split; [done|]. split; [done|]. apply counted_hit; [lia|done].
    + simpl. split; [done|]. split; [done|].
      split; [unfold same_board; simpl; by repeat split|].
      split; [done|]. split.
      * by apply (memo_counts_solved nl).
      * split; [lia|]. simpl. rewrite Esol. split; [done|].
        eexists. split; [done|]. simpl. eexists. split; [done|].
        split; [done|]. simpl.
        split; [by apply (mi_length _ _ _ _ Hpass)|].
        rewrite (same_board_cx_len B), (same_board_cy_len B) by done.
        split; [apply (br_cx_len _ _ _ Hbr)|apply (br_cy_len _ _ _ Hbr)].
  - destruct (mates_inv_table_len _ _ _ _ _ _ Hbr Hpass) as (Htl & Hml & Hsz0).
    unfold mate_tuple. rewrite Est, Hs. simpl.
    destruct (slice (mates_ nl) s k) as [tuple|] eqn:Esl.
    2:{ exfalso. unfold slice in Esl.
        destruct (Z.leb_spec 0 s), (Z.leb_spec s k),
          (Z.leb_spec k (Z.of_nat (length (mates_ nl)))); simpl in Esl;
          try done; lia. }
    simpl.
    assert (0 <= k < Z.of_nat (length (memo_ nl))) as Hkm.
    { rewrite (same_board_memo_len B) by done.
      rewrite (br_memo_len _ _ _ Hbr). lia. }
    destruct (vget_is_Some (memo_ nl) k Hkm) as [m Hm]. rewrite Hm. simpl.
    destruct (m !! GetHash tuple) as [c|] eqn:Ehit.
    { destruct (Hmc k m _ c Hm Ehit) as [Hc0 Hcs].
      exists c, nl. split; [done|]. split; [done|]. split; [done|].
      split; [apply same_board_refl|]. split; [done|]. split; [done|].
      by apply counted_hit. }
    destruct (Connect_count width height B k s (Solve fuel) nl)
      as (c & nl1 & -> & Hm1 & Hs1 & Hsb1 & Hl1 & Hmc1 & Hcnt1);
      try done; try lia.
    { intros nl' Hinv' Hmc' Hcx' Hcy'. rewrite to_short_id by lia.
      apply IH; try done; try lia.
      replace (retired_bound B (k + 1)) with s; [done|].
      unfold retired_bound. destruct (Z.eqb_spec (k + 1) 0); [lia|].
      replace (k + 1 - 1) with k by lia. by rewrite Hs. }
    { apply (mates_inv_weaken B k s); [done|lia|lia]. }
    simpl.
    destruct Hcnt1 as (Hc0 & Hsol1 & Hpr1).
    destruct (memo_store_counts k (GetHash tuple) c nl1)
      as (nl2 & -> & Hm2 & Hs2 & Hsb2 & [Hx2 Hy2] & Hso2 & Hout2 & Hmc2);
      try done.
    { rewrite (same_board_memo_len nl) by done. done. }
    { intros Hpos. rewrite Hsol1. destruct (Z.ltb_spec 0 c); [|lia].
      by rewrite orb_true_r. }
    simpl. exists c, nl2. split; [done|]. split; [congruence|].
    split; [congruence|]. split; [|split; [|split; [done|]]].
    + by apply (same_board_trans _ nl1).
    + destruct Hl1. split; congruence.
    + by apply (counted_frame_r B nl c nl1).
Qed.

Lemma key_loop_output fuel x y i nl nl' :
  key_loop fuel x y i nl = Some nl' →
  connected_x_ nl' = connected_x_ nl ∧ connected_y_ nl' = connected_y_ nl ∧
  solved_ nl' = solved_ nl ∧ stdout_ nl' = stdout_ nl.
Proof.
  revert x y i nl. induction fuel as [|fuel IH]; intros x y i nl H; [done|].
  cbn [key_loop] in H.
  destruct (vset (cell_x_ nl) i x) as [cx|]; [|done]. simpl in H.
  destruct (vset (cell_y_ nl) i y) as [cy|]; [|done]. simpl in H.
  destruct (vset (keys_ nl) _ i) as [ks|]; [|done]. simpl in H.
  destruct (to_short (i + 1) =? size_ nl); [by simplify_eq|].
  destruct (next_cell _ _ _ x y) as [[x' y']|]; [|done]. simpl in H.
  by destruct (IH _ _ _ _ H) as (-> & -> & -> & ->).
Qed.

Lemma Initialize_output nl0 nl :
  Initialize nl0 = Some nl →
  connected_x_ nl = connected_x_ nl0 ∧ connected_y_ nl = connected_y_ nl0 ∧
  solved_ nl = solved_ nl0 ∧ stdout_ nl = stdout_ nl0.
Proof.
  intros H. unfold Initialize in H.
  pose (Q := λ s : NumberLink,
          connected_x_ s = connected_x_ nl0 ∧ connected_y_ s = connected_y_ nl0 ∧
          solved_ s = solved_ nl0 ∧ stdout_ s = stdout_ nl0).
  destruct (for_loop _ 0 init_mates_body nl0) as [nl1|] eqn:E1; [|done].
  simpl in H.
  assert (Q nl1) as Q1.
  { apply (for_loop_preserves Q init_mates_body (Z.to_nat (size_ nl0)) 0 nl0 nl1);
      [|by unfold Q|exact E1].
    intros j s s' Hb Hs. unfold init_mates_body in Hb.
    destruct (vset (mates_ s) j j); [|done]. simpl in Hb. simplify_eq.
    exact Hs. }
  destruct (key_loop _ 0 0 0 _) as [nl2|] eqn:E2; [|done]. simpl in H.
  apply key_loop_output in E2.
  assert (Q nl2) as Q2.
  { unfold Q in *. destruct E2 as (-> & -> & -> & ->). done. }
  destruct (for_loop _ 0 init_start_body nl2) as [nl3|] eqn:E3; [|done].
  simpl in H.
  assert (Q nl3) as Q3.
  { apply (for_loop_preserves Q init_start_body (Z.to_nat (size_ nl2)) 0 nl2 nl3);
      [|done|exact E3].
    intros j s s' Hb Hs. unfold init_start_body in Hb. option_steps Hb.
    simplify_eq. exact Hs. }
  destruct (vset (start_ nl3) _ _) as [st|]; [|done]. simpl in H.
  injection H as <-. exact Q3.
Qed.

Lemma read_table_output input nl rest nl' :
  read_table input nl = Some (rest, nl') →
  connected_x_ nl' = connected_x_ nl ∧ connected_y_ nl' = connected_y_ nl ∧
  solved_ nl' = solved_ nl ∧ stdout_ nl' = stdout_ nl.
Proof.
  intros H. unfold read_table in H.
  pose (Q := λ s : list Z * NumberLink,
          connected_x_ (snd s) = connected_x_ nl ∧
          connected_y_ (snd s) = connected_y_ nl ∧
          solved_ (snd s) = solved_ nl ∧ stdout_ (snd s) = stdout_ nl).
  assert (∀ y x s s', read_cell y x s = Some s' → Q s → Q s') as Hcell.
  { intros y x [inp s] s' Hc HQ. unfold read_cell in Hc. simpl in Hc.
    destruct inp as [|value inp]; [done|].
    unfold Cell_assign in Hc. simpl in Hc.
    destruct (GetCellKey x y s) as [k|]; [|done]. simpl in Hc.
    destruct (vset (table_ s) k _) as [t|] eqn:Et; [|done]. simpl in Hc.
    simplify_eq. exact HQ. }
  apply (for_loop_preserves Q read_row (Z.to_nat (height_ nl)) 0
           (input, nl) (rest, nl')) in H; [done| |by unfold Q].
  intros y s s' Hrow HQ. unfold read_row in Hrow.
  apply (for_loop_preserves Q (read_cell y) (Z.to_nat (width_ (snd s))) 0 s s');
    [|exact HQ|exact Hrow].
  apply Hcell.
Qed.

Lemma complete_same_board B nl mates :
  same_board B nl → complete B mates → complete nl mates.
Proof.
  intros Hsb H c Hc. pose proof Hsb as (_ & _ & Hsz & _).
  rewrite Hsz in Hc. destruct (H c Hc) as (e & He & Hz & Hnz). exists e.
  by rewrite !(same_board_label B nl).
Qed.

(** One dataset on a board the key type can number, whatever the numbers
    read: the search returns, from the state that [Initialize] and the
    reading leave. *)
Lemma dataset_returns width height input :
  0 < width → 0 < height → width * height <= 32767 →
  width * height <= Z.of_nat (length input) →
  ∃ c B nl,
    dataset width height input =
      Some (Solved c nl (drop (Z.to_nat (width * height)) input)) ∧
    board_ready width height B ∧
    mate_stack_ B = [] ∧
    (∀ k, 0 <= k < width * height →
          vget (mates_ B) k = Some k ∧
          vget (connected_x_ B) k = Some false ∧
          vget (connected_y_ B) k = Some false) ∧
    solved_ B = false ∧ stdout_ B = [] ∧
    (∀ P : Z → Prop,
       Forall (λ t, P (to_char t)) (take (Z.to_nat (width * height)) input) →
       Forall P (table_ B)) ∧
    returns_count B B (Some (c, nl)).
Proof.
  intros Hw Hh Hfit Hin.
  destruct (board_set_up width height input Hw Hh Hfit Hin)
    as (nl0 & nl1 & B & Hnew & Hinit & Hread & Hbr & Hinv & Hmz & HT).
  assert (∀ P : Z → Prop,
            Forall (λ t, P (to_char t))
              (take (Z.to_nat (width * height)) input) →
            Forall P (table_ B)) as Htable.
  { intros P HP. by apply (board_labels width height B input). }
  pose proof (ix_size _ _ _ (br_indexed _ _ _ Hbr)) as Hsz.
  assert (0 <= size_ B) as Hn by (rewrite Hsz; clear - Hw Hh; nia).
  destruct (read_table_output _ _ _ _ Hread) as (Ex & Ey & Eso & Eout).
  destruct (Initialize_output _ _ Hinit) as (Ex1 & Ey1 & Eso1 & Eout1).
  destruct (read_table_search_part _ _ _ _ Hread) as (_ & Est & _).
  destruct (new_NumberLink_fresh _ _ _ Hnew) as (_ & Est0 & Hlm0 & _).
  destruct (Initialize_search_part _ _ Hlm0 Hinit) as (_ & Est1 & _).
  pose proof (new_NumberLink_spec width height Hw Hh Hfit) as Hnew'.
  simpl in Hnew'. rewrite Hnew in Hnew'. injection Hnew' as Hnl0.
  assert (connected_x_ B = replicate (Z.to_nat (width * height)) false ∧
          connected_y_ B = replicate (Z.to_nat (width * height)) false ∧
          solved_ B = false ∧ stdout_ B = []) as (Hcx & Hcy & Hsol & Hout).
  { rewrite Ex, Ey, Eso, Eout, Ex1, Ey1, Eso1, Eout1, Hnl0. done. }
  assert (∀ k, 0 <= k < width * height →
               vget (replicate (Z.to_nat (width * height)) false) k = Some false)
    as Hrep.
  { intros k Hk. apply vget_Some. split; [lia|].
    apply lookup_replicate. split; [done|lia]. }
  assert (mate_stack_ B = []) as HstB by congruence.
  destruct (Solve_count width height B Hbr (Solve_fuel B) 0 B)
    as (c & nl & HS & Hres).
  - unfold Solve_fuel. lia.
  - lia.
  - done.
  - apply memo_zero_counts. done.
  - done.
  - rewrite Hcx. intros j Hj. rewrite length_replicate in Hj. apply Hrep. lia.
  - rewrite Hcy. intros j Hj. rewrite length_replicate in Hj. apply Hrep. lia.
  - exists c, B, nl. split.
    { unfold dataset.
      destruct (Z.eqb_spec width 0); [lia|]. destruct (Z.eqb_spec height 0); [lia|].
      cbn [orb]. rewrite Hnew. cbn [mbind option_bind].
      rewrite Hinit. cbn [mbind option_bind].
      rewrite Hread. cbn [mbind option_bind].
      rewrite HS. done. }
    split; [done|]. split; [done|]. split.
    { intros k Hk. rewrite Hcx, Hcy. split; [|split; by apply Hrep].
      apply (mi_untouched _ _ _ _ Hinv). lia. }
    split; [done|]. split; [done|]. split; [done|]. by exists c, nl.
Qed.

(** The same on a board whose numbers the type of a cell can hold: the
    numbers on the board are those of the input. *)
Lemma dataset_search width height input :
  0 < width → 0 < height → width * height <= 32767 →
  width * height <= Z.of_nat (length input) →
  Forall (λ t, 0 <= t <= 127) (take (Z.to_nat (width * height)) input) →
  ∃ c B nl,
    dataset width height input =
      Some (Solved c nl (drop (Z.to_nat (width * height)) input)) ∧
    board_ready width height B ∧
    mate_stack_ B = [] ∧
    (∀ k, 0 <= k < width * height →
          vget (mates_ B) k = Some k ∧
          vget (connected_x_ B) k = Some false ∧
          vget (connected_y_ B) k = Some false) ∧
    solved_ B = false ∧ stdout_ B = [] ∧
    Forall (λ t, 0 <= t <= 127) (table_ B) ∧
    returns_count B B (Some (c, nl)).
Proof.
  intros Hw Hh Hfit Hin Hrange.
  destruct (dataset_returns width height input Hw Hh Hfit Hin)
    as (c & B & nl & Hrun & Hbr & Hst & Hid & Hsol & Hout & Htable & Hres).
  exists c, B, nl. repeat (split; [done|]). split; [|done].
  apply Htable. eapply Forall_impl; [exact Hrange|].
  intros t Ht. simpl in Ht. rewrite to_char_id; lia.
Qed.

(** X1: on every board the types can hold, the search returns a count that is
    not negative and leaves the mates, the undo log and the links as
    [Initialize] made them: every cell is its own mate again, the log is
    empty and no link is drawn. *)
Theorem search_leaves_the_state_as_found width height input :
  0 < width → 0 < height → width * height <= 32767 →
  width * height <= Z.of_nat (length input) →
  Forall (λ t, 0 <= t <= 127) (take (Z.to_nat (width * height)) input) →
  ∃ c nl,
    dataset width height input =
      Some (Solved c nl (drop (Z.to_nat (width * height)) input)) ∧
    0 <= c ∧ mate_stack_ nl = [] ∧
    ∀ k, 0 <= k < width * height →
         vget (mates_ nl) k = Some k ∧
         vget (connected_x_ nl) k = Some false ∧
         vget (connected_y_ nl) k = Some false.
Proof.
  intros Hw Hh Hfit Hin Hrange.
  destruct (dataset_search width height input Hw Hh Hfit Hin Hrange)
    as (c & B & nl & Hrun & _ & Hst & Hid & _ & _ & _ & Hres).
  destruct Hres as (c' & nl' & Heq & Hm & Hs & _ & [Hx Hy] & _ & Hc & _).
  injection Heq as <- <-.
  exists c, nl. split; [done|]. split; [done|]. split; [congruence|].
  intros k Hk. rewrite Hm, Hx, Hy. by apply Hid.
Qed.

Lemma search_leaves_the_state_as_found_witness :
  ∃ c nl,
    dataset 2 2 [1; 0; 0; 1; 9] =
      Some (Solved c nl (drop (Z.to_nat (2 * 2)) [1; 0; 0; 1; 9])) ∧
    0 <= c ∧ mate_stack_ nl = [] ∧
    ∀ k, 0 <= k < 2 * 2 →
         vget (mates_ nl) k = Some k ∧
         vget (connected_x_ nl) k = Some false ∧
         vget (connected_y_ nl) k = Some false.
Proof.
  apply (search_leaves_the_state_as_found 2 2 [1; 0; 0; 1; 9]);
    [lia | lia | lia | simpl; lia |].
  repeat (constructor; [lia|]). constructor.
Defined.



(** X3: on a board the types can hold, with numbers from 0 to 127, the
    diagram a dataset prints is that of a finished board: in the mates it is
    drawn from, every blank cell is closed or unused, and every numbered cell
    is the end of a line whose other end is a different cell carrying the
    same number. *)
Theorem printed_diagram_is_finished width height input :
  0 < width → 0 < height → width * height <= 32767 →
  width * height <= Z.of_nat (length input) →
  Forall (λ t, 0 <= t <= 127) (take (Z.to_nat (width * height)) input) →
  ∃ c nl,
    dataset width height input =
      Some (Solved c nl (drop (Z.to_nat (width * height)) input)) ∧
    ∀ d, d ∈ stdout_ nl → complete nl (diagram_mates d).
Proof.
  intros Hw Hh Hfit Hin Hrange.
  destruct (dataset_search width height input Hw Hh Hfit Hin Hrange)
    as (c & B & nl & Hrun & Hbr & _ & _ & Hsol & Hout & Hlab & Hres).
  destruct Hres as (c' & nl' & Heq & _ & _ & Hsb & _ & _ & Hc & Hs & Hp).
  injection Heq as <- <-. destruct Hp as (printed & Hpr & Hcase).
  exists c, nl. split; [done|]. intros d Hd.
  rewrite Hpr, Hout in Hd. rewrite Hsol in Hcase. simpl in *.
  destruct (c =? 0).
  - subst printed. by apply elem_of_nil in Hd.
  - destruct Hcase as (d' & -> & (leaf & Hleaf & Hmates) & _).
    apply list_elem_of_singleton in Hd as ->. rewrite <- Hmates.
    apply (complete_same_board B); [done|].
    apply (checked_board_complete B leaf); [|apply Hbr|done].
    eapply Forall_impl; [exact Hlab|]. intros t Ht. simpl in Ht. lia.
Qed.

Lemma printed_diagram_is_finished_witness :
  ∃ c nl,
    dataset 2 2 [1; 0; 0; 1; 9] =
      Some (Solved c nl (drop (Z.to_nat (2 * 2)) [1; 0; 0; 1; 9])) ∧
    ∀ d, d ∈ stdout_ nl → complete nl (diagram_mates d).
Proof.
  apply (printed_diagram_is_finished 2 2 [1; 0; 0; 1; 9]);
    [lia | lia | lia | simpl; lia |].
  repeat (constructor; [lia|]). constructor.
Defined.

(** ** More on the loops of [Initialize] *)

(** X4: from a cell of the board that is not the last one in the order of
    the diagonals, the [do ... while] of [Initialize] stops, within the
    fuel the model gives it, at the cell of the board that comes next in that
    order: it is on the board, it is later, and every later cell of the board
    is that cell or comes after it. *)
Theorem next_cell_is_the_next_on_the_board width height x y u v :
  on_board width height x y → on_board width height u v → diag_lt x y u v →
  ∃ x' y',
    next_cell (next_cell_fuel width height) width height x y = Some (x', y') ∧
    on_board width height x' y' ∧ diag_lt x y x' y' ∧
    ∀ a b, on_board width height a b → diag_lt x y a b →
           (a = x' ∧ b = y') ∨ diag_lt x' y' a b.
Proof.
  intros Hxy Huv Hlt.
  destruct (next_cell_exists width height x y u v Hxy Huv Hlt) as [[x' y'] Hrun].
  destruct (on_board_nonneg _ _ _ _ Hxy) as [Hx Hy].
  exists x', y'. split; [done|].
  by apply (next_cell_sound (next_cell_fuel width height) _ _ x y).
Qed.

Lemma next_cell_is_the_next_on_the_board_witness :
  ∃ x' y',
    next_cell (next_cell_fuel 3 2) 3 2 2 0 = Some (x', y') ∧
    on_board 3 2 x' y' ∧ diag_lt 2 0 x' y' ∧
    ∀ a b, on_board 3 2 a b → diag_lt 2 0 a b →
           (a = x' ∧ b = y') ∨ diag_lt x' y' a b.
Proof.
  apply (next_cell_is_the_next_on_the_board 3 2 2 0 2 1);
    unfold on_board, diag_lt; lia.
Defined.

(** The cell a look-back key belongs to. *)
Lemma look_back_cell width height nl x y s :
  indexed width height nl →
  on_board width height x y → look_back x y nl = Some s →
  ∃ a b, on_board width height a b ∧
         cell_at (cell_x_ nl) (cell_y_ nl) s a b ∧
         0 <= s < width * height ∧
         ((0 < y ∧ a = x ∧ b = y - 1) ∨
          (y = 0 ∧ 0 < x ∧ a = x - 1 ∧ b = 0) ∨
          (y = 0 ∧ x = 0 ∧ a = 0 ∧ b = 0)).
Proof.
  intros Hix Hon Hs. unfold look_back in Hs. unfold on_board in Hon.
  destruct (Z.ltb_spec 0 y) as [Hy|Hy].
  - destruct (indexed_key width height nl x (y - 1) Hix)
      as (k & Hk & Hc & Hkey); [unfold on_board; lia|].
    rewrite Hkey in Hs. injection Hs as <-. exists x, (y - 1).
    split; [unfold on_board; lia|]. split; [done|]. split; [done|]. left. lia.
  - destruct (Z.ltb_spec 0 x) as [Hx|Hx].
    + destruct (indexed_key width height nl (x - 1) y Hix)
        as (k & Hk & Hc & Hkey); [unfold on_board; lia|].
      rewrite Hkey in Hs. injection Hs as <-. exists (x - 1), 0.
      assert (y = 0) as -> by lia.
      split; [unfold on_board; lia|]. split; [done|]. split; [done|].
      right. left. lia.
    + injection Hs as <-. assert (x = 0 ∧ y = 0) as [-> ->] by lia.
      destruct (indexed_key width height nl 0 0 Hix)
        as (k & Hk & Hc & Hkey); [unfold on_board; lia|].
      assert (k = 0) as ->.
      { destruct (Z.eq_dec k 0) as [|Hne]; [done|]. exfalso.
        destruct (indexed_cell _ _ _ 0 Hix) as (a & b & Hc0 & Hon0 & _); [lia|].
        assert (diag_lt a b 0 0) as Hbad.
        { apply (indexed_order width height nl 0 k); try done; lia. }
        unfold diag_lt, on_board in *. lia. }
      exists 0, 0. split; [unfold on_board; lia|]. split; [done|].
      split; [done|]. right. right. done.
Qed.

Lemma look_back_order width height nl k1 k2 s1 s2 :
  indexed width height nl →
  0 <= k1 → k1 < k2 → k2 < width * height →
  vget (start_ nl) k1 = Some s1 → vget (start_ nl) k2 = Some s2 →
  s1 <= s2.
Proof.
  intros Hix H1 H12 H2 Hs1 Hs2.
  destruct (indexed_cell _ _ _ k1 Hix) as (x1 & y1 & Hc1 & Hon1 & _); [lia|].
  destruct (indexed_cell _ _ _ k2 Hix) as (x2 & y2 & Hc2 & Hon2 & _); [lia|].
  assert (diag_lt x1 y1 x2 y2) as Hlt.
  { apply (indexed_order width height nl k1 k2); try done; lia. }
  rewrite (ix_start _ _ _ Hix k1 x1 y1) in Hs1 by (done || lia).
  rewrite (ix_start _ _ _ Hix k2 x2 y2) in Hs2 by (done || lia).
  destruct (look_back_cell _ _ _ _ _ _ Hix Hon1 Hs1)
    as (a1 & b1 & Ha1 & Hca1 & Hr1 & Hcase1).
  destruct (look_back_cell _ _ _ _ _ _ Hix Hon2 Hs2)
    as (a2 & b2 & Ha2 & Hca2 & Hr2 & Hcase2).
  destruct (Z.le_gt_cases s1 s2) as [|Hgt]; [done|]. exfalso.
  assert (diag_lt a2 b2 a1 b1) as Hbad.
  { apply (indexed_order width height nl s2 s1); try done; lia. }
  clear - Hbad Hlt Hcase1 Hcase2 Hon1 Hon2.
  unfold diag_lt, on_board in *. lia.
Qed.

(** A table that does not decrease splits the values between its first and
    its last entry into windows, one for each step. *)
Lemma monotone_window (f : Z → Z) (n : nat) (h : Z) :
  (∀ k, 0 <= k < Z.of_nat n → f k <= f (k + 1)) →
  f 0 <= h < f (Z.of_nat n) →
  ∃ k, 0 < k <= Z.of_nat n ∧ f (k - 1) <= h < f k ∧
       ∀ k', 0 < k' <= Z.of_nat n → f (k' - 1) <= h < f k' → k' = k.
Proof.
  intros Hmono Hh.
  assert (∀ a b, 0 <= a → a <= b → b <= Z.of_nat n → f a <= f b) as Hle.
  { assert (∀ (d : nat) a, 0 <= a → a + Z.of_nat d <= Z.of_nat n →
                           f a <= f (a + Z.of_nat d)) as Hsteps.
    { induction d as [|d IH]; intros a Ha Hbound.
      - rewrite Z.add_0_r. lia.
      - rewrite Nat2Z.inj_succ in *.
        replace (a + Z.succ (Z.of_nat d)) with (a + Z.of_nat d + 1) by lia.
        apply Z.le_trans with (f (a + Z.of_nat d)); [apply IH; lia|].
        apply Hmono. lia. }
    intros a b Ha Hab Hb.
    replace b with (a + Z.of_nat (Z.to_nat (b - a))) by lia.
    apply Hsteps; lia. }
  assert (∃ k, 0 < k <= Z.of_nat n ∧ f (k - 1) <= h < f k) as (k & Hk & Hw).
  { clear Hle. induction n as [|n IH];
      [exfalso; change (Z.of_nat 0) with 0 in Hh; lia|].
    rewrite Nat2Z.inj_succ in *.
    destruct (Z.lt_ge_cases h (f (Z.of_nat n))) as [Hlt|Hge].
    - destruct IH as (k & Hk & Hw); [intros k Hk; apply Hmono; lia|lia|].
      exists k. split; [lia|done].
    - exists (Z.succ (Z.of_nat n)). split; [lia|].
      replace (Z.succ (Z.of_nat n) - 1) with (Z.of_nat n) by lia. lia. }
  exists k. split; [done|]. split; [done|]. intros k' Hk' Hw'.
  destruct (Z.lt_trichotomy k' k) as [Hlt|[?|Hgt]]; [|done|].
  - pose proof (Hle k' (k - 1)) as H. lia.
  - pose proof (Hle k (k' - 1)) as H. lia.
Qed.

Lemma start_of_bounds width height nl k :
  indexed width height nl → 0 <= k <= width * height →
  vget (start_ nl) k = Some (start_of nl k) ∧ 0 <= start_of nl k <= k ∧
  (k = width * height → start_of nl k = k).
Proof.
  intros Hix Hk. unfold start_of.
  destruct (decide (k = width * height)) as [->|Hne].
  - rewrite (ix_start_end _ _ _ Hix). simpl. split; [done|]. lia.
  - assert (0 <= k < width * height) as Hk' by lia.
    destruct (indexed_cell _ _ _ k Hix Hk') as (x & y & Hc & _).
    destruct (indexed_neighbours _ _ _ k x y Hix Hk' Hc)
      as (_ & _ & _ & s & Hs & Hr).
    rewrite Hs. simpl. split; [done|]. split; [done|]. intros ->. done.
Qed.

(** X5: the look-back keys do not decrease with the key, so the ranges of
    newly fixed cells that [Solve] checks at the successive indices split
    the board: every cell is checked at exactly one index. *)
Theorem every_cell_is_checked_once width height :
  0 < width → 0 < height → width * height <= 32767 →
  ∃ nl0 nl,
    new_NumberLink width height = Some nl0 ∧ Initialize nl0 = Some nl ∧
    (∀ k, 0 <= k < width * height → start_of nl k <= start_of nl (k + 1)) ∧
    ∀ h, 0 <= h < width * height →
      ∃ k, newly_fixed_at nl k h ∧ ∀ k', newly_fixed_at nl k' h → k' = k.
Proof.
  intros Hw Hh Hfit.
  destruct (Initialize_spec width height Hw Hh Hfit)
    as (nl0 & nl & Hnew & Hinit & Hix & _).
  exists nl0, nl. split; [done|]. split; [done|].
  assert (0 <= width * height) as Hn by (clear - Hw Hh; nia).
  assert (∀ k, 0 <= k < width * height → start_of nl k <= start_of nl (k + 1))
    as Hmono.
  { intros k Hk.
    destruct (start_of_bounds _ _ _ k Hix) as (Hs & Hr & _); [lia|].
    destruct (start_of_bounds _ _ _ (k + 1) Hix) as (Hs' & Hr' & Hlast); [lia|].
    destruct (decide (k + 1 = width * height)) as [Hend|Hne].
    - rewrite (Hlast Hend). lia.
    - apply (look_back_order width height nl k (k + 1)); try done; lia. }
  split; [done|]. intros h Hrange.
  destruct (start_of_bounds _ _ _ 0 Hix) as (_ & H0 & _); [lia|].
  destruct (start_of_bounds _ _ _ (width * height) Hix) as (_ & _ & Hend); [lia|].
  specialize (Hend eq_refl).
  destruct (monotone_window (start_of nl) (Z.to_nat (width * height)) h)
    as (k & Hk & Hwin & Huniq).
  - intros k Hk. apply Hmono. lia.
  - rewrite Z2Nat.id by done. lia.
  - rewrite Z2Nat.id in Hk, Huniq by done.
    pose proof (ix_size _ _ _ Hix) as Hsz.
    exists k. split.
    + split; [rewrite Hsz; lia|done].
    + intros k' [Hk' Hwin']. rewrite Hsz in Hk'. by apply Huniq.
Qed.

Lemma every_cell_is_checked_once_witness :
  ∃ nl0 nl,
    new_NumberLink 3 2 = Some nl0 ∧ Initialize nl0 = Some nl ∧
    (∀ k, 0 <= k < 3 * 2 → start_of nl k <= start_of nl (k + 1)) ∧
    ∀ h, 0 <= h < 3 * 2 →
      ∃ k, newly_fixed_at nl k h ∧ ∀ k', newly_fixed_at nl k' h → k' = k.
Proof. apply (every_cell_is_checked_once 3 2); lia. Defined.

(** X6: the look-back key of a cell is the key of its upper neighbour, or of
    its left neighbour in the top row, or 0 for the first cell; it is never
    above the key of the cell, and the keys of both neighbours that
    [Connect] may join the cell with lie from the look-back key up to, not
    including, the key of the cell: the slice that keys the memo holds them. *)
Theorem look_back_covers_both_neighbours width height :
  0 < width → 0 < height → width * height <= 32767 →
  ∃ nl0 nl,
    new_NumberLink width height = Some nl0 ∧ Initialize nl0 = Some nl ∧
    ∀ x y, 0 <= x < width → 0 <= y < height →
      ∃ k, GetCellKey x y nl = Some k ∧
           vget (start_ nl) k = Some (start_of nl k) ∧
           0 <= start_of nl k <= k ∧
           (0 < y → GetCellKey x (y - 1) nl = Some (start_of nl k) ∧
                    start_of nl k < k) ∧
           (y = 0 → 0 < x → GetCellKey (x - 1) y nl = Some (start_of nl k)) ∧
           (y = 0 → x = 0 → start_of nl k = 0) ∧
           (0 < x → ∃ left, GetCellKey (x - 1) y nl = Some left ∧
                            start_of nl k <= left < k).
Proof.
  intros Hw Hh Hfit.
  destruct (Initialize_spec width height Hw Hh Hfit)
    as (nl0 & nl & Hnew & Hinit & Hix & _).
  exists nl0, nl. split; [done|]. split; [done|]. intros x y Hx Hy.
  destruct (indexed_key width height nl x y Hix (conj Hx Hy))
    as (k & Hk & Hc & Hkey).
  destruct (indexed_neighbours _ _ _ k x y Hix Hk Hc)
    as (_ & Hup & Hleft & s & Hs & Hr).
  pose proof (ix_start _ _ _ Hix k x y Hk Hc) as Hlb.
  exists k. unfold start_of. rewrite Hs. simpl.
  split; [done|]. split; [done|]. split; [done|].
  split; [|split; [|split]].
  - intros Hy0. destruct (Hup Hy0) as (up & Hku & Hsu & Hru).
    rewrite Hs in Hsu. injection Hsu as ->. split; [done|lia].
  - intros -> Hx0. rewrite Hs in Hlb. unfold look_back in Hlb.
    destruct (Z.ltb_spec 0 0); [lia|]. destruct (Z.ltb_spec 0 x); [done|lia].
  - intros -> ->. rewrite Hs in Hlb. unfold look_back in Hlb. simpl in Hlb.
    by injection Hlb.
  - intros Hx0. destruct (Hleft Hx0) as (left & s' & Hkl & Hs' & Hrl).
    rewrite Hs in Hs'. injection Hs' as <-. exists left. split; [done|lia].
Qed.

Lemma look_back_covers_both_neighbours_witness :
  ∃ nl0 nl,
    new_NumberLink 3 2 = Some nl0 ∧ Initialize nl0 = Some nl ∧
    ∀ x y, 0 <= x < 3 → 0 <= y < 2 →
      ∃ k, GetCellKey x y nl = Some k ∧
           vget (start_ nl) k = Some (start_of nl k) ∧
           0 <= start_of nl k <= k ∧
           (0 < y → GetCellKey x (y - 1) nl = Some (start_of nl k) ∧
                    start_of nl k < k) ∧
           (y = 0 → 0 < x → GetCellKey (x - 1) y nl = Some (start_of nl k)) ∧
           (y = 0 → x = 0 → start_of nl k = 0) ∧
           (0 < x → ∃ left, GetCellKey (x - 1) y nl = Some left ∧
                            start_of nl k <= left < k).
Proof. apply (look_back_covers_both_neighbours 3 2); lia. Defined.

(** ** More on the reading of the board *)



(** ** More on the connectivity state *)

Lemma revert_loop_twice a b stack :
  (b <= a)%nat →
  ∀ mates m1 s1,
    revert_loop a stack mates = Some (m1, s1) →
    revert_loop b s1 m1 = revert_loop b stack mates.
Proof.
  intros Hba. induction stack as [|top rest IH]; intros mates m1 s1 H.
  - simpl in H. by simplify_eq.
  - cbn [revert_loop] in H.
    destruct (Nat.ltb_spec a (length (top :: rest))) as [Hlt|Hge].
    + destruct (vset mates top.1 top.2) as [mates'|] eqn:E; [|done].
      simpl in H. rewrite (IH _ _ _ H).
      cbn [revert_loop].
      destruct (Nat.ltb_spec b (length (top :: rest))) as [_|Hge]; [|lia].
      by rewrite E.
    + by simplify_eq.
Qed.

(** X8: rolling the mates back to a mark and then to a lower mark gives what
    rolling back to the lower mark at once gives. *)
Theorem RevertMates_twice a b nl nl1 :
  (b <= a)%nat → RevertMates a nl = Some nl1 →
  RevertMates b nl1 = RevertMates b nl.
Proof.
  intros Hba H. unfold RevertMates in *.
  destruct (revert_loop a (mate_stack_ nl) (mates_ nl)) as [[m1 s1]|] eqn:E;
    [|done].
  simpl in H. injection H as <-. simpl.
  rewrite (revert_loop_twice a b _ Hba _ _ _ E).
  by destruct (revert_loop b (mate_stack_ nl) (mates_ nl)) as [[m2 s2]|].
Qed.

Lemma RevertMates_twice_witness :
  RevertMates 1 (set_mates [-1; -1; 2]
                   (set_mate_stack [(0, 0); (1, 1)] row_1_0_1_joined))
  = RevertMates 1 row_1_0_1_joined.
Proof.
  apply (RevertMates_twice 2 1 row_1_0_1_joined); [lia|reflexivity].
Defined.

(** X9: in a state whose mates are symmetric and whose table is as long as
    the mates, [UniteMates] on two cells of the board returns: every index
    it uses, the far ends read from the mates included, is inside the
    vectors. *)
Theorem UniteMates_stays_in_bounds nl a b :
  symmetric (mates_ nl) → length (table_ nl) = length (mates_ nl) →
  0 <= a < Z.of_nat (length (mates_ nl)) →
  0 <= b < Z.of_nat (length (mates_ nl)) →
  ∃ r nl', UniteMates a b nl = Some (r, nl') ∧
           length (mates_ nl') = length (mates_ nl) ∧
           table_ nl' = table_ nl.
Proof.
  intros Hsym Hlen Ha Hb.
  destruct (UniteMates_total nl a b Hsym Hlen Ha Hb) as [[r nl'] HU].
  exists r, nl'. split; [done|].
  destruct (UniteMates_logged _ _ _ _ _ HU) as [p Hlog].
  split; [by destruct Hlog as (_ & _ & ? & _)|].
  by apply (logged_from_table nl nl' p).
Qed.

Lemma UniteMates_stays_in_bounds_witness :
  ∃ r nl', UniteMates 2 1 row_1_0_1_joined = Some (r, nl') ∧
           length (mates_ nl') = length (mates_ row_1_0_1_joined) ∧
           table_ nl' = table_ row_1_0_1_joined.
Proof.
  apply (UniteMates_stays_in_bounds row_1_0_1_joined 2 1);
    [apply symmetricb_correct; reflexivity | reflexivity | simpl; lia
    | simpl; lia].
Defined.

(** X10: [UniteMates] never reopens a closed cell: a cell whose mates entry
    is -1 before a call, in a state whose mates are symmetric, has the entry
    -1 after it, whatever the call returns. *)
Theorem closed_cells_stay_closed nl a b r nl' c :
  symmetric (mates_ nl) → length (table_ nl) = length (mates_ nl) →
  UniteMates a b nl = Some (r, nl') →
  vget (mates_ nl) c = Some (-1) →
  vget (mates_ nl') c = Some (-1).
Proof.
  intros Hsym Hlen HU Hc.
  destruct (vget (mates_ nl) a) as [end1|] eqn:Ha.
  2:{ rewrite UniteMates_fault in HU; [done|by left]. }
  destruct (vget (mates_ nl) b) as [end2|] eqn:Hb.
  2:{ rewrite UniteMates_fault in HU; [done|by right]. }
  destruct (UniteMates_outcome nl a b end1 end2 Hsym Hlen Ha Hb)
    as (r' & nl'' & HU' & Hearly & Hlate).
  rewrite HU' in HU. injection HU as -> ->.
  destruct (decide (end1 = -1 ∨ end2 = -1 ∨ a = end2 ∧ b = end1)) as [He|Hne].
  { destruct (Hearly He) as [_ ->]. done. }
  destruct (Hlate Hne) as (Hm & _ & _).
  assert (end1 ≠ -1 ∧ end2 ≠ -1) as [H1 H2] by tauto.
  destruct (symmetric_back _ _ _ Hsym Ha H1) as [Ha1 Hr1].
  destruct (symmetric_back _ _ _ Hsym Hb H2) as [Hb1 Hr2].
  pose proof (vget_range _ _ _ Ha) as Hra.
  pose proof (vget_range _ _ _ Hb) as Hrb.
  rewrite Hm, vget_united by done.
  repeat case_decide; simplify_eq; try done; lia.
Qed.

Lemma closed_cells_stay_closed_witness :
  vget (mates_ (set_mate_stack [(2, -1); (1, -1); (2, 2); (1, 1)]
                  (set_mates [-1; 2; 1] row_1_0_1))) 0 = Some (-1).
Proof.
  apply (closed_cells_stay_closed (set_mates [-1; 1; 2] row_1_0_1) 1 2 true
           (set_mate_stack [(2, -1); (1, -1); (2, 2); (1, 1)]
              (set_mates [-1; 2; 1] row_1_0_1)) 0).
  - apply symmetricb_correct. reflexivity.
  - reflexivity.
  - vm_compute. reflexivity.
  - reflexivity.
Defined.

(** ** A board with an unpaired number, again *)

(** X11: on a board the types can hold, if some number above 0 is written an
    odd number of times, the count is 0, no diagram is printed and the flag
    [solved_] stays down. *)
Theorem unpaired_number_prints_nothing width height input v :
  0 < width → 0 < height → width * height <= 32767 →
  width * height <= Z.of_nat (length input) →
  Forall (λ t, 0 <= t <= 127) (take (Z.to_nat (width * height)) input) →
  0 < v →
  Nat.Odd (length (filter (λ t, t = v)
                     (take (Z.to_nat (width * height)) input))) →
  ∃ nl, dataset width height input =
          Some (Solved 0 nl (drop (Z.to_nat (width * height)) input)) ∧
        stdout_ nl = [] ∧ solved_ nl = false.
Proof.
  intros Hw Hh Hfit Hin Hrange Hv Hodd.
  destruct (dataset_search width height input Hw Hh Hfit Hin Hrange)
    as (c & B' & nl & Hrun & _ & _ & _ & Hsol & Hout & _ & Hres).
  destruct Hres as (c' & nl' & Heq & _ & _ & _ & _ & _ & Hc & Hs & Hp).
  injection Heq as <- <-. destruct Hp as (printed & Hpr & Hcase).
  assert (c = 0) as ->.
  { destruct (board_read width height input Hw Hh Hfit Hin Hrange)
      as (nl0 & nl1 & B & Hnew & Hinit & Hread & Hbr & Hlab & Hinv & Hmz & Hcount).
    rewrite <- Hcount in Hodd.
    pose proof (ix_size _ _ _ (br_indexed _ _ _ Hbr)) as Hsz.
    assert (0 <= size_ B) as Hn by (rewrite Hsz; clear - Hw Hh; nia).
    assert (Forall (λ t, 0 <= t) (table_ B)) as Hpos.
    { eapply Forall_impl; [exact Hlab|]. intros t Ht. simpl in Ht. lia. }
    destruct (Solve_zero width height B v Hbr Hpos Hv Hodd (Solve_fuel B) 0 B)
      as (nlz & HS & _); [unfold Solve_fuel; lia | lia | done | done |].
    unfold dataset in Hrun.
    destruct (Z.eqb_spec width 0); [lia|].
    destruct (Z.eqb_spec height 0); [lia|].
    cbn [orb] in Hrun. rewrite Hnew in Hrun. cbn [mbind option_bind] in Hrun.
    rewrite Hinit in Hrun. cbn [mbind option_bind] in Hrun.
    rewrite Hread in Hrun. cbn [mbind option_bind] in Hrun.
    rewrite HS in Hrun. by injection Hrun. }
  exists nl. split; [done|]. rewrite Hs, Hpr, Hsol, Hout.
  rewrite orb_true_r in Hcase. by rewrite Hcase.
Qed.

Lemma unpaired_number_prints_nothing_witness :
  ∃ nl, dataset 3 2 [1; 0; 2; 1; 2; 2; 7] =
          Some (Solved 0 nl (drop (Z.to_nat (3 * 2)) [1; 0; 2; 1; 2; 2; 7])) ∧
        stdout_ nl = [] ∧ solved_ nl = false.
Proof.
  apply (unpaired_number_prints_nothing 3 2 [1; 0; 2; 1; 2; 2; 7] 2);
    [lia | lia | lia | simpl; lia | | lia | exists 1%nat; reflexivity].
  repeat (constructor; [lia|]). constructor.
Defined.

(** ** [GetHash] on short slices *)

Lemma xorshift_step_word x y z w key :
  xorshift_step (x, y, z, w) key = (y, z, w, xorshift_word x w key).
Proof. reflexivity. Qed.

Lemma lxor_cancel_l a b c : Z.lxor a b = Z.lxor a c → b = c.
Proof.
  intros H. apply (f_equal (Z.lxor a)) in H.
  by rewrite <- !Z.lxor_assoc, Z.lxor_nilpotent, !Z.lxor_0_l in H.
Qed.

Lemma to_uint_add_inj c a b :
  is_short a → is_short b →
  to_uint (c + to_uint a) = to_uint (c + to_uint b) → a = b.
Proof.
  unfold to_uint, is_short. change (2 ^ 32) with 4294967296. intros Ha Hb H.
  rewrite !Z.add_mod_idemp_r in H by done.
  pose proof (Z.div_mod (c + a) 4294967296) as H1.
  pose proof (Z.div_mod (c + b) 4294967296) as H2.
  rewrite H in H1. lia.
Qed.

Lemma xorshift_word_inj x w a b :
  is_short a → is_short b →
  xorshift_word x w a = xorshift_word x w b → a = b.
Proof.
  intros Ha Hb H. unfold xorshift_word in H. apply lxor_cancel_l in H.
  by apply to_uint_add_inj in H.
Qed.

Lemma is_uint_lxor a b : is_uint a → is_uint b → is_uint (Z.lxor a b).
Proof.
  unfold is_uint. intros [Ha Ha'] [Hb Hb'].
  assert (0 <= Z.lxor a b) as Hn by (by apply Z.lxor_nonneg).
  split; [done|].
  destruct (Z.eq_dec (Z.lxor a b) 0) as [->|Hne]; [done|].
  apply Z.log2_lt_pow2; [lia|].
  pose proof (Z.log2_lxor a b Ha Hb) as Hl.
  assert (∀ n, 0 <= n < 2 ^ 32 → Z.log2 n < 32) as Hlog.
  { intros n [Hn0 Hn1]. destruct (Z.eq_dec n 0) as [->|]; [done|].
    apply Z.log2_lt_pow2; lia. }
  pose proof (Hlog a (conj Ha Ha')). pose proof (Hlog b (conj Hb Hb')). lia.
Qed.

Lemma is_uint_to_uint n : is_uint (to_uint n).
Proof. unfold is_uint, to_uint. apply Z.mod_pos_bound. done. Qed.

Lemma is_uint_shiftr w n : 0 <= n → is_uint w → is_uint (Z.shiftr w n).
Proof.
  unfold is_uint. intros Hn [H0 H1]. rewrite Z.shiftr_div_pow2 by done.
  assert (0 < 2 ^ n) by (by apply Z.pow_pos_nonneg).
  split; [by apply Z.div_pos|].
  apply Z.le_lt_trans with w; [|done]. apply Z.div_le_upper_bound; [done|]. nia.
Qed.

Lemma is_uint_word x w key : is_uint w → is_uint (xorshift_word x w key).
Proof.
  intros Hw. unfold xorshift_word. apply is_uint_lxor; [|apply is_uint_to_uint].
  apply is_uint_lxor; [done|]. by apply is_uint_shiftr.
Qed.

(** The two halves of a 64-bit word made of two [unsigned int]s. *)
Lemma pack_inj x y x' y' :
  is_uint x → is_uint y → is_uint x' → is_uint y' →
  wrap_signed 64 (Z.lor (Z.shiftl x 32) y) =
  wrap_signed 64 (Z.lor (Z.shiftl x' 32) y') →
  x = x' ∧ y = y'.
Proof.
  assert (∀ a b, is_uint a → is_uint b →
                 Z.lor (Z.shiftl a 32) b = a * 2 ^ 32 + b) as Hpack.
  { intros a b [Ha Ha'] [Hb Hb'].
    assert (Z.land (Z.shiftl a 32) b = 0) as Hdisj.
    { apply Z.bits_inj'. intros n Hn. rewrite Z.land_spec, Z.bits_0.
      destruct (Z.lt_ge_cases n 32) as [Hlt|Hge].
      - by rewrite Z.shiftl_spec_low.
      - destruct (Z.eq_dec b 0) as [->|Hne];
          [by rewrite Z.bits_0, andb_false_r|].
        rewrite (Z.bits_above_log2 b n), andb_false_r; [done|done|].
        assert (Z.log2 b < 32) by (apply Z.log2_lt_pow2; lia). lia. }
    rewrite <- Z.lxor_lor, <- Z.add_nocarry_lxor by done.
    by rewrite Z.shiftl_mul_pow2. }
  intros Hx Hy Hx' Hy' H. rewrite !Hpack in H by done.
  unfold is_uint, wrap_signed in *.
  change (2 ^ 32) with 4294967296 in *.
  change (2 ^ (64 - 1)) with 9223372036854775808 in H.
  change (2 ^ 64) with 18446744073709551616 in H.
  pose proof (Z.div_mod (x * 4294967296 + y + 9223372036854775808)
                18446744073709551616) as H1.
  pose proof (Z.div_mod (x' * 4294967296 + y' + 9223372036854775808)
                18446744073709551616) as H2.
  assert ((x * 4294967296 + y + 9223372036854775808) mod 18446744073709551616
          = (x' * 4294967296 + y' + 9223372036854775808)
              mod 18446744073709551616) as Hm by lia.
  rewrite Hm in H1. lia.
Qed.

Ltac uint_goal := first [assumption | apply is_uint_word; uint_goal].

Lemma GetHash_inj_upto_4 l1 l2 :
  length l1 = length l2 → (length l1 <= 4)%nat →
  Forall is_short l1 → Forall is_short l2 →
  GetHash l1 = GetHash l2 → l1 = l2.
Proof.
  intros Hlen H4 Hs1 Hs2 Hh.
  assert (is_uint 123456789 ∧ is_uint 362436069 ∧ is_uint 521288629 ∧
          is_uint 88675123) as (Hx0 & Hy0 & Hz0 & Hw0)
    by (unfold is_uint; lia).
  destruct l1 as [|a1 [|a2 [|a3 [|a4 [|a5 l1]]]]];
    destruct l2 as [|b1 [|b2 [|b3 [|b4 [|b5 l2]]]]];
    try discriminate Hlen; try reflexivity; try (exfalso; simpl in H4; lia);
    unfold GetHash, xorshift_seed in Hh; cbn [fold_left] in Hh;
    rewrite !xorshift_step_word in Hh;
    apply pair_equal_spec in Hh as [Hh1 Hh2];
    repeat match goal with
           | H : Forall _ (_ :: _) |- _ => apply Forall_cons_1 in H as [? H]
           end.
  - apply pack_inj in Hh2 as [_ Hw1]; [|uint_goal..].
    apply xorshift_word_inj in Hw1; [by subst|assumption..].
  - apply pack_inj in Hh2 as [Hw1 Hw2]; [|uint_goal..].
    apply xorshift_word_inj in Hw1; [|assumption..]. subst b1.
    apply xorshift_word_inj in Hw2; [by subst|assumption..].
  - apply pack_inj in Hh1 as [_ Hw1]; [|uint_goal..].
    apply pack_inj in Hh2 as [Hw2 Hw3]; [|uint_goal..].
    apply xorshift_word_inj in Hw1; [|assumption..]. subst b1.
    apply xorshift_word_inj in Hw2; [|assumption..]. subst b2.
    apply xorshift_word_inj in Hw3; [by subst|assumption..].
  - apply pack_inj in Hh1 as [Hw1 Hw2]; [|uint_goal..].
    apply pack_inj in Hh2 as [Hw3 Hw4]; [|uint_goal..].
    apply xorshift_word_inj in Hw1; [|assumption..]. subst b1.
    apply xorshift_word_inj in Hw2; [|assumption..]. subst b2.
    apply xorshift_word_inj in Hw3; [|assumption..]. subst b3.
    apply xorshift_word_inj in Hw4; [by subst|assumption..].
Qed.

(** X12: [GetHash] tells apart any two sequences of at most four keys of the
    same length: up to that length two slices of mates have the same memo
    key exactly when they are equal. *)
Theorem GetHash_tells_short_slices_apart l1 l2 :
  length l1 = length l2 → (length l1 <= 4)%nat →
  Forall is_short l1 → Forall is_short l2 →
  (GetHash l1 = GetHash l2 ↔ l1 = l2).
Proof.
  intros Hlen H4 Hs1 Hs2. split.
  - by apply GetHash_inj_upto_4.
  - by intros ->.
Qed.

Lemma GetHash_tells_short_slices_apart_witness :
  GetHash [3; -1; 7] = GetHash [3; -1; 8] ↔ [3; -1; 7] = [3; -1; 8].
Proof.
  apply (GetHash_tells_short_slices_apart [3; -1; 7] [3; -1; 8]);
    [reflexivity | simpl; lia | |];
    repeat (constructor; [unfold is_short; lia|]); constructor.
Defined.

(** X13: four keys is the limit: two different sequences of five keys have
    the same hash. *)
Theorem GetHash_collides_on_five_keys :
  Forall is_short [0; 1; 0; 0; -1] ∧ Forall is_short [1; 0; 0; 0; 2056] ∧
  GetHash [0; 1; 0; 0; -1] = GetHash [1; 0; 0; 0; 2056].
Proof.
  split; [|split].
  - repeat (constructor; [unfold is_short; lia|]). constructor.
  - repeat (constructor; [unfold is_short; lia|]). constructor.
  - vm_compute. reflexivity.
Qed.

(** ** The command line *)

Lemma arguments_lookup argc argv j :
  1 <= j < argc → arguments argc argv !! Z.to_nat (j - 1) = argv !! Z.to_nat j.
Proof.
  intros Hj. unfold arguments. rewrite lookup_drop, lookup_take_lt by lia.
  f_equal. lia.
Qed.

Lemma ParseArguments_spec argc argv color :
  1 <= argc <= Z.of_nat (length argv) →
  ∃ argv',
    ParseArguments argc argv color =
      Some (1 + Z.of_nat (length (filter (λ s, is_flag s = false)
                                     (arguments argc argv))),
            argv', color || existsb color_flag (arguments argc argv)) ∧
    length argv' = length argv ∧
    take (S (length (filter (λ s, is_flag s = false) (arguments argc argv))))
         argv' =
      take 1 argv ++ filter (λ s, is_flag s = false) (arguments argc argv).
Proof.
  intros Hargc. set (args := arguments argc argv).
  assert (length args = Z.to_nat (argc - 1)) as Hlen.
  { unfold args, arguments. rewrite length_drop, length_take. lia. }
  pose (P := λ (j : Z) (s : Z * list string * bool),
          let done := take (Z.to_nat (j - 1)) args in
          let kept := filter (λ s, is_flag s = false) done in
          s.1.1 = 1 + Z.of_nat (length kept) ∧
          length s.1.2 = length argv ∧
          take (S (length kept)) s.1.2 = take 1 argv ++ kept ∧
          drop (Z.to_nat j) s.1.2 = drop (Z.to_nat j) argv ∧
          s.2 = color || existsb color_flag done).
  destruct (for_loop_inv P parse_body (Z.to_nat (argc - 1)) 1 (1, argv, color))
    as ([[arg_pos av] col] & Hrun & Hpos & Hlav & Htake & _ & Hcol).
  - unfold P. simpl. rewrite orb_false_r. repeat split. by rewrite app_nil_r.
  - intros j [[arg_pos av] col] Hj (Hpos & Hlav & Htake & Hdrop & Hcol).
    simpl in Hpos, Hlav, Htake, Hdrop, Hcol.
    set (done := take (Z.to_nat (j - 1)) args) in *.
    set (kept := filter (λ s, is_flag s = false) done) in *.
    assert (length kept <= Z.to_nat (j - 1))%nat as Hkept.
    { etrans; [apply length_filter|]. unfold done. rewrite length_take. lia. }
    destruct (lookup_lt_is_Some_2 argv (Z.to_nat j)) as [flag Hflag]; [lia|].
    assert (av !! Z.to_nat j = Some flag) as Hav.
    { rewrite <- (Nat.add_0_r (Z.to_nat j)), <- lookup_drop, Hdrop, lookup_drop.
      by rewrite Nat.add_0_r. }
    assert (take (Z.to_nat (j + 1 - 1)) args = done ++ [flag]) as Hnext.
    { replace (Z.to_nat (j + 1 - 1)) with (S (Z.to_nat (j - 1))) by lia.
      apply take_S_r. unfold args. rewrite arguments_lookup by lia. done. }
    unfold parse_body.
    assert (vget av j = Some flag) as -> by (apply vget_Some; split; [lia|done]).
    simpl. destruct (is_flag flag) eqn:Eflag.
    + rewrite vset_is_Some by lia. simpl. eexists. split; [done|].
      unfold P. simpl. rewrite Hnext, filter_app.
      assert (filter (λ s, is_flag s = false) [flag] = []) as ->.
      { rewrite filter_cons, filter_nil. by rewrite decide_False by congruence. }
      rewrite app_nil_r. fold kept.
      split; [done|]. split; [by rewrite length_insert|].
      split; [by rewrite take_insert_ge by lia|].
      split.
      * rewrite drop_insert_lt by lia.
        replace (Z.to_nat (j + 1)) with (Z.to_nat j + 1)%nat by lia.
        by rewrite <- !drop_drop, Hdrop.
      * rewrite existsb_app, orb_assoc, <- Hcol. simpl. rewrite orb_false_r.
        unfold color_flag. by rewrite Eflag.
    + rewrite vset_is_Some by lia. simpl. eexists. split; [done|].
      unfold P. simpl. rewrite Hnext, filter_app.
      assert (filter (λ s, is_flag s = false) [flag] = [flag]) as ->.
      { rewrite filter_cons, filter_nil. by rewrite decide_True. }
      fold kept. rewrite length_app. simpl length.
      split; [lia|]. split; [by rewrite length_insert|].
      split; [|split].
      * replace (S (length kept + 1)) with (S (S (length kept))) by lia.
        rewrite (take_S_r _ _ flag).
        -- rewrite take_insert_ge by lia. rewrite Htake.
           by rewrite <- app_assoc.
        -- replace (Z.to_nat arg_pos) with (S (length kept)) by lia.
           apply list_lookup_insert_eq. lia.
      * rewrite drop_insert_lt by lia.
        replace (Z.to_nat (j + 1)) with (Z.to_nat j + 1)%nat by lia.
        by rewrite <- !drop_drop, Hdrop.
      * rewrite existsb_app, orb_assoc, <- Hcol. simpl.
        unfold color_flag. by rewrite Eflag, !orb_false_r.
  - simpl in *.
    assert (take (Z.to_nat (1 + Z.of_nat (Z.to_nat (argc - 1)) - 1)) args = args)
      as Hall by (apply take_ge; lia).
    rewrite Hall in *. exists av. unfold ParseArguments. rewrite Hrun.
    split; [by rewrite Hpos, Hcol|]. done.
Qed.

(** X14: [ParseArguments] drops every argument that begins with two dashes
    and keeps the others, in their order, behind the program name; the new
    [argc] counts the program name and the arguments kept. *)
Theorem ParseArguments_keeps_the_other_arguments argc argv color :
  1 <= argc <= Z.of_nat (length argv) →
  ∃ argc' argv' color',
    ParseArguments argc argv color = Some (argc', argv', color') ∧
    1 <= argc' <= argc ∧ length argv' = length argv ∧
    take (Z.to_nat argc') argv' =
      take 1 argv ++ filter (λ s, is_flag s = false) (arguments argc argv).
Proof.
  intros Hargc.
  destruct (ParseArguments_spec argc argv color Hargc) as (argv' & Hrun & Hl & Ht).
  eexists _, argv', _. split; [exact Hrun|].
  assert (length (filter (λ s, is_flag s = false) (arguments argc argv))
          <= Z.to_nat (argc - 1))%nat as Hkept.
  { etrans; [apply length_filter|]. unfold arguments.
    rewrite length_drop, length_take. lia. }
  split; [lia|]. split; [done|].
  rewrite <- Ht. f_equal. lia.
Qed.

Lemma ParseArguments_keeps_the_other_arguments_witness :
  ∃ argc' argv' color',
    ParseArguments 5 ["solver"; "--color=no"; "a"; "--x"; "b"]%string false =
      Some (argc', argv', color') ∧
    1 <= argc' <= 5 ∧
    length argv' = length ["solver"; "--color=no"; "a"; "--x"; "b"]%string ∧
    take (Z.to_nat argc') argv' =
      take 1 ["solver"; "--color=no"; "a"; "--x"; "b"]%string ++
      filter (λ s, is_flag s = false)
        (arguments 5 ["solver"; "--color=no"; "a"; "--x"; "b"]%string).
Proof.
  apply (ParseArguments_keeps_the_other_arguments 5
           ["solver"; "--color=no"; "a"; "--x"; "b"]%string false).
  simpl. lia.
Defined.

Lemma before_equals_inv key :
  key = before_equals key ∨
  ∃ v, key = (before_equals key ++ String "="%char v)%string.
Proof.
  induction key as [|c rest IH]; [by left|]. simpl.
  destruct (Ascii.eqb_spec c "="%char) as [->|Hne].
  - right. by exists rest.
  - destruct IH as [IH|[v IH]].
    + left. by rewrite <- IH.
    + right. exists v.
      change (String c rest =
              String c (before_equals rest ++ String "="%char v)%string).
      f_equal. exact IH.
Qed.

Lemma color_flag_spec s :
  color_flag s = true ↔
  s = "--color"%string ∨ ∃ v, s = ("--color=" ++ v)%string.
Proof.
  split.
  - unfold color_flag. intros [Hflag Hkey]%andb_true_iff.
    apply String.eqb_eq in Hkey.
    destruct s as [|c1 [|c2 key]]; try done.
    assert (c1 = "-"%char ∧ c2 = "-"%char) as [-> ->].
    { simpl in Hflag.
      destruct c1 as [[] [] [] [] [] [] [] []]; try discriminate Hflag.
      destruct c2 as [[] [] [] [] [] [] [] []]; try discriminate Hflag.
      done. }
    simpl in Hkey. destruct (before_equals_inv key) as [H|[v H]];
      rewrite Hkey in H; subst key; [by left|right; by exists v].
  - intros [->|[v ->]]; reflexivity.
Qed.

(** X15: after [ParseArguments] the colour flag is on exactly when it was on
    before or some argument is [--color] or begins with [--color=]: whatever
    follows the equals sign, the flag is turned on, and no argument turns it
    off. *)
Theorem color_is_set_by_any_color_flag argc argv color :
  1 <= argc <= Z.of_nat (length argv) →
  ∃ argc' argv' color',
    ParseArguments argc argv color = Some (argc', argv', color') ∧
    (color' = true ↔
     color = true ∨
     ∃ s, s ∈ arguments argc argv ∧
          (s = "--color"%string ∨ ∃ v, s = ("--color=" ++ v)%string)).
Proof.
  intros Hargc.
  destruct (ParseArguments_spec argc argv color Hargc) as (argv' & Hrun & _).
  eexists _, argv', _. split; [exact Hrun|].
  rewrite orb_true_iff, existsb_exists. split.
  - intros [?|(s & Hin & Hs)]; [by left|]. right. exists s.
    split; [by apply list_elem_of_In|]. by apply color_flag_spec.
  - intros [?|(s & Hin & Hs)]; [by left|]. right. exists s.
    split; [by apply list_elem_of_In|]. by apply color_flag_spec.
Qed.

Lemma color_is_set_by_any_color_flag_witness :
  ∃ argc' argv' color',
    ParseArguments 3 ["solver"; "--color=false"; "a"]%string false =
      Some (argc', argv', color') ∧
    (color' = true ↔
     false = true ∨
     ∃ s, s ∈ arguments 3 ["solver"; "--color=false"; "a"]%string ∧
          (s = "--color"%string ∨ ∃ v, s = ("--color=" ++ v)%string)).
Proof.
  apply (color_is_set_by_any_color_flag 3
           ["solver"; "--color=false"; "a"]%string false).
  simpl. lia.
Defined.

(** ** The datasets of [main] *)

(** Two inputs whose first width * height numbers agree once narrowed to
    [char] leave the same board. *)
Lemma read_table_same width height input input' nl1 :
  indexed width height nl1 →
  length (table_ nl1) = Z.to_nat (width * height) →
  width * height <= Z.of_nat (length input) →
  width * height <= Z.of_nat (length input') →
  (∀ p, 0 <= p < width * height →
        to_char (default 0 (vget input p)) = to_char (default 0 (vget input' p))) →
  ∃ B, read_table input nl1 = Some (drop (Z.to_nat (width * height)) input, B) ∧
       read_table input' nl1 = Some (drop (Z.to_nat (width * height)) input', B).
Proof.
  intros Hix Hlen Hin Hin' Hsame.
  destruct (read_table_spec width height input nl1 Hix Hlen Hin)
    as (T & Hread & HlT & HT).
  destruct (read_table_spec width height input' nl1 Hix Hlen Hin')
    as (T' & Hread' & HlT' & HT').
  exists (set_table T nl1). split; [done|]. rewrite Hread'.
  replace T' with T; [done|].
  apply list_eq. intros i.
  destruct (decide (i < Z.to_nat (width * height))%nat) as [Hi|Hi].
  - assert (0 <= Z.of_nat i < width * height) as Hk by lia.
    destruct (indexed_cell _ _ _ _ Hix Hk) as (x & y & Hc & Hon & _).
    pose proof (position_range _ _ _ _ Hon) as Hp.
    pose proof (HT _ x y Hk Hc) as H1. pose proof (HT' _ x y Hk Hc) as H2.
    apply vget_Some in H1 as [_ H1]. apply vget_Some in H2 as [_ H2].
    rewrite Nat2Z.id in H1, H2. rewrite H1, H2. f_equal. by apply Hsame.
  - rewrite !lookup_ge_None_2 by lia. done.
Qed.

Lemma dataset_same width height input input' :
  0 < width → 0 < height → width * height <= 32767 →
  width * height <= Z.of_nat (length input) →
  width * height <= Z.of_nat (length input') →
  (∀ p, 0 <= p < width * height →
        to_char (default 0 (vget input p)) = to_char (default 0 (vget input' p))) →
  dataset width height input' =
    match dataset width height input with
    | Some (Solved c nl _) =>
        Some (Solved c nl (drop (Z.to_nat (width * height)) input'))
    | r => r
    end.
Proof.
  intros Hw Hh Hfit Hin Hin' Hsame.
  destruct (Initialize_spec width height Hw Hh Hfit)
    as (nl0 & nl1 & Hnew & Hinit & Hix & Hfresh & Htab0).
  destruct (read_table_same width height input input' nl1 Hix)
    as (B & Hread & Hread'); try done.
  { by rewrite Htab0, length_replicate. }
  unfold dataset.
  destruct (Z.eqb_spec width 0); [lia|]. destruct (Z.eqb_spec height 0); [lia|].
  cbn [orb]. rewrite Hnew. cbn [mbind option_bind].
  rewrite Hinit. cbn [mbind option_bind].
  rewrite Hread, Hread'. cbn [mbind option_bind].
  by destruct (Solve (Solve_fuel B) 0 B) as [[c nl]|].
Qed.

Lemma to_char_congruent a b : (a - b) mod 256 = 0 → to_char a = to_char b.
Proof.
  intros H. unfold to_char, wrap_signed.
  change (2 ^ (8 - 1)) with 128. change (2 ^ 8) with 256.
  pose proof (Z.div_mod (a - b) 256) as Hd. rewrite H in Hd.
  replace (a + 128) with (b + 128 + (a - b) / 256 * 256) by lia.
  by rewrite Z.mod_add.
Qed.

(** X16: the numbers of the cells are read modulo 256.  On a board the key
    type can number, whatever the numbers, two inputs whose numbers differ by
    multiples of 256 are both solved, with the same count and the same final
    state; each leaves its own rest of the input. *)
Theorem labels_are_read_modulo_256 width height input input' :
  0 < width → 0 < height → width * height <= 32767 →
  width * height <= Z.of_nat (length input) →
  Forall2 (λ a b, (a - b) mod 256 = 0) input input' →
  ∃ c nl,
    dataset width height input =
      Some (Solved c nl (drop (Z.to_nat (width * height)) input)) ∧
    dataset width height input' =
      Some (Solved c nl (drop (Z.to_nat (width * height)) input')).
Proof.
  intros Hw Hh Hfit Hin Hmod.
  pose proof (Forall2_length _ _ _ Hmod) as Hlen.
  assert (∀ p, 0 <= p < width * height →
               to_char (default 0 (vget input p)) =
               to_char (default 0 (vget input' p))) as Hsame.
  { intros p Hp.
    destruct (vget_is_Some input p) as [a Ha]; [lia|].
    destruct (vget_is_Some input' p) as [b Hb]; [lia|].
    rewrite Ha, Hb. simpl. apply to_char_congruent.
    apply vget_Some in Ha as [_ Ha]. apply vget_Some in Hb as [_ Hb].
    exact (Forall2_lookup_lr _ _ _ _ _ _ Hmod Ha Hb). }
  destruct (dataset_returns width height input Hw Hh Hfit Hin)
    as (c & B & nl & Hrun & _).
  exists c, nl. split; [done|].
  rewrite (dataset_same width height input input') by (done || lia).
  by rewrite Hrun.
Qed.

Lemma labels_are_read_modulo_256_witness :
  ∃ c nl,
    dataset 3 1 [1; 200; 1] =
      Some (Solved c nl (drop (Z.to_nat (3 * 1)) [1; 200; 1])) ∧
    dataset 3 1 [257; -56; -255] =
      Some (Solved c nl (drop (Z.to_nat (3 * 1)) [257; -56; -255])).
Proof.
  apply (labels_are_read_modulo_256 3 1 [1; 200; 1] [257; -56; -255]);
    [lia | lia | lia | simpl; lia |].
  repeat (constructor; [reflexivity|]). constructor.
Defined.

Lemma main_loop_boards bs stop :
  Forall valid_board bs → ends_input stop →
  ∀ fuel, (length (concat (map board_input bs) ++ stop) < fuel)%nat →
    main_loop fuel (concat (map board_input bs) ++ stop) =
      Some (map board_output bs).
Proof.
  intros Hbs Hstop. induction Hbs as [|[[w h] cells] bs Hb _ IH]; intros fuel Hfuel.
  - simpl in *. destruct fuel as [|fuel]; [lia|]. cbn [main_loop].
    destruct stop as [|width [|height rest]]; try done.
    simpl in Hstop. unfold dataset.
    destruct (Z.eqb_spec width 0), (Z.eqb_spec height 0); try done.
    exfalso. lia.
  - destruct Hb as (Hw & Hh & Hfit & Hlen & Hrange). simpl in Hw, Hh, Hfit, Hlen, Hrange.
    destruct fuel as [|fuel]; [simpl in Hfuel; lia|].
    assert (length (concat (map board_input bs) ++ stop) < fuel)%nat as Hmore.
    { simpl in Hfuel. rewrite !length_app in Hfuel. rewrite length_app. lia. }
    set (more := concat (map board_input bs) ++ stop) in *.
    assert (concat (map board_input ((w, h, cells) :: bs)) ++ stop
            = w :: h :: cells ++ more) as ->.
    { unfold more. simpl. by rewrite <- app_assoc. }
    cbn [main_loop].
    assert (take (Z.to_nat (w * h)) cells = cells) as Htake
      by (apply take_ge; lia).
    destruct (dataset_search w h cells Hw Hh Hfit) as (c & B & nl & Hrun & _);
      [lia|by rewrite Htake|].
    rewrite (dataset_same w h cells (cells ++ more)); try done; try lia.
    2:{ rewrite length_app. lia. }
    2:{ intros p Hp. f_equal. f_equal. unfold vget.
        destruct (Z.leb_spec 0 p); [|done]. rewrite lookup_app_l by lia. done. }
    rewrite Hrun. cbn [mbind option_bind].
    rewrite drop_app_length' by lia.
    rewrite IH.
    + simpl. unfold board_output. simpl. by rewrite Hrun.
    + done.
Qed.

(** X17: on an input made of boards the types can hold, each with its
    width * height numbers in [0 .. 127], followed by the end of the input,
    a lone number or a pair with a 0, [main] returns having written, board
    after board and in the order of the input, what it writes for that board
    given alone: no board changes the result of another. *)
Theorem main_solves_every_board argc argv bs stop :
  1 <= argc <= Z.of_nat (length argv) →
  Forall valid_board bs → ends_input stop →
  ∃ color,
    main argc argv (concat (map board_input bs) ++ stop) =
      Some (color, map board_output bs).
Proof.
  intros Hargc Hbs Hstop.
  destruct (ParseArguments_spec argc argv false Hargc) as (argv' & Hrun & _).
  unfold main. rewrite Hrun. cbn [mbind option_bind].
  rewrite (main_loop_boards bs stop Hbs Hstop) by lia.
  by eexists.
Qed.

Lemma main_solves_every_board_witness :
  ∃ color,
    main 1 ["solver"%string]
      (concat (map board_input [(2, 1, [1; 1]); (1, 1, [0])]) ++ [0; 0; 5]) =
      Some (color, map board_output [(2, 1, [1; 1]); (1, 1, [0])]).
Proof.
  apply (main_solves_every_board 1 ["solver"%string]
           [(2, 1, [1; 1]); (1, 1, [0])] [0; 0; 5]).
  - simpl. lia.
  - repeat constructor; simpl; lia.
  - left. reflexivity.
Defined.

(** ** The diagram *)

Lemma string_length_app (s1 s2 : string) :
  String.length (s1 +:+ s2) = (String.length s1 + String.length s2)%nat.
Proof. induction s1 as [|c s1 IH]; simpl; [done|]. by rewrite IH. Qed.

Lemma format_03d_length t :
  -99 <= t <= 127 → String.length (format_03d t) = 3%nat.
Proof.
  intros Ht.
  assert (forallb (λ t, Nat.eqb (String.length (format_03d t)) 3)
            (seqZ (-99) 227) = true) as Hall by (vm_compute; reflexivity).
  rewrite forallb_forall in Hall.
  apply Nat.eqb_eq, Hall, list_elem_of_In, elem_of_seqZ. lia.
Qed.

Lemma print_border_row color width height nl y :
  indexed width height nl →
  length (connected_y_ nl) = Z.to_nat (width * height) →
  0 <= y <= height →
  ∃ border,
    for_loop (Z.to_nat (width_ nl)) 0 (print_border_cell color nl y) EmptyString
      = Some border ∧
    (color = false → String.length border = Z.to_nat (4 * width)).
Proof.
  intros Hix Hly Hy.
  pose proof (ix_width _ _ _ Hix) as Hw. pose proof (ix_height _ _ _ Hix) as Hh.
  pose proof (ix_width_pos _ _ _ Hix) as Hwp.
  pose proof (ix_height_pos _ _ _ Hix) as Hhp.
  rewrite Hw.
  destruct (for_loop_inv
              (λ x (line : string),
                 color = false → String.length line = Z.to_nat (4 * x))
              (print_border_cell color nl y) (Z.to_nat width) 0 EmptyString)
    as (border & Hrun & Hlen).
  - done.
  - intros x line Hx Hline. unfold print_border_cell. rewrite Hh.
    destruct (Z.eqb_spec height 0); [lia|]. simpl.
    destruct (Z.eqb_spec (Z.rem y height) 0) as [Hrem|Hrem].
    + simpl. eexists. split; [done|]. intros ->.
      rewrite !string_length_app, Hline by done. simpl. lia.
    + assert (0 < y < height) as Hy'.
      { destruct (decide (y = 0)) as [->|]; [by rewrite Z.rem_0_l in Hrem|].
        destruct (decide (y = height)) as [->|]; [|lia].
        by rewrite Z.rem_same in Hrem. }
      destruct (indexed_key width height nl x y Hix) as (k & Hk & _ & ->);
        [unfold on_board; lia|].
      simpl.
      destruct (vget_is_Some (connected_y_ nl) k) as [c ->]; [lia|].
      simpl. eexists. split; [done|]. intros ->.
      rewrite !string_length_app, Hline by done. destruct c; simpl; lia.
  - exists border. split; [done|]. intros Hc. rewrite (Hlen Hc). lia.
Qed.

Lemma print_cell_row color width height nl y :
  indexed width height nl →
  length (table_ nl) = Z.to_nat (width * height) →
  length (mates_ nl) = Z.to_nat (width * height) →
  length (connected_x_ nl) = Z.to_nat (width * height) →
  Forall (λ t, -99 <= t <= 127) (table_ nl) →
  0 <= y < height →
  ∃ row,
    for_loop (Z.to_nat (width_ nl)) 0 (print_cell color nl y) EmptyString = Some row ∧
    (color = false → String.length row = Z.to_nat (4 * width)).
Proof.
  intros Hix Hlt Hlm Hlx Hrange Hy.
  pose proof (ix_width _ _ _ Hix) as Hw.
  pose proof (ix_width_pos _ _ _ Hix) as Hwp.
  rewrite Hw.
  destruct (for_loop_inv
              (λ x (line : string),
                 color = false → String.length line = Z.to_nat (4 * x))
              (print_cell color nl y) (Z.to_nat width) 0 EmptyString)
    as (row & Hrun & Hlen).
  - done.
  - intros x line Hx Hline. unfold print_cell. rewrite Hw.
    destruct (indexed_key width height nl x y Hix) as (k & Hk & _ & ->);
      [unfold on_board; lia|].
    simpl.
    destruct (vget_is_Some (connected_x_ nl) k) as [c Hc]; [lia|].
    destruct (vget_is_Some (table_ nl) k) as [t Ht]; [lia|].
    destruct (vget_is_Some (mates_ nl) k) as [m Hm]; [lia|].
    assert (∃ left, (if x =? 0 then Some (green color "|")
                     else c ← vget (connected_x_ nl) k;
                          Some (if c : bool then "#" else " ")) = Some left ∧
                    (color = false → String.length left = 1%nat))
      as (left & -> & Hleft).
    { destruct (x =? 0).
      - eexists. split; [done|]. by intros ->.
      - rewrite Hc. simpl. eexists. split; [done|]. intros _. by destruct c. }
    simpl. rewrite Ht. simpl.
    assert (∃ body, (if t =? 0 then
                       c ← vget (connected_x_ nl) k;
                       m ← vget (mates_ nl) k;
                       r ← (if x + 1 <? width
                            then k' ← GetCellKey (x + 1) y nl;
                                 vget (connected_x_ nl) k'
                            else Some false);
                       Some ((if c : bool then "#" else " ") +:+
                             (if m =? k then " " else "#") +:+
                             (if r : bool then "#" else " "))
                     else Some (format_03d t)) = Some body ∧
                    String.length body = 3%nat) as (body & -> & Hbody).
    { destruct (t =? 0).
      - rewrite Hc, Hm. simpl.
        assert (∃ r, (if x + 1 <? width
                      then k' ← GetCellKey (x + 1) y nl;
                           vget (connected_x_ nl) k'
                      else Some false) = Some r) as [r ->].
        { destruct (Z.ltb_spec (x + 1) width) as [Hx1|]; [|by eexists].
          destruct (indexed_key width height nl (x + 1) y Hix)
            as (k' & Hk' & _ & ->); [unfold on_board; lia|].
          simpl. apply vget_is_Some. lia. }
        simpl. eexists. split; [done|].
        by destruct c, (m =? k), r.
      - eexists. split; [done|]. apply format_03d_length.
        apply vget_Some in Ht as [_ Ht].
        rewrite Forall_lookup in Hrange. exact (Hrange _ _ Ht). }
    simpl. eexists. split; [done|]. intros Hcol.
    rewrite !string_length_app, (Hline Hcol), (Hleft Hcol), Hbody. lia.
  - exists row. split; [done|]. intros Hc. rewrite (Hlen Hc). lia.
Qed.

Lemma Print_text_shape color width height nl :
  indexed width height nl →
  length (table_ nl) = Z.to_nat (width * height) →
  length (mates_ nl) = Z.to_nat (width * height) →
  length (connected_x_ nl) = Z.to_nat (width * height) →
  length (connected_y_ nl) = Z.to_nat (width * height) →
  Forall (λ t, -99 <= t <= 127) (table_ nl) →
  ∃ lines,
    Print_text color nl = Some lines ∧
    length lines = Z.to_nat (2 * height + 1) ∧
    (color = false →
     Forall (λ l, String.length l = Z.to_nat (4 * width + 1)) lines).
Proof.
  intros Hix Hlt Hlm Hlx Hly Hrange.
  pose proof (ix_height _ _ _ Hix) as Hh.
  pose proof (ix_width_pos _ _ _ Hix) as Hwp.
  pose proof (ix_height_pos _ _ _ Hix) as Hhp.
  unfold Print_text. rewrite Hh.
  destruct (for_loop_inv
              (λ y (lines : list string),
                 length lines = Z.to_nat (2 * y + (if height <? y then -1 else 0)) ∧
                 (color = false →
                  Forall (λ l, String.length l = Z.to_nat (4 * width + 1)) lines))
              (print_row color nl) (Z.to_nat (height + 1)) 0 [])
    as (lines & Hrun & Hlen & Hwidth).
  - destruct (Z.ltb_spec height 0); [lia|]. split; [done|]. by intros _.
  - intros y lines Hy [Hlen Hwidth]. unfold print_row.
    destruct (print_border_row color width height nl y Hix Hly)
      as (border & -> & Hborder); [lia|].
    simpl. rewrite Hh.
    destruct (Z.ltb_spec height y) as [|_]; [lia|].
    destruct (Z.leb_spec height y) as [Hlast|Hmore].
    + eexists. split; [done|].
      destruct (Z.ltb_spec height (y + 1)) as [_|]; [|lia].
      rewrite length_app, Hlen. simpl. split; [lia|].
      intros Hc. apply Forall_app. split; [by apply Hwidth|].
      apply Forall_singleton. rewrite string_length_app, (Hborder Hc).
      subst color. simpl. lia.
    + destruct (print_cell_row color width height nl y Hix Hlt Hlm Hlx Hrange)
        as (row & -> & Hrow); [lia|].
      simpl. eexists. split; [done|].
      destruct (Z.ltb_spec height (y + 1)) as [|_]; [lia|].
      rewrite !length_app, Hlen. simpl. split; [lia|].
      intros Hc. rewrite !Forall_app. split; [split; [by apply Hwidth|]|].
      * apply Forall_singleton. rewrite string_length_app, (Hborder Hc).
        subst color. simpl. lia.
      * apply Forall_singleton. rewrite string_length_app, (Hrow Hc).
        subst color. simpl. lia.
  - exists lines. split; [done|]. split; [|done]. rewrite Hlen.
    destruct (Z.ltb_spec height (0 + Z.of_nat (Z.to_nat (height + 1)))); lia.
Qed.

Lemma indexed_same_board width height B nl :
  same_board B nl → indexed width height B → indexed width height nl.
Proof.
  intros (Hw & Hh & Hs & Hx & Hy & _ & Hk & Hst & _) Hix.
  assert (∀ x y, look_back x y nl = look_back x y B) as Hlb.
  { intros x y. unfold look_back, GetCellKey. by rewrite Hk, Hw. }
  split; rewrite ?Hw, ?Hh, ?Hs, ?Hx, ?Hy, ?Hk, ?Hst; try apply Hix.
  intros k x y Hk' Hc. rewrite Hlb.
  exact (ix_start width height B Hix k x y Hk' Hc).
Qed.

Lemma shown_same_board d nl :
  length (diagram_connected_x d) = length (connected_x_ nl) →
  length (diagram_connected_y d) = length (connected_y_ nl) →
  same_board nl (shown d nl).
Proof. intros Hx Hy. unfold same_board, shown. simpl. by repeat split. Qed.

(** X18: on a board the types can hold, whatever the numbers (from -99 to
    127, which take three characters), the mates and the links, [Print]
    returns having written 2 * height + 1 lines; without colour every line
    has 4 * width + 1 characters. *)
Theorem Print_draws_the_board width height T M CX CY color :
  0 < width → 0 < height → width * height <= 32767 →
  length T = Z.to_nat (width * height) →
  length M = Z.to_nat (width * height) →
  length CX = Z.to_nat (width * height) →
  length CY = Z.to_nat (width * height) →
  Forall (λ t, -99 <= t <= 127) T →
  ∃ nl0 nl lines,
    new_NumberLink width height = Some nl0 ∧ Initialize nl0 = Some nl ∧
    Print_text color (set_table T (shown (mkDiagram CX CY M) nl)) = Some lines ∧
    length lines = Z.to_nat (2 * height + 1) ∧
    (color = false →
     Forall (λ l, String.length l = Z.to_nat (4 * width + 1)) lines).
Proof.
  intros Hw Hh Hfit HT HM HCX HCY Hrange.
  destruct (Initialize_spec width height Hw Hh Hfit)
    as (nl0 & nl & Hnew & Hinit & Hix & Hfresh & _).
  pose proof (ix_size _ _ _ Hix) as Hsz.
  destruct Hfresh as [_ _ _ _ Hlcx Hlcy _].
  exists nl0, nl.
  destruct (Print_text_shape color width height
              (set_table T (shown (mkDiagram CX CY M) nl)))
    as (lines & Hrun & Hshape); try done.
  { apply indexed_set_table.
    apply (indexed_same_board width height nl); [|done].
    apply shown_same_board; simpl; congruence. }
  by exists lines.
Qed.

Lemma Print_draws_the_board_witness :
  ∃ nl0 nl lines,
    new_NumberLink 2 1 = Some nl0 ∧ Initialize nl0 = Some nl ∧
    Print_text false
      (set_table [1; 1] (shown (mkDiagram [false; true] [false; false] [1; 0]) nl))
      = Some lines ∧
    length lines = Z.to_nat (2 * 1 + 1) ∧
    (false = false →
     Forall (λ l, String.length l = Z.to_nat (4 * 2 + 1)) lines).
Proof.
  apply (Print_draws_the_board 2 1 [1; 1] [1; 0] [false; true] [false; false]
           false); [lia | lia | lia | reflexivity..|].
  repeat (constructor; [lia|]). constructor.
Defined.

Lemma to_char_range n : -128 <= to_char n <= 127.
Proof.
  unfold to_char, wrap_signed.
  change (2 ^ (8 - 1)) with 128. change (2 ^ 8) with 256.
  pose proof (Z.mod_pos_bound (n + 128) 256). lia.
Qed.

(** X19: on a board the key type can number whose numbers, once narrowed to
    the type of a cell, are -99 or above (as every number from 0 to 127 is;
    these take three characters), the diagram a dataset prints is drawn from
    tables of the size of the board: [Print] returns on it, with
    2 * height + 1 lines that have, without colour, 4 * width + 1 characters
    each. *)
Theorem printed_diagram_fits_the_board width height input color :
  0 < width → 0 < height → width * height <= 32767 →
  width * height <= Z.of_nat (length input) →
  Forall (λ t, -99 <= to_char t) (take (Z.to_nat (width * height)) input) →
  ∃ c nl,
    dataset width height input =
      Some (Solved c nl (drop (Z.to_nat (width * height)) input)) ∧
    ∀ d, d ∈ stdout_ nl →
      ∃ lines,
        Print_text color (shown d nl) = Some lines ∧
        length lines = Z.to_nat (2 * height + 1) ∧
        (color = false →
         Forall (λ l, String.length l = Z.to_nat (4 * width + 1)) lines).
Proof.
  intros Hw Hh Hfit Hin Hrange.
  destruct (dataset_returns width height input Hw Hh Hfit Hin)
    as (c & B & nl & Hrun & Hbr & _ & _ & Hsol & Hout & Hlabels & Hres).
  assert (Forall (λ t, -99 <= t <= 127) (table_ B)) as Htable.
  { apply Hlabels. eapply Forall_impl; [exact Hrange|].
    intros t Ht. simpl in Ht. pose proof (to_char_range t). lia. }
  destruct Hres as (c' & nl' & Heq & _ & _ & Hsb & _ & _ & Hc & Hs & Hp).
  injection Heq as <- <-. destruct Hp as (printed & Hpr & Hcase).
  exists c, nl. split; [done|]. intros d Hd.
  rewrite Hpr, Hout in Hd. rewrite Hsol in Hcase. simpl in *.
  destruct (c =? 0); [subst printed; by apply elem_of_nil in Hd|].
  destruct Hcase as (d' & -> & _ & Hlm & Hlx & Hly).
  apply list_elem_of_singleton in Hd as ->.
  pose proof (br_indexed _ _ _ Hbr) as Hix.
  pose proof (ix_size _ _ _ Hix) as Hsz. rewrite Hsz in Hlm, Hlx, Hly.
  assert (table_ nl = table_ B) as Htab by (by destruct Hsb as (_&_&_&_&_&?&_)).
  apply (Print_text_shape color width height (shown d' nl)).
  - apply (indexed_same_board width height B); [|done].
    apply (same_board_trans _ nl); [done|].
    apply shown_same_board.
    + rewrite Hlx, (same_board_cx_len B), (br_cx_len _ _ _ Hbr) by done.
      by rewrite Hsz.
    + rewrite Hly, (same_board_cy_len B), (br_cy_len _ _ _ Hbr) by done.
      by rewrite Hsz.
  - simpl. rewrite Htab, (br_table_len _ _ _ Hbr). by rewrite Hsz.
  - done.
  - done.
  - done.
  - simpl. by rewrite Htab.
Qed.

Lemma printed_diagram_fits_the_board_witness :
  ∃ c nl,
    dataset 3 1 [1; 200; 1; 9] =
      Some (Solved c nl (drop (Z.to_nat (3 * 1)) [1; 200; 1; 9])) ∧
    ∀ d, d ∈ stdout_ nl →
      ∃ lines,
        Print_text false (shown d nl) = Some lines ∧
        length lines = Z.to_nat (2 * 1 + 1) ∧
        (false = false →
         Forall (λ l, String.length l = Z.to_nat (4 * 3 + 1)) lines).
Proof.
  apply (printed_diagram_fits_the_board 3 1 [1; 200; 1; 9] false);
    [lia | lia | lia | simpl; lia |].
  repeat (constructor; [vm_compute; discriminate|]). constructor.
Defined.

(** ** The memo on boards with short slices *)

Lemma agree_refl s nl : agree s nl nl.
Proof. by intros c _. Qed.

Lemma agree_sym s nl1 nl2 : agree s nl1 nl2 → agree s nl2 nl1.
Proof. intros H c Hc. symmetry. by apply H. Qed.

Lemma agree_trans s nl1 nl2 nl3 :
  agree s nl1 nl2 → agree s nl2 nl3 → agree s nl1 nl3.
Proof. intros H1 H2 c Hc. rewrite H1 by done. by apply H2. Qed.

Lemma agree_le s s' nl1 nl2 : agree s nl1 nl2 → s <= s' → agree s' nl1 nl2.
Proof. intros H Hle c Hc. apply H. lia. Qed.

Lemma agree_frame s nl1 nl2 nl1' nl2' :
  agree s nl1 nl2 → mates_ nl1' = mates_ nl1 → mates_ nl2' = mates_ nl2 →
  agree s nl1' nl2'.
Proof. unfold agree. by intros H -> ->. Qed.

Lemma stays_refl nl : stays nl nl.
Proof. split; [done|]. split; [done|]. apply same_board_refl. Qed.

Lemma UniteMates_agree B k s b nl1 nl2 :
  0 <= s → s <= b < k →
  same_board B nl1 → same_board B nl2 →
  symmetric (mates_ nl1) → symmetric (mates_ nl2) →
  length (table_ nl1) = length (mates_ nl1) →
  length (table_ nl2) = length (mates_ nl2) →
  length (mates_ nl1) = length (mates_ nl2) →
  k < Z.of_nat (length (mates_ nl1)) →
  agree s nl1 nl2 →
  ∃ r nl1' nl2',
    UniteMates k b nl1 = Some (r, nl1') ∧ UniteMates k b nl2 = Some (r, nl2') ∧
    agree s nl1' nl2'.
Proof.
  intros Hs Hb Hsb1 Hsb2 Hsym1 Hsym2 Hlt1 Hlt2 Hlen Hk Hag.
  assert (0 <= k < Z.of_nat (length (mates_ nl1))) as Hrk by lia.
  assert (0 <= b < Z.of_nat (length (mates_ nl1))) as Hrb by lia.
  destruct (vget_is_Some (mates_ nl1) k Hrk) as [end1 Ha1].
  destruct (vget_is_Some (mates_ nl1) b Hrb) as [end2 Hb1].
  assert (vget (mates_ nl2) k = Some end1) as Ha2
    by (rewrite <- Hag by lia; done).
  assert (vget (mates_ nl2) b = Some end2) as Hb2
    by (rewrite <- Hag by lia; done).
  destruct (UniteMates_outcome nl1 k b end1 end2 Hsym1 Hlt1 Ha1 Hb1)
    as (r1 & nl1' & HU1 & Hearly1 & Hlate1).
  destruct (UniteMates_outcome nl2 k b end1 end2 Hsym2 Hlt2 Ha2 Hb2)
    as (r2 & nl2' & HU2 & Hearly2 & Hlate2).
  rewrite HU1, HU2.
  destruct (decide (end1 = -1 ∨ end2 = -1 ∨ k = end2 ∧ b = end1)) as [He|Hne].
  { destruct (Hearly1 He) as [-> ->]. destruct (Hearly2 He) as [-> ->].
    by exists false, nl1, nl2. }
  destruct (Hlate1 Hne) as (Hm1 & _ & Hiff1).
  destruct (Hlate2 Hne) as (Hm2 & _ & Hiff2).
  rewrite !(same_board_label B nl1) in Hiff1 by done.
  rewrite !(same_board_label B nl2) in Hiff2 by done.
  assert (r1 = r2) as <-.
  { destruct r1, r2; try done.
    - assert (true = false); [|done]. apply Hiff1. by apply Hiff2.
    - assert (true = false); [|done]. apply Hiff2. by apply Hiff1. }
  exists r1, nl1', nl2'. split; [done|]. split; [done|].
  assert (end1 ≠ -1 ∧ end2 ≠ -1) as [H1 H2]
    by (clear - Hne; split; intros ->; apply Hne; auto).
  destruct (symmetric_back _ _ _ Hsym1 Ha1 H1) as [_ Hr1].
  destruct (symmetric_back _ _ _ Hsym1 Hb1 H2) as [_ Hr2].
  intros c Hc. rewrite Hm1, Hm2.
  rewrite !vget_united by (done || lia).
  repeat case_decide; try done. by apply Hag.
Qed.

(** One run of the block that joins the cell with the upper cell, given
    what [UniteMates] and the search of the next index return. *)
Lemma Connect_upper_run width height B k s up Srec nl S M p ok nl1 :
  board_ready width height B →
  0 <= s → s <= up < k → k < size_ B →
  mates_inv B (k + 1) s nl → pending nl S M p →
  UniteMates k up nl = Some (ok, nl1) →
  ∃ nl2,
    mates_ nl2 = mates_ nl1 ∧ memo_ nl2 = memo_ nl ∧
    (ok = true → mates_inv B (k + 1) s nl2) ∧
    ∀ c nl3,
      (ok = true → Srec (to_short (k + 1)) nl2 = Some (c, nl3) ∧ stays nl2 nl3) →
      (ok = false → c = 0 ∧ nl3 = nl2) →
      ∃ nl4 p',
        Connect_upper Srec k up nl = Some (c, nl4) ∧
        pending nl4 S M p' ∧ same_board nl nl4 ∧ memo_ nl4 = memo_ nl3 ∧
        mates_ nl4 = mates_ nl1.
Proof.
  intros Hbr Hs Hup Hk Hinv Hpend HU.
  destruct (UniteMates_logged _ _ _ _ _ HU) as [q Hlog].
  pose proof (pending_logged _ _ _ _ _ _ Hpend Hlog) as Hpend1.
  pose proof (logged_from_same_board _ _ _ Hlog) as Hsb1.
  pose proof (logged_from_memo _ _ _ Hlog) as Hme1.
  assert (Z.of_nat (length (connected_y_ nl1)) = size_ B) as Hly.
  { rewrite (same_board_cy_len nl) by done.
    rewrite (same_board_cy_len B) by apply Hinv.
    rewrite (br_cy_len _ _ _ Hbr).
    destruct (mates_inv_table_len _ _ _ _ _ _ Hbr Hinv) as (_ & _ & ?). lia. }
  destruct ok.
  - pose proof (UniteMates_keeps_inv B k s up nl nl1
                  (br_table_len _ _ _ Hbr) Hs Hup Hk Hinv HU) as Hinv1.
    exists (set_connected_y (<[Z.to_nat k := true]> (connected_y_ nl1)) nl1).
    split; [done|]. split; [done|]. split.
    { intros _. apply (mates_inv_frame B _ _ nl1); [done|done|].
      apply same_board_set_connected_y. by rewrite length_insert. }
    intros c nl3 Hrun _. destruct (Hrun eq_refl) as [HS (Hm3 & Hst3 & Hsb3)].
    unfold Connect_upper. rewrite HU. simpl.
    rewrite mark_connected_y_eq by lia. simpl. rewrite HS. simpl.
    assert (length (connected_y_ nl3) = length (connected_y_ nl1)) as Hly3.
    { rewrite (same_board_cy_len _ _ Hsb3). simpl. by rewrite length_insert. }
    rewrite mark_connected_y_eq by lia. simpl.
    eexists _, (q ++ p). split; [done|]. simpl. split; [|split; [|done]].
    + apply (pending_frame nl1); [done|done..].
    + apply (same_board_trans _ nl1); [done|].
      apply (same_board_trans _ nl3).
      * apply (same_board_trans _ (set_connected_y
                 (<[Z.to_nat k := true]> (connected_y_ nl1)) nl1)); [|done].
        apply same_board_set_connected_y. by rewrite length_insert.
      * apply same_board_set_connected_y. by rewrite length_insert.
  - exists nl1. split; [done|]. split; [done|]. split; [done|].
    intros c nl3 _ Hstop. destruct (Hstop eq_refl) as [-> ->].
    unfold Connect_upper. rewrite HU. simpl.
    by exists nl1, (q ++ p).
Qed.

Lemma Connect_upper_pair width height B k s up Q Srec1 Srec2
    nl1 nl2 S1 M1 p1 S2 M2 p2 :
  board_ready width height B →
  0 <= s → s <= up < k → k < size_ B →
  rec_pair B k s Q Srec1 Srec2 →
  mates_inv B (k + 1) s nl1 → mates_inv B (k + 1) s nl2 →
  agree s nl1 nl2 → Q (memo_ nl1) →
  pending nl1 S1 M1 p1 → pending nl2 S2 M2 p2 →
  ∃ c nl1' nl2' p1' p2',
    Connect_upper Srec1 k up nl1 = Some (c, nl1') ∧
    Connect_upper Srec2 k up nl2 = Some (c, nl2') ∧
    pending nl1' S1 M1 p1' ∧ pending nl2' S2 M2 p2' ∧
    same_board nl1 nl1' ∧ same_board nl2 nl2' ∧ Q (memo_ nl1').
Proof.
  intros Hbr Hs Hup Hk Hrec Hinv1 Hinv2 Hag HQ Hpend1 Hpend2.
  destruct (mates_inv_table_len _ _ _ _ _ _ Hbr Hinv1) as (Htl1 & Hml1 & Hsz).
  destruct (mates_inv_table_len _ _ _ _ _ _ Hbr Hinv2) as (Htl2 & Hml2 & _).
  destruct (UniteMates_agree B k s up nl1 nl2)
    as (ok & u1 & u2 & HU1 & HU2 & Hagu); try done;
    try apply Hinv1; try apply Hinv2; try lia.
  destruct (Connect_upper_run width height B k s up Srec1 nl1 S1 M1 p1 ok u1)
    as (m1 & Hmm1 & Hme1 & Hinvm1 & Hfin1); try done.
  destruct (Connect_upper_run width height B k s up Srec2 nl2 S2 M2 p2 ok u2)
    as (m2 & Hmm2 & Hme2 & Hinvm2 & Hfin2); try done.
  destruct ok.
  - destruct (Hrec m1 m2) as (c & r1 & r2 & HS1 & HS2 & Hst1 & Hst2 & HQ');
      [by apply Hinvm1|by apply Hinvm2|by apply (agree_frame s u1 u2)
      |by rewrite Hme1|].
    destruct (Hfin1 c r1) as (f1 & q1 & Hrun1 & Hp1 & Hsb1 & Hmef1 & _);
      [done|done|].
    destruct (Hfin2 c r2) as (f2 & q2 & Hrun2 & Hp2 & Hsb2 & _); [done|done|].
    exists c, f1, f2, q1, q2. by rewrite Hmef1.
  - destruct (Hfin1 0 m1) as (f1 & q1 & Hrun1 & Hp1 & Hsb1 & Hmef1 & _);
      [done|done|].
    destruct (Hfin2 0 m2) as (f2 & q2 & Hrun2 & Hp2 & Hsb2 & _); [done|done|].
    exists 0, f1, f2, q1, q2. by rewrite Hmef1, Hme1.
Qed.

Lemma revert_run nl nl2 S M p2 (c : Z) :
  pending nl2 S M p2 → same_board nl nl2 →
  ∃ nl', RevertMates (length S) nl2 ≫= (λ nl, Some (c, nl)) = Some (c, nl') ∧
         mates_ nl' = M ∧ mate_stack_ nl' = S ∧ same_board nl nl' ∧
         memo_ nl' = memo_ nl2.
Proof.
  intros Hp2 Hsb2. rewrite (RevertMates_pending _ _ _ _ Hp2). simpl.
  eexists. split; [done|]. simpl. split; [done|]. split; [done|].
  split; [|done].
  destruct Hsb2 as (?&?&?&?&?&?&?&?&?&?&?). unfold same_board. simpl. done.
Qed.

Lemma upper_block_pair width height B k s up Q Srec1 Srec2 nl1 nl2 :
  board_ready width height B →
  up = -1 ∨ (0 <= s ∧ s <= up < k) → k < size_ B →
  rec_pair B k s Q Srec1 Srec2 →
  mates_inv B (k + 1) s nl1 → mates_inv B (k + 1) s nl2 →
  agree s nl1 nl2 → Q (memo_ nl1) →
  ∃ c nl1' nl2',
    (if 0 <=? up then
       '(c, nl) ← Connect_upper Srec1 k up nl1;
       nl ← RevertMates (length (mate_stack_ nl1)) nl;
       Some (c, nl)
     else Some (0, nl1)) = Some (c, nl1') ∧
    (if 0 <=? up then
       '(c, nl) ← Connect_upper Srec2 k up nl2;
       nl ← RevertMates (length (mate_stack_ nl2)) nl;
       Some (c, nl)
     else Some (0, nl2)) = Some (c, nl2') ∧
    stays nl1 nl1' ∧ stays nl2 nl2' ∧ Q (memo_ nl1').
Proof.
  intros Hbr Hup Hk Hrec Hinv1 Hinv2 Hag HQ.
  destruct (Z.leb_spec 0 up) as [Hpos|Hneg].
  - destruct Hup as [->|[Hs Hup]]; [lia|].
    destruct (Connect_upper_pair width height B k s up Q Srec1 Srec2 nl1 nl2
                (mate_stack_ nl1) (mates_ nl1) []
                (mate_stack_ nl2) (mates_ nl2) [])
      as (c & f1 & f2 & q1 & q2 & -> & -> & Hp1 & Hp2 & Hsb1 & Hsb2 & HQ');
      try done; try apply pending_init.
    simpl.
    destruct (revert_run nl1 f1 _ _ q1 c Hp1 Hsb1)
      as (r1 & -> & Hm1 & Hs1 & Hsbr1 & Hme1).
    destruct (revert_run nl2 f2 _ _ q2 c Hp2 Hsb2)
      as (r2 & -> & Hm2 & Hs2 & Hsbr2 & Hme2).
    exists c, r1, r2. split; [done|]. split; [done|].
    split; [done|]. split; [done|]. by rewrite Hme1.
  - exists 0, nl1, nl2. split; [done|]. split; [done|].
    split; [apply stays_refl|]. split; [apply stays_refl|done].
Qed.

Lemma left_block_pair width height B k s up left Q Srec1 Srec2 nl1 nl2 :
  board_ready width height B →
  up = -1 ∨ (0 <= s ∧ s <= up < k) →
  left = -1 ∨ (0 <= s ∧ s <= left < k) → k < size_ B →
  rec_pair B k s Q Srec1 Srec2 →
  mates_inv B (k + 1) s nl1 → mates_inv B (k + 1) s nl2 →
  agree s nl1 nl2 → Q (memo_ nl1) →
  ∃ c nl1' nl2',
    (if 0 <=? left then
       '(ok, nl) ← UniteMates k left nl1;
       '(c, nl) ←
         (if ok : bool then
            nl ← mark_connected_x k true nl;
            '(c, nl) ← Srec1 (to_short (k + 1)) nl;
            '(c', nl) ←
              (if 0 <=? up
               then Connect_upper Srec1 k up nl
               else Some (0, nl));
            nl ← mark_connected_x k false nl;
            Some (c + c', nl)
          else Some (0, nl));
       nl ← RevertMates (length (mate_stack_ nl1)) nl;
       Some (c, nl)
     else Some (0, nl1)) = Some (c, nl1') ∧
    (if 0 <=? left then
       '(ok, nl) ← UniteMates k left nl2;
       '(c, nl) ←
         (if ok : bool then
            nl ← mark_connected_x k true nl;
            '(c, nl) ← Srec2 (to_short (k + 1)) nl;
            '(c', nl) ←
              (if 0 <=? up
               then Connect_upper Srec2 k up nl
               else Some (0, nl));
            nl ← mark_connected_x k false nl;
            Some (c + c', nl)
          else Some (0, nl));
       nl ← RevertMates (length (mate_stack_ nl2)) nl;
       Some (c, nl)
     else Some (0, nl2)) = Some (c, nl2') ∧
    stays nl1 nl1' ∧ stays nl2 nl2' ∧ Q (memo_ nl1').
Proof.
  intros Hbr Hup Hleft Hk Hrec Hinv1 Hinv2 Hag HQ.
  destruct (Z.leb_spec 0 left) as [Hpos|Hneg].
  2:{ exists 0, nl1, nl2. split; [done|]. split; [done|].
      split; [apply stays_refl|]. split; [apply stays_refl|done]. }
  destruct Hleft as [->|[Hs Hleft]]; [lia|].
  destruct (mates_inv_table_len _ _ _ _ _ _ Hbr Hinv1) as (Htl1 & Hml1 & Hsz).
  destruct (mates_inv_table_len _ _ _ _ _ _ Hbr Hinv2) as (Htl2 & Hml2 & _).
  destruct (UniteMates_agree B k s left nl1 nl2)
    as (ok & u1 & u2 & HU1 & HU2 & Hagu); try done;
    try apply Hinv1; try apply Hinv2; try lia.
  rewrite HU1, HU2. simpl.
  destruct (UniteMates_logged _ _ _ _ _ HU1) as [q1 Hlog1].
  destruct (UniteMates_logged _ _ _ _ _ HU2) as [q2 Hlog2].
  pose proof (pending_logged _ _ _ _ _ _ (pending_init nl1) Hlog1) as Hpend1.
  pose proof (pending_logged _ _ _ _ _ _ (pending_init nl2) Hlog2) as Hpend2.
  pose proof (logged_from_same_board _ _ _ Hlog1) as Hsbu1.
  pose proof (logged_from_same_board _ _ _ Hlog2) as Hsbu2.
  pose proof (logged_from_memo _ _ _ Hlog1) as Hmeu1.
  destruct ok.
  2:{ simpl.
      destruct (revert_run nl1 u1 _ _ _ 0 Hpend1 Hsbu1)
        as (r1 & -> & Hm1 & Hs1 & Hsbr1 & Hme1).
      destruct (revert_run nl2 u2 _ _ _ 0 Hpend2 Hsbu2)
        as (r2 & -> & Hm2 & Hs2 & Hsbr2 & Hme2).
      exists 0, r1, r2. split; [done|]. split; [done|].
      split; [done|]. split; [done|]. by rewrite Hme1, Hmeu1. }
  pose proof (UniteMates_keeps_inv B k s left nl1 u1
                (br_table_len _ _ _ Hbr) Hs Hleft Hk Hinv1 HU1) as Hinvu1.
  pose proof (UniteMates_keeps_inv B k s left nl2 u2
                (br_table_len _ _ _ Hbr) Hs Hleft Hk Hinv2 HU2) as Hinvu2.
  assert (∀ nl u, mates_inv B (k + 1) s nl → same_board nl u →
                  Z.of_nat (length (connected_x_ u)) = size_ B) as Hlx.
  { intros nl u Hinv Hsb. rewrite (same_board_cx_len nl) by done.
    rewrite (same_board_cx_len B) by apply Hinv.
    rewrite (br_cx_len _ _ _ Hbr). lia. }
  rewrite (mark_connected_x_eq k true u1)
    by (rewrite (Hlx nl1 u1) by done; lia).
  rewrite (mark_connected_x_eq k true u2)
    by (rewrite (Hlx nl2 u2) by done; lia).
  set (m1 := set_connected_x _ u1). set (m2 := set_connected_x _ u2). simpl.
  assert (same_board u1 m1) as Hsbm1
    by (apply same_board_set_connected_x; by rewrite length_insert).
  assert (same_board u2 m2) as Hsbm2
    by (apply same_board_set_connected_x; by rewrite length_insert).
  destruct (Hrec m1 m2) as (c & a1 & a2 & -> & -> & Hst1 & Hst2 & HQa).
  { by apply (mates_inv_frame B _ _ u1). }
  { by apply (mates_inv_frame B _ _ u2). }
  { by apply (agree_frame s u1 u2). }
  { unfold m1. simpl. by rewrite Hmeu1. }
  simpl.
  destruct Hst1 as (Hma1 & Hsa1 & Hsba1). destruct Hst2 as (Hma2 & Hsa2 & Hsba2).
  assert (mates_inv B (k + 1) s a1) as Hinva1.
  { apply (mates_inv_frame B _ _ u1); [done|done|].
    by apply (same_board_trans _ m1). }
  assert (mates_inv B (k + 1) s a2) as Hinva2.
  { apply (mates_inv_frame B _ _ u2); [done|done|].
    by apply (same_board_trans _ m2). }
  assert (pending a1 (mate_stack_ nl1) (mates_ nl1) (q1 ++ [])) as Hpa1
    by (apply (pending_frame u1); done).
  assert (pending a2 (mate_stack_ nl2) (mates_ nl2) (q2 ++ [])) as Hpa2
    by (apply (pending_frame u2); done).
  assert (agree s a1 a2) as Haga by (by apply (agree_frame s u1 u2)).
  assert (∃ c' b1 b2 p1 p2,
            (if 0 <=? up then Connect_upper Srec1 k up a1 else Some (0, a1))
            = Some (c', b1) ∧
            (if 0 <=? up then Connect_upper Srec2 k up a2 else Some (0, a2))
            = Some (c', b2) ∧
            pending b1 (mate_stack_ nl1) (mates_ nl1) p1 ∧
            pending b2 (mate_stack_ nl2) (mates_ nl2) p2 ∧
            same_board a1 b1 ∧ same_board a2 b2 ∧ Q (memo_ b1))
    as (c' & b1 & b2 & p1 & p2 & -> & -> & Hpb1 & Hpb2 & Hsbb1 & Hsbb2 & HQb).
  { destruct (Z.leb_spec 0 up) as [Hupos|Hupneg].
    - destruct Hup as [->|[_ Hup]]; [lia|].
      by apply (Connect_upper_pair width height B k s up Q Srec1 Srec2 a1 a2
                  _ _ (q1 ++ []) _ _ (q2 ++ [])).
    - exists 0, a1, a2, (q1 ++ []), (q2 ++ []).
      split; [done|]. split; [done|]. split; [done|]. split; [done|].
      split; [apply same_board_refl|]. split; [apply same_board_refl|done]. }
  simpl.
  assert (same_board nl1 b1) as Hsb1.
  { apply (same_board_trans _ u1); [done|].
    apply (same_board_trans _ m1); [done|].
    by apply (same_board_trans _ a1). }
  assert (same_board nl2 b2) as Hsb2.
  { apply (same_board_trans _ u2); [done|].
    apply (same_board_trans _ m2); [done|].
    by apply (same_board_trans _ a2). }
  rewrite (mark_connected_x_eq k false b1)
    by (rewrite (Hlx nl1 b1) by done; lia).
  rewrite (mark_connected_x_eq k false b2)
    by (rewrite (Hlx nl2 b2) by done; lia).
  simpl.
  match goal with
  | |- context [RevertMates _ ?x ≫= _] =>
      destruct (revert_run nl1 x (mate_stack_ nl1) (mates_ nl1) p1 (c + c'))
        as (r1 & -> & Hm1 & Hs1 & Hsbr1 & Hme1)
  end.
  { by apply (pending_frame b1). }
  { apply (same_board_trans _ b1); [done|].
    apply same_board_set_connected_x. by rewrite length_insert. }
  match goal with
  | |- context [RevertMates _ ?x ≫= _] =>
      destruct (revert_run nl2 x (mate_stack_ nl2) (mates_ nl2) p2 (c + c'))
        as (r2 & -> & Hm2 & Hs2 & Hsbr2 & Hme2)
  end.
  { by apply (pending_frame b2). }
  { apply (same_board_trans _ b2); [done|].
    apply same_board_set_connected_x. by rewrite length_insert. }
  exists (c + c'), r1, r2. split; [done|]. split; [done|].
  split; [done|]. split; [done|]. by rewrite Hme1.
Qed.

Lemma Connect_pair width height B k s Q Srec1 Srec2 nl1 nl2 :
  board_ready width height B →
  0 <= k < size_ B → vget (start_ B) k = Some s →
  rec_pair B k s Q Srec1 Srec2 →
  mates_inv B (k + 1) s nl1 → mates_inv B (k + 1) s nl2 →
  agree s nl1 nl2 → Q (memo_ nl1) →
  ∃ c nl1' nl2',
    Connect Srec1 k nl1 = Some (c, nl1') ∧
    Connect Srec2 k nl2 = Some (c, nl2') ∧
    stays nl1 nl1' ∧ stays nl2 nl2' ∧ Q (memo_ nl1').
Proof.
  intros Hbr Hk Hstart Hrec Hinv1 Hinv2 Hag HQ.
  pose proof (br_indexed _ _ _ Hbr) as Hix.
  pose proof (ix_size _ _ _ Hix) as Hsz. rewrite Hsz in Hk.
  destruct (indexed_cell _ _ _ k Hix Hk) as (x & y & Hc & Hon & _).
  destruct (indexed_neighbours _ _ _ k x y Hix Hk Hc)
    as (_ & Hup & Hleft & _).
  pose proof (mi_board _ _ _ _ Hinv1) as Hbd1.
  pose proof (mi_board _ _ _ _ Hinv2) as Hbd2.
  assert (cell_x_ nl1 = cell_x_ B ∧ cell_y_ nl1 = cell_y_ B) as [Ecx1 Ecy1].
  { by destruct Hbd1 as (_&_&_&?&?&_). }
  assert (cell_x_ nl2 = cell_x_ B ∧ cell_y_ nl2 = cell_y_ B) as [Ecx2 Ecy2].
  { by destruct Hbd2 as (_&_&_&?&?&_). }
  destruct Hc as [Hcx' Hcy'].
  unfold Connect. rewrite Ecx1, Ecy1, Ecx2, Ecy2, Hcx', Hcy'. simpl.
  rewrite !(GetCellKey_same_board B nl1), !(GetCellKey_same_board B nl2) by done.
  assert (∃ left, (if 0 <? x then GetCellKey (x - 1) y B else Some (-1))
                  = Some left ∧ (left = -1 ∨ (0 <= s ∧ s <= left < k)))
    as (left & -> & Hl).
  { destruct (Z.ltb_spec 0 x) as [Hx|Hx]; [|by exists (-1); auto].
    destruct (Hleft Hx) as (left & s' & Hkl & Hs' & Hr).
    rewrite Hstart in Hs'. injection Hs' as <-. exists left.
    split; [done|]. right. lia. }
  assert (∃ up, (if 0 <? y then GetCellKey x (y - 1) B else Some (-1))
                = Some up ∧ (up = -1 ∨ (0 <= s ∧ s <= up < k)))
    as (up & -> & Hu).
  { destruct (Z.ltb_spec 0 y) as [Hy|Hy]; [|by exists (-1); auto].
    destruct (Hup Hy) as (up & Hku & Hs' & Hr).
    rewrite Hstart in Hs'. injection Hs' as Heq. exists up.
    split; [done|]. right. lia. }
  simpl. clear Hup Hleft.
  destruct (Hrec nl1 nl2 Hinv1 Hinv2 Hag HQ)
    as (c0 & a1 & a2 & -> & -> & (Hma1 & Hsa1 & Hsba1) & (Hma2 & Hsa2 & Hsba2)
        & HQa).
  simpl.
  assert (mates_inv B (k + 1) s a1) as Hinva1
    by (by apply (mates_inv_frame B _ _ nl1)).
  assert (mates_inv B (k + 1) s a2) as Hinva2
    by (by apply (mates_inv_frame B _ _ nl2)).
  assert (agree s a1 a2) as Haga by (by apply (agree_frame s nl1 nl2)).
  rewrite <- Hsz in Hk. rewrite <- Hsa1, <- Hsa2.
  destruct (upper_block_pair width height B k s up Q Srec1 Srec2 a1 a2)
    as (c1 & b1 & b2 & -> & -> & (Hmb1 & Hsb1 & Hsbb1) & (Hmb2 & Hsb2 & Hsbb2)
        & HQb); try done; [lia|].
  simpl.
  assert (mates_inv B (k + 1) s b1) as Hinvb1
    by (by apply (mates_inv_frame B _ _ a1)).
  assert (mates_inv B (k + 1) s b2) as Hinvb2
    by (by apply (mates_inv_frame B _ _ a2)).
  assert (agree s b1 b2) as Hagb by (by apply (agree_frame s a1 a2)).
  rewrite <- Hsb1, <- Hsb2.
  destruct (left_block_pair width height B k s up left Q Srec1 Srec2 b1 b2)
    as (c2 & e1 & e2 & -> & -> & (Hme1 & Hse1 & Hsbe1) & (Hme2 & Hse2 & Hsbe2)
        & HQe); try done; [lia|].
  simpl. exists (c0 + c1 + c2), e1, e2. split; [done|]. split; [done|].
  split; [|split; [|done]].
  - split; [congruence|]. split; [congruence|].
    apply (same_board_trans _ a1); [done|]. by apply (same_board_trans _ b1).
  - split; [congruence|]. split; [congruence|].
    apply (same_board_trans _ a2); [done|]. by apply (same_board_trans _ b2).
Qed.

Lemma hidden_loop_agree nl1 nl2 n lo :
  table_ nl1 = table_ nl2 →
  (∀ h, lo <= h < lo + Z.of_nat n →
        vget (mates_ nl1) h = vget (mates_ nl2) h) →
  hidden_loop n lo nl1 = hidden_loop n lo nl2.
Proof.
  intros Ht. revert lo. induction n as [|n IH]; intros lo Hm; [done|].
  cbn [hidden_loop]. rewrite Ht, Hm by lia.
  destruct (vget (table_ nl2) lo) as [t|]; [|done]. simpl.
  destruct (vget (mates_ nl2) lo) as [m|]; [|done]. simpl.
  destruct (hidden_fails t m lo); [done|]. apply IH. intros h Hh. apply Hm. lia.
Qed.

Lemma newly_fixed_agree B k nl1 nl2 :
  same_board B nl1 → same_board B nl2 →
  agree (retired_bound B k) nl1 nl2 →
  newly_fixed_fail k nl1 = newly_fixed_fail k nl2.
Proof.
  intros Hsb1 Hsb2 Hag. unfold newly_fixed_fail.
  assert (start_ nl1 = start_ B ∧ table_ nl1 = table_ B) as [-> Ht1]
    by (by destruct Hsb1 as (_&_&_&_&_&?&_&?&_)).
  assert (start_ nl2 = start_ B ∧ table_ nl2 = table_ B) as [-> Ht2]
    by (by destruct Hsb2 as (_&_&_&_&_&?&_&?&_)).
  destruct (Z.ltb_spec 0 k) as [Hk|]; [|done].
  destruct (vget (start_ B) (k - 1)) as [lo|] eqn:Elo; [|done]. simpl.
  destruct (vget (start_ B) k) as [hi|]; [|done]. simpl.
  apply hidden_loop_agree; [congruence|].
  intros h Hh. apply Hag. unfold retired_bound.
  destruct (Z.eqb_spec k 0); [lia|]. rewrite Elo. simpl. lia.
Qed.

Lemma start_mono width height B k s s' :
  board_ready width height B → 0 < k <= size_ B →
  vget (start_ B) (k - 1) = Some s → vget (start_ B) k = Some s' → s <= s'.
Proof.
  intros Hbr Hk Hs Hs'. pose proof (br_indexed _ _ _ Hbr) as Hix.
  pose proof (ix_size _ _ _ Hix) as Hsz. rewrite Hsz in Hk.
  destruct (decide (k = width * height)) as [->|Hne].
  - rewrite (ix_start_end _ _ _ Hix) in Hs'. injection Hs' as <-.
    destruct (start_of_bounds _ _ _ (width * height - 1) Hix) as (Hs1 & Hr & _);
      [lia|].
    rewrite Hs in Hs1. injection Hs1 as ->. lia.
  - apply (look_back_order width height B (k - 1) k); try done; lia.
Qed.

Lemma retired_bound_next B k s :
  0 <= k → vget (start_ B) k = Some s → retired_bound B (k + 1) = s.
Proof.
  intros Hk Hs. unfold retired_bound. destruct (Z.eqb_spec (k + 1) 0); [lia|].
  replace (k + 1 - 1) with k by lia. by rewrite Hs.
Qed.

Lemma retired_bound_le width height B k s :
  board_ready width height B → 0 <= k <= size_ B →
  vget (start_ B) k = Some s → 0 <= s → retired_bound B k <= s.
Proof.
  intros Hbr Hk Hs Hs0. unfold retired_bound.
  destruct (Z.eqb_spec k 0) as [|Hne]; [done|].
  destruct (start_at _ _ _ (k - 1) Hbr) as (lo & Hlo & _); [lia|].
  rewrite Hlo. simpl. apply (start_mono width height B k); try done. lia.
Qed.

Lemma entry_state k n :
  ∃ nl, (if k =? 0 then set_solved false n else n) = nl ∧
        mates_ nl = mates_ n ∧ same_board n nl ∧
        (memo_ nl = memo_ n) ∧ ∀ r, stays nl r → stays n r.
Proof.
  eexists. split; [done|].
  assert (mates_ (if k =? 0 then set_solved false n else n) = mates_ n ∧
          mate_stack_ (if k =? 0 then set_solved false n else n)
          = mate_stack_ n ∧
          memo_ (if k =? 0 then set_solved false n else n) = memo_ n ∧
          same_board n (if k =? 0 then set_solved false n else n))
    as (Em & Es & Eme & Hsb).
  { destruct (k =? 0); repeat split. }
  split; [done|]. split; [done|]. split; [done|].
  intros r (? & ? & ?). split; [congruence|]. split; [congruence|].
  by eapply same_board_trans.
Qed.

Lemma stays_leaf nl :
  stays nl (if solved_ nl then nl else set_solved true (Print nl)).
Proof.
  destruct (solved_ nl); [apply stays_refl|].
  split; [done|]. split; [done|]. unfold same_board. simpl. by repeat split.
Qed.

(** The search without the memo returns the same count from two states
    that agree from the first cell not yet checked on. *)
Lemma Solve_plain_pair width height B :
  board_ready width height B →
  ∀ fuel k nl1 nl2,
    size_ B - k < Z.of_nat fuel → 0 <= k <= size_ B →
    mates_inv B k (retired_bound B k) nl1 →
    mates_inv B k (retired_bound B k) nl2 →
    agree (retired_bound B k) nl1 nl2 →
    ∃ c nl1' nl2',
      Solve_plain fuel k nl1 = Some (c, nl1') ∧
      Solve_plain fuel k nl2 = Some (c, nl2') ∧
      stays nl1 nl1' ∧ stays nl2 nl2'.
Proof.
  intros Hbr.
  pose proof (br_indexed _ _ _ Hbr) as Hix.
  pose proof (ix_size _ _ _ Hix) as Hsz.
  pose proof (ix_fits _ _ _ Hix) as Hfits.
  induction fuel as [|fuel IH];
    intros k n1 n2 Hfuel Hk Hinv1' Hinv2' Hag'; [lia|].
  cbn [Solve_plain].
  destruct (entry_state k n1) as (nl1 & -> & Em1 & Hsb1 & Hback1).
  destruct (entry_state k n2) as (nl2 & -> & Em2 & Hsb2 & Hback2).
  assert (mates_inv B k (retired_bound B k) nl1) as Hinv1
    by (by apply (mates_inv_frame B _ _ n1)).
  assert (mates_inv B k (retired_bound B k) nl2) as Hinv2
    by (by apply (mates_inv_frame B _ _ n2)).
  assert (agree (retired_bound B k) nl1 nl2) as Hag
    by (by apply (agree_frame _ n1 n2)).
  clear Hinv1' Hinv2' Hag' Em1 Em2 Hsb1 Hsb2.
  destruct (newly_fixed_spec _ _ _ k nl1 Hbr Hk Hinv1)
    as (s & dead & Hs & Hrs & Hlast & Hrun1 & Hpass1).
  destruct (newly_fixed_spec _ _ _ k nl2 Hbr Hk Hinv2)
    as (s' & dead' & Hs' & _ & _ & Hrun2 & Hpass2).
  rewrite Hs in Hs'. injection Hs' as <-.
  pose proof (newly_fixed_agree B k nl1 nl2 (mi_board _ _ _ _ Hinv1)
                (mi_board _ _ _ _ Hinv2) Hag) as Heq.
  rewrite Hrun1, Hrun2 in Heq. injection Heq as <-.
  rewrite Hrun1, Hrun2. simpl. destruct dead.
  { exists 0, nl1, nl2. split; [done|]. split; [done|].
    split; [apply Hback1|apply Hback2]; apply stays_refl. }
  specialize (Hpass1 eq_refl). specialize (Hpass2 eq_refl).
  assert (size_ nl1 = size_ B) as ->
    by (by destruct (mi_board _ _ _ _ Hpass1) as (_&_&?&_)).
  assert (size_ nl2 = size_ B) as ->
    by (by destruct (mi_board _ _ _ _ Hpass2) as (_&_&?&_)).
  destruct (Z.eqb_spec k (size_ B)) as [Hend|Hmore].
  { eexists 1, _, _. split; [done|]. split; [done|].
    split; [apply Hback1|apply Hback2]; apply stays_leaf. }
  destruct (Connect_pair width height B k s (λ _, True)
              (Solve_plain fuel) (Solve_plain fuel) nl1 nl2)
    as (c & e1 & e2 & Hr1 & Hr2 & Hst1 & Hst2 & _); try done; try lia.
  - intros a1 a2 Ha1 Ha2 Haga _. rewrite to_short_id by lia.
    destruct (IH (k + 1) a1 a2) as (c & r1 & r2 & H1 & H2 & Hs1 & Hs2);
      try lia; try (by rewrite (retired_bound_next B k s) by (done || lia)).
    by exists c, r1, r2.
  - apply (mates_inv_weaken B k s); [done|lia|lia].
  - apply (mates_inv_weaken B k s); [done|lia|lia].
  - apply (agree_le (retired_bound B k)); [done|].
    apply (retired_bound_le width height); try done. lia.
  - exists c, e1, e2. split; [done|]. split; [done|].
    split; [by apply Hback1|by apply Hback2].
Qed.

Lemma slice_lookup v lo hi l c :
  slice v lo hi = Some l → lo <= c < hi →
  vget v c = l !! Z.to_nat (c - lo).
Proof.
  intros [Hr ->]%slice_Some Hc.
  rewrite lookup_take_lt, lookup_drop by lia.
  unfold vget. destruct (Z.leb_spec 0 c); [|lia]. f_equal. lia.
Qed.

Lemma slice_length v lo hi l :
  slice v lo hi = Some l → length l = Z.to_nat (hi - lo).
Proof.
  intros [Hr ->]%slice_Some. rewrite length_take, length_drop. lia.
Qed.

Lemma slice_agree s k nl1 nl2 :
  agree s nl1 nl2 → length (mates_ nl1) = length (mates_ nl2) →
  slice (mates_ nl1) s k = slice (mates_ nl2) s k.
Proof.
  intros Hag Hlen. unfold slice. rewrite Hlen.
  destruct ((0 <=? s) && (s <=? k) && (k <=? Z.of_nat (length (mates_ nl2))))
    eqn:E; [|done].
  f_equal. f_equal. apply list_eq. intros i. rewrite !lookup_drop.
  apply andb_true_iff in E as [[H0%Z.leb_le _]%andb_true_iff _].
  specialize (Hag (s + Z.of_nat i)). unfold vget in Hag.
  destruct (Z.leb_spec 0 (s + Z.of_nat i)); [|lia].
  replace (Z.to_nat (s + Z.of_nat i)) with (Z.to_nat s + i)%nat in Hag by lia.
  apply Hag. lia.
Qed.

Lemma slice_short v lo hi l :
  symmetric v → Z.of_nat (length v) <= 32767 →
  slice v lo hi = Some l → Forall is_short l.
Proof.
  intros Hsym Hfit Hsl. apply Forall_lookup. intros i e Hi.
  pose proof (slice_length _ _ _ _ Hsl) as Hlen.
  pose proof (lookup_lt_Some _ _ _ Hi) as Hlt.
  assert (vget v (lo + Z.of_nat i) = Some e) as He.
  { rewrite (slice_lookup v lo hi l) by (done || lia).
    replace (Z.to_nat (lo + Z.of_nat i - lo)) with i by lia. done. }
  unfold is_short. destruct (decide (e = -1)) as [->|Hne]; [lia|].
  destruct (symmetric_back _ _ _ Hsym He Hne) as [_ Hr]. lia.
Qed.

Lemma plain_rec_pair width height B k s fuel :
  board_ready width height B → 0 <= k < size_ B →
  vget (start_ B) k = Some s → size_ B - (k + 1) < Z.of_nat fuel →
  rec_pair B k s (λ _, True) (Solve_plain fuel) (Solve_plain fuel).
Proof.
  intros Hbr Hk Hs Hfuel a1 a2 Ha1 Ha2 Haga _.
  pose proof (ix_fits _ _ _ (br_indexed _ _ _ Hbr)) as Hfits.
  pose proof (ix_size _ _ _ (br_indexed _ _ _ Hbr)) as Hsz.
  rewrite to_short_id by lia.
  destruct (Solve_plain_pair width height B Hbr fuel (k + 1) a1 a2)
    as (c & r1 & r2 & H1 & H2 & Hs1 & Hs2);
    try lia; try (by rewrite (retired_bound_next B k s) by (done || lia)).
  by exists c, r1, r2.
Qed.

(** The count found without the memo in one state is the count found in any
    state whose slice has the same hash, when slices have at most 4 keys. *)
Lemma stored_count_sound width height B k s tuple c nl2 e2 :
  board_ready width height B → 0 <= k < size_ B →
  vget (start_ B) k = Some s → 0 <= s → k - s <= 4 →
  mates_inv B k s nl2 → slice (mates_ nl2) s k = Some tuple →
  Connect (Solve_plain (Z.to_nat (size_ B - k))) k nl2 = Some (c, e2) →
  ∀ nl tuple',
    mates_inv B k s nl → slice (mates_ nl) s k = Some tuple' →
    GetHash tuple' = GetHash tuple →
    ∃ nl', Connect (Solve_plain (Z.to_nat (size_ B - k))) k nl = Some (c, nl').
Proof.
  intros Hbr Hk Hs Hs0 Hwin Hinv2 Hsl2 Hrun2 nl tuple' Hinv Hsl Hhash.
  pose proof (ix_fits _ _ _ (br_indexed _ _ _ Hbr)) as Hfits.
  pose proof (ix_size _ _ _ (br_indexed _ _ _ Hbr)) as Hsz.
  destruct (mates_inv_table_len _ _ _ _ _ _ Hbr Hinv2) as (_ & Hml2 & _).
  destruct (mates_inv_table_len _ _ _ _ _ _ Hbr Hinv) as (_ & Hml & _).
  assert (tuple' = tuple) as ->.
  { apply GetHash_inj_upto_4; [| | | |done].
    - rewrite (slice_length _ _ _ _ Hsl), (slice_length _ _ _ _ Hsl2). done.
    - rewrite (slice_length _ _ _ _ Hsl). lia.
    - apply (slice_short (mates_ nl) s k); [apply Hinv|lia|done].
    - apply (slice_short (mates_ nl2) s k); [apply Hinv2|lia|done]. }
  assert (agree s nl2 nl) as Hag.
  { intros c0 Hc0. destruct (Z.lt_ge_cases c0 k) as [Hlt|Hge].
    - rewrite (slice_lookup _ _ _ _ c0 Hsl2), (slice_lookup _ _ _ _ c0 Hsl);
        (done || lia).
    - destruct (Z.lt_ge_cases c0 (size_ B)) as [Hin|Hout].
      + rewrite (mi_untouched _ _ _ _ Hinv2), (mi_untouched _ _ _ _ Hinv);
          (done || lia).
      + rewrite !vget_None by lia. done. }
  destruct (Connect_pair width height B k s (λ _, True)
              (Solve_plain (Z.to_nat (size_ B - k)))
              (Solve_plain (Z.to_nat (size_ B - k))) nl2 nl)
    as (c' & r1 & r2 & Hr1 & Hr2 & _); try done.
  - apply (plain_rec_pair width height); try done. lia.
  - apply (mates_inv_weaken B k s); [done|lia|lia].
  - apply (mates_inv_weaken B k s); [done|lia|lia].
  - rewrite Hrun2 in Hr1. injection Hr1 as <- <-. by exists r2.
Qed.

(** [Solve] and the search without the memo return the same count, on a
    board whose slices have at most 4 keys. *)
Lemma Solve_memo_pair width height B :
  board_ready width height B →
  (∀ k s, 0 <= k < size_ B → vget (start_ B) k = Some s → k - s <= 4) →
  ∀ fuel k nl1 nl2,
    Z.of_nat fuel = size_ B + 1 - k → 0 <= k <= size_ B →
    mates_inv B k (retired_bound B k) nl1 →
    mates_inv B k (retired_bound B k) nl2 →
    agree (retired_bound B k) nl1 nl2 →
    memo_sound B (memo_ nl1) →
    ∃ c nl1' nl2',
      Solve fuel k nl1 = Some (c, nl1') ∧
      Solve_plain fuel k nl2 = Some (c, nl2') ∧
      stays nl1 nl1' ∧ stays nl2 nl2' ∧ memo_sound B (memo_ nl1').
Proof.
  intros Hbr Hwin.
  pose proof (br_indexed _ _ _ Hbr) as Hix.
  pose proof (ix_size _ _ _ Hix) as Hsz.
  pose proof (ix_fits _ _ _ Hix) as Hfits.
  induction fuel as [|fuel IH];
    intros k nl1 n2 Hfuel Hk Hinv1' Hinv2' Hag' Hms'; [lia|].
  cbn [Solve Solve_plain].
  destruct (entry_state k n2) as (nl2 & -> & Em2 & Hsb2 & _ & Hback2).
  assert (mates_inv B k (retired_bound B k) nl2) as Hinv2
    by (by apply (mates_inv_frame B _ _ n2)).
  assert (agree (retired_bound B k) nl1 nl2) as Hag''
    by (by apply (agree_frame _ nl1 n2)).
  clear Hinv2' Hag' Em2 Hsb2.
  set (nl0 := if k =? 0 then set_solved false nl1 else nl1).
  assert (mates_ nl0 = mates_ nl1 ∧ mate_stack_ nl0 = mate_stack_ nl1 ∧
          memo_ nl0 = memo_ nl1 ∧ same_board nl1 nl0) as (Em & Es & Eme & Hsb0).
  { unfold nl0. destruct (k =? 0); repeat split. }
  assert (mates_inv B k (retired_bound B k) nl0) as Hinv1
    by (by apply (mates_inv_frame B _ _ nl1)).
  assert (agree (retired_bound B k) nl0 nl2) as Hag
    by (by apply (agree_frame _ nl1 nl2)).
  clear Hag''.
  assert (memo_sound B (memo_ nl0)) as Hms by (by rewrite Eme).
  assert (∀ r, stays nl0 r → stays nl1 r) as Hback.
  { intros r (? & ? & ?). split; [congruence|]. split; [congruence|].
    by apply (same_board_trans _ nl0). }
  clearbody nl0. clear Hinv1' Hms' Em Es Eme Hsb0.
  destruct (newly_fixed_spec _ _ _ k nl0 Hbr Hk Hinv1)
    as (s & dead & Hs & Hrs & Hlast & Hrun1 & Hpass1).
  destruct (newly_fixed_spec _ _ _ k nl2 Hbr Hk Hinv2)
    as (s' & dead' & Hs' & _ & _ & Hrun2 & Hpass2).
  rewrite Hs in Hs'. injection Hs' as <-.
  pose proof (newly_fixed_agree B k nl0 nl2 (mi_board _ _ _ _ Hinv1)
                (mi_board _ _ _ _ Hinv2) Hag) as Heq.
  rewrite Hrun1, Hrun2 in Heq. injection Heq as <-.
  rewrite Hrun1, Hrun2. simpl. destruct dead.
  { exists 0, nl0, nl2. split; [done|]. split; [done|].
    split; [apply Hback, stays_refl|]. split; [apply Hback2, stays_refl|done]. }
  specialize (Hpass1 eq_refl). specialize (Hpass2 eq_refl).
  pose proof (mi_board _ _ _ _ Hpass1) as Hbd.
  assert (size_ nl0 = size_ B ∧ start_ nl0 = start_ B) as [Esz Est].
  { by destruct Hbd as (_&_&?&_&_&_&_&?&_). }
  assert (size_ nl2 = size_ B) as ->
    by (by destruct (mi_board _ _ _ _ Hpass2) as (_&_&?&_)).
  unfold Solve_tail. rewrite Esz.
  destruct (Z.eqb_spec k (size_ B)) as [Hend|Hmore].
  { eexists 1, _, _. split; [done|]. split; [done|].
    split; [|split; [apply Hback2, stays_leaf|]].
    - apply Hback. destruct (solved_ nl0); [apply stays_refl|].
      split; [done|]. split; [done|]. unfold same_board. simpl. by repeat split.
    - by destruct (solved_ nl0). }
  destruct (mates_inv_table_len _ _ _ _ _ _ Hbr Hpass1) as (Htl & Hml & Hsz0).
  destruct (mates_inv_table_len _ _ _ _ _ _ Hbr Hpass2) as (_ & Hml2 & _).
  assert (agree s nl0 nl2) as Hags.
  { apply (agree_le (retired_bound B k)); [done|].
    apply (retired_bound_le width height); try done. lia. }
  unfold mate_tuple. rewrite Est, Hs. simpl.
  destruct (slice (mates_ nl0) s k) as [tuple|] eqn:Esl.
  2:{ exfalso. unfold slice in Esl.
      destruct (Z.leb_spec 0 s), (Z.leb_spec s k),
        (Z.leb_spec k (Z.of_nat (length (mates_ nl0)))); simpl in Esl;
        try done; lia. }
  simpl.
  assert (slice (mates_ nl2) s k = Some tuple) as Esl2.
  { rewrite <- (slice_agree s k nl0 nl2); [done|done|lia]. }
  assert (0 <= k < Z.of_nat (length (memo_ nl0))) as Hkm.
  { rewrite (same_board_memo_len B) by done.
    rewrite (br_memo_len _ _ _ Hbr). lia. }
  destruct (vget_is_Some (memo_ nl0) k Hkm) as [m Hm]. rewrite Hm. simpl.
  assert (fuel = Z.to_nat (size_ B - k)) as Efuel by lia.
  assert (mates_inv B (k + 1) s nl0) as Hup1
    by (apply (mates_inv_weaken B k s); [done|lia|lia]).
  assert (mates_inv B (k + 1) s nl2) as Hup2
    by (apply (mates_inv_weaken B k s); [done|lia|lia]).
  destruct (m !! GetHash tuple) as [c|] eqn:Ehit.
  { destruct (Hms k m _ c Hm Ehit nl2 s tuple) as [r Hr]; try done; [lia|].
    destruct (Connect_pair width height B k s (λ _, True)
                (Solve_plain fuel) (Solve_plain fuel) nl2 nl2)
      as (c' & r1 & r2 & Hr1 & _ & Hst & _); try done; try lia.
    { apply (plain_rec_pair width height); try done; lia. }
    rewrite <- Efuel in Hr. rewrite Hr in Hr1. injection Hr1 as <- <-.
    exists c, nl0, r. split; [done|]. split; [done|].
    split; [apply Hback, stays_refl|]. split; [by apply Hback2|done]. }
  destruct (Connect_pair width height B k s (memo_sound B)
              (Solve fuel) (Solve_plain fuel) nl0 nl2)
    as (c & e1 & e2 & -> & Hr2 & (Hme1 & Hse1 & Hsbe1) & Hst2 & Hms1);
    try done; try lia.
  { intros a1 a2 Ha1 Ha2 Haga Hmsa. rewrite to_short_id by lia.
    destruct (IH (k + 1) a1 a2) as (c & r1 & r2 & H1 & H2 & Hs1 & Hs2 & Hmsr);
      try done; try lia;
      try (by rewrite (retired_bound_next B k s) by (done || lia)).
    by exists c, r1, r2. }
  simpl. rewrite Hr2.
  assert (0 <= k < Z.of_nat (length (memo_ e1))) as Hkm1
    by (by rewrite (same_board_memo_len nl0)).
  unfold memo_store.
  destruct (vget_is_Some (memo_ e1) k Hkm1) as [m1 Hm1]. rewrite Hm1. simpl.
  rewrite vset_is_Some by done. simpl.
  eexists c, _, e2. split; [done|]. split; [done|].
  split; [|split; [by apply Hback2|]].
  - apply Hback. split; [done|]. split; [done|].
    apply (same_board_trans _ e1); [done|].
    unfold same_board. simpl. rewrite length_insert. by repeat split.
  - simpl. intros k' m' h' c' Hk' Hh' nl s' tuple' Hrk' Hs' Hinv' Hsl' Hhash.
    rewrite vget_insert in Hk' by done.
    destruct (decide (k = k')) as [<-|Hne]; [|by eapply Hms1].
    injection Hk' as <-. rewrite Hs in Hs'. injection Hs' as <-.
    destruct (decide (GetHash tuple = h')) as [<-|Hneh].
    + rewrite lookup_insert_eq in Hh'. injection Hh' as <-.
      apply (stored_count_sound width height B k s tuple c nl2 e2 Hbr)
        with (tuple' := tuple'); try done; try lia.
      * by apply (Hwin k s).
      * by rewrite <- Efuel.
    + rewrite lookup_insert_ne in Hh' by done.
      by apply (Hms1 k m1 h' c' Hm1 Hh' nl s tuple').
Qed.

(** A slice is never longer than the board is wide: the cells between the
    look-back cell and the cell lie on two diagonals and have different
    columns, none of them the column of the cell. *)
Lemma window_le_width width height nl k s :
  indexed width height nl → 0 <= k < width * height →
  vget (start_ nl) k = Some s → k - s <= width.
Proof.
  intros Hix Hk Hs.
  pose proof (ix_width_pos _ _ _ Hix) as Hwp.
  destruct (indexed_cell _ _ _ k Hix Hk) as (x & y & Hc & Hon & _).
  pose proof Hs as Hlb. rewrite (ix_start _ _ _ Hix k x y Hk Hc) in Hlb.
  destruct (look_back_cell _ _ _ _ _ _ Hix Hon Hlb)
    as (lx & ly & Hlon & Hlc & Hrs & Hcase).
  destruct (Z.le_gt_cases (k - s) 1) as [|Hbig]; [lia|].
  assert (Z.of_nat (Z.to_nat (k - s - 1)) <= width - 1) as Hcount; [|lia].
  apply (pigeonhole (Z.to_nat (k - s - 1)) (width - 1)
           (λ a b, ∃ xj yj, cell_at (cell_x_ nl) (cell_y_ nl) (s + 1 + a) xj yj ∧
                            ((xj < x ∧ xj + yj = x + y - 1) ∨
                             (x < xj ∧ xj + yj = x + y)) ∧
                            b = if xj <? x then xj else xj - 1)); [lia| |].
  - intros a Ha.
    destruct (indexed_cell _ _ _ (s + 1 + a) Hix) as (xj & yj & Hcj & Hjon & _);
      [lia|].
    assert (diag_lt lx ly xj yj) as H1
      by (apply (indexed_order width height nl s (s + 1 + a)); try done; lia).
    assert (diag_lt xj yj x y) as H2
      by (apply (indexed_order width height nl (s + 1 + a) k); try done; lia).
    assert ((xj < x ∧ xj + yj = x + y - 1) ∨ (x < xj ∧ xj + yj = x + y)) as Hpos.
    { clear - H1 H2 Hcase Hon Hjon. unfold diag_lt, on_board in *. lia. }
    exists (if xj <? x then xj else xj - 1). split.
    + clear - Hpos Hon Hjon. unfold on_board in *.
      destruct (Z.ltb_spec xj x); lia.
    + by exists xj, yj.
  - intros a a' b Ha Ha' (xj & yj & Hcj & Hpj & Hb) (xj' & yj' & Hcj' & Hpj' & Hb').
    assert (xj = xj' ∧ yj = yj') as [<- <-].
    { clear - Hb Hb' Hpj Hpj'.
      destruct (Z.ltb_spec xj x), (Z.ltb_spec xj' x); lia. }
    assert (s + 1 + a = s + 1 + a'); [|lia].
    apply (indexed_key_unique width height nl _ _ xj yj); try done; lia.
Qed.

(** The same slices are never longer than the board is high, plus one. *)
Lemma window_le_height width height nl k s :
  indexed width height nl → 0 <= k < width * height →
  vget (start_ nl) k = Some s → k - s <= height + 1.
Proof.
  intros Hix Hk Hs.
  pose proof (ix_height_pos _ _ _ Hix) as Hhp.
  destruct (indexed_cell _ _ _ k Hix Hk) as (x & y & Hc & Hon & _).
  pose proof Hs as Hlb. rewrite (ix_start _ _ _ Hix k x y Hk Hc) in Hlb.
  destruct (look_back_cell _ _ _ _ _ _ Hix Hon Hlb)
    as (lx & ly & Hlon & Hlc & Hrs & Hcase).
  destruct (Z.le_gt_cases (k - s) 1) as [|Hbig]; [lia|].
  assert (Z.of_nat (Z.to_nat (k - s - 1)) <= height) as Hcount; [|lia].
  apply (pigeonhole (Z.to_nat (k - s - 1)) height
           (λ a b, ∃ xj, cell_at (cell_x_ nl) (cell_y_ nl) (s + 1 + a) xj b ∧
                         ((xj < x ∧ xj + b = x + y - 1) ∨
                          (x < xj ∧ xj + b = x + y)))); [lia| |].
  - intros a Ha.
    destruct (indexed_cell _ _ _ (s + 1 + a) Hix) as (xj & yj & Hcj & Hjon & _);
      [lia|].
    assert (diag_lt lx ly xj yj) as H1
      by (apply (indexed_order width height nl s (s + 1 + a)); try done; lia).
    assert (diag_lt xj yj x y) as H2
      by (apply (indexed_order width height nl (s + 1 + a) k); try done; lia).
    assert ((xj < x ∧ xj + yj = x + y - 1) ∨ (x < xj ∧ xj + yj = x + y)) as Hpos.
    { clear - H1 H2 Hcase Hon Hjon. unfold diag_lt, on_board in *. lia. }
    exists yj. split; [by destruct Hjon|]. by exists xj.
  - intros a a' b Ha Ha' (xj & Hcj & Hpj) (xj' & Hcj' & Hpj').
    assert (xj = xj') as <- by (clear - Hpj Hpj'; lia).
    assert (s + 1 + a = s + 1 + a'); [|lia].
    apply (indexed_key_unique width height nl _ _ xj b); try done; lia.
Qed.

(** X20: on a board of width at most 4 or height at most 3, where every slice
    of mates that keys the memo has at most 4 keys and [GetHash] tells such
    slices apart, the memo does not change the count: the dataset searched
    with the memo and the dataset searched without it, every index searched
    again each time it is reached, return the same count. *)
Theorem memo_keeps_the_count_on_narrow_boards width height input :
  0 < width → 0 < height → width * height <= 32767 →
  width * height <= Z.of_nat (length input) →
  Forall (λ t, 0 <= t <= 127) (take (Z.to_nat (width * height)) input) →
  width <= 4 ∨ height <= 3 →
  ∃ c nl nl',
    dataset width height input =
      Some (Solved c nl (drop (Z.to_nat (width * height)) input)) ∧
    dataset_plain width height input =
      Some (Solved c nl' (drop (Z.to_nat (width * height)) input)).
Proof.
  intros Hw Hh Hfit Hin Hrange Hnarrow.
  destruct (board_read width height input Hw Hh Hfit Hin Hrange)
    as (nl0 & nl1 & B & Hnew & Hinit & Hread & Hbr & _ & Hinv & _).
  pose proof (br_indexed _ _ _ Hbr) as Hix.
  pose proof (ix_size _ _ _ Hix) as Hsz.
  assert (0 <= size_ B) as Hn by (rewrite Hsz; clear - Hw Hh; nia).
  assert (memo_sound B (memo_ B)) as Hms.
  { destruct (Initialize_spec width height Hw Hh Hfit)
      as (nl0' & nl1' & Hnew' & Hinit' & Hix1 & Hfresh & Htab0).
    rewrite Hnew in Hnew'. injection Hnew' as <-.
    rewrite Hinit in Hinit'. injection Hinit' as <-.
    destruct (read_table_spec width height input nl1 Hix1)
      as (T & Hread' & _); [by rewrite Htab0, length_replicate|done|].
    rewrite Hread in Hread'. injection Hread' as ->. simpl.
    rewrite (fresh_memo _ Hfresh).
    intros k m h c Hk Hm. apply vget_Some in Hk as [_ Hk].
    apply lookup_replicate in Hk as [-> _]. by rewrite lookup_empty in Hm. }
  destruct (Solve_memo_pair width height B Hbr) with
    (fuel := Solve_fuel B) (k := 0) (nl1 := B) (nl2 := B)
    as (c & nl & nl' & HS & HP & _); try done.
  - intros k s Hk Hs. rewrite Hsz in Hk.
    pose proof (window_le_width width height B k s Hix Hk Hs).
    pose proof (window_le_height width height B k s Hix Hk Hs).
    clear - H H0 Hnarrow. lia.
  - unfold Solve_fuel. lia.
  - exists c, nl, nl'. unfold dataset, dataset_plain.
    destruct (Z.eqb_spec width 0); [lia|]. destruct (Z.eqb_spec height 0); [lia|].
    cbn [orb]. rewrite Hnew. cbn [mbind option_bind].
    rewrite Hinit. cbn [mbind option_bind].
    rewrite Hread. cbn [mbind option_bind].
    rewrite HS, HP. done.
Qed.

Lemma memo_keeps_the_count_on_narrow_boards_witness :
  ∃ c nl nl',
    dataset 4 3 [1; 0; 0; 2; 0; 3; 1; 0; 3; 2; 0; 0] =
      Some (Solved c nl
              (drop (Z.to_nat (4 * 3)) [1; 0; 0; 2; 0; 3; 1; 0; 3; 2; 0; 0])) ∧
    dataset_plain 4 3 [1; 0; 0; 2; 0; 3; 1; 0; 3; 2; 0; 0] =
      Some (Solved c nl'
              (drop (Z.to_nat (4 * 3)) [1; 0; 0; 2; 0; 3; 1; 0; 3; 2; 0; 0])).
Proof.
  apply (memo_keeps_the_count_on_narrow_boards 4 3
           [1; 0; 0; 2; 0; 3; 1; 0; 3; 2; 0; 0]);
    [lia | lia | lia | simpl; lia | | lia].
  repeat (constructor; [lia|]). constructor.
Defined.
